(** * worktree-cli: a shallow embedding of the repository inspector,
      the dirty-state guard and the removal / cd resolvers.

    Sources embedded here:
    - [src/build/utils/git.js]       (inspector, stash helpers)
    - [src/build/utils/tui.js]       (selectWorktree, confirm)
    - [src/build/commands/remove.js] (removeWorktreeHandler)
    - the [cd] command handler       (cdWorktreeHandler)

    JavaScript strings are modelled as [string]: sequences of code units
    restricted to the range U+0000..U+00FF.  Every subprocess call, file
    system call, prompt and console write is an [Event]; the outside world
    is a deterministic oracle ([Host]) that answers each call from the
    history of events issued so far.  Code runs in the monad [M], whose
    result is a returned value, a thrown JavaScript error, or a
    [process.exit].  Console texts are given without colour and without
    the quotation marks the source puts around interpolated names. *)

From Stdlib Require Import String Ascii List Bool Arith ZArith Lia.
Import ListNotations.
Open Scope list_scope.
Open Scope string_scope.

(* ===================================================================== *)
(** ** JavaScript string primitives *)
(* ===================================================================== *)

Module JsString.

(** Truthiness of a string: [if (s)] holds iff [s] is not empty. *)
Definition truthy (s : string) : bool :=
  match s with
  | EmptyString => false
  | String _ _ => true
  end.

(** White space as [String.prototype.trim] sees it, for code units below
    U+0100: TAB, LF, VT, FF, CR, SPACE and NO-BREAK SPACE. *)
Definition is_space (c : ascii) : bool :=
  let n := nat_of_ascii c in
  (((9 <=? n) && (n <=? 13)) || (n =? 32) || (n =? 160))%nat.

Fixpoint rev_onto (s acc : string) : string :=
  match s with
  | EmptyString => acc
  | String c s' => rev_onto s' (String c acc)
  end.

Definition rev (s : string) : string := rev_onto s EmptyString.

Fixpoint trimStart (s : string) : string :=
  match s with
  | EmptyString => EmptyString
  | String c s' => if is_space c then trimStart s' else s
  end.

Definition trimEnd (s : string) : string := rev (trimStart (rev s)).

(** [s.trim()] *)
Definition trim (s : string) : string := trimEnd (trimStart s).

(** [s.startsWith(p)] *)
Definition startsWith (s p : string) : bool := String.prefix p s.

(** [s.substring(n)] for [0 <= n]. *)
Fixpoint drop (n : nat) (s : string) : string :=
  match n, s with
  | O, _ => s
  | S _, EmptyString => EmptyString
  | S k, String _ s' => drop k s'
  end.

(** [s.includes(p)] *)
Fixpoint includes (s p : string) : bool :=
  String.prefix p s ||
  match s with
  | EmptyString => false
  | String _ s' => includes s' p
  end.

(** [s.replace(pat, rep)] with a string pattern: the first occurrence
    only.  [rep] holds no [$] here. *)
Fixpoint replace (s pat rep : string) : string :=
  if String.prefix pat s then rep ++ drop (String.length pat) s
  else match s with
       | EmptyString => EmptyString
       | String c s' => String c (replace s' pat rep)
       end.

(** [s.split(sep)] for a non-empty separator.  [cur] is the piece being
    read, reversed; [skip] counts the code units of a separator still
    to be passed over. *)
Fixpoint split_go (sep s cur : string) (skip : nat) : list string :=
  match s with
  | EmptyString => [rev cur]
  | String c s' =>
      match skip with
      | S k => split_go sep s' cur k
      | O =>
          if String.prefix sep s
          then rev cur :: split_go sep s' EmptyString (String.length sep - 1)
          else split_go sep s' (String c cur) 0
      end
  end.

Definition split (s sep : string) : list string :=
  split_go sep s EmptyString 0.

(** [c.toLowerCase()] for one code unit below U+0100: A-Z, and the
    Latin-1 capitals U+00C0..U+00DE except the multiplication sign. *)
Definition lower_char (c : ascii) : ascii :=
  let n := nat_of_ascii c in
  if (((65 <=? n) && (n <=? 90))
      || ((192 <=? n) && (n <=? 222) && negb (n =? 215)))%nat
  then ascii_of_nat (n + 32)
  else c.

Fixpoint toLowerCase (s : string) : string :=
  match s with
  | EmptyString => EmptyString
  | String c s' => String (lower_char c) (toLowerCase s')
  end.

(** The longest prefix of [s] whose code units all satisfy [p], and what
    follows it: how a greedy character class [[...]*] reads. *)
Fixpoint span (p : ascii -> bool) (s : string) : string * string :=
  match s with
  | EmptyString => (EmptyString, EmptyString)
  | String c s' =>
      if p c then let '(a, b) := span p s' in (String c a, b)
      else (EmptyString, s)
  end.

Fixpoint all (p : ascii -> bool) (s : string) : bool :=
  match s with
  | EmptyString => true
  | String c s' => p c && all p s'
  end.

Definition LF : string := String (ascii_of_nat 10) EmptyString.

(** The quotation mark, and a text between two of them. *)
Definition DQ : string := String (ascii_of_nat 34) EmptyString.

Definition quoted (s : string) : string := DQ ++ s ++ DQ.

End JsString.

Import JsString.

(* ===================================================================== *)
(** ** Data model *)
(* ===================================================================== *)

(** [WorktreeInfo]: one block of [git worktree list --porcelain].
    [branch] is [null] for a detached or bare entry; [lockReason] and
    [pruneReason] are absent unless the block gives them. *)
Record WorktreeInfo : Type := mkWorktreeInfo {
  path : string;
  head : string;
  branch : option string;
  detached : bool;
  locked : bool;
  prunable : bool;
  isMain : bool;
  bare : bool;
  lockReason : option string;
  pruneReason : option string
}.

Definition option_string_eqb (a b : option string) : bool :=
  match a, b with
  | None, None => true
  | Some x, Some y => String.eqb x y
  | _, _ => false
  end.

(** The provider the PR/MR features talk to: ['gh'] or ['glab']. *)
Inductive Provider : Type := gh | glab.

(* ===================================================================== *)
(** ** The outside world: calls, answers and the event history *)
(* ===================================================================== *)

(** One [execa(file, args, options)] call. *)
Record Cmd : Type := mkCmd {
  file : string;
  args : list string;
  opt_cwd : option string;
  opt_reject : bool;            (* execa's default is [true] *)
  opt_stdio_inherit : bool
}.

Definition git (a : list string) : Cmd := mkCmd "git" a None true false.
Definition git_noreject (a : list string) : Cmd := mkCmd "git" a None false false.

(** What a finished child process reports.  [exitCode] is absent when the
    child was killed by a signal. *)
Record ExecaResult : Type := mkExecaResult {
  exitCode : option Z;
  signal : option string;
  stdout : string;
  stderr : string;
  message : string
}.

Definition failed (r : ExecaResult) : bool :=
  match signal r, exitCode r with
  | Some _, _ => true
  | None, Some c => negb (Z.eqb c 0)
  | None, None => true
  end.

(** [Completed]: the child ran to its end (successfully or not).
    [SpawnThrow]: execa raised without a result, which it does whatever
    the [reject] option says (an argument it refuses, for instance). *)
Inductive ExecaOutcome : Type :=
| Completed (r : ExecaResult)
| SpawnThrow (msg : string).

Definition ok_result (out : string) : ExecaResult :=
  mkExecaResult (Some 0%Z) None out "" "".

Definition fail_result (code : Z) (out err : string) : ExecaResult :=
  mkExecaResult (Some code) None out err "Command failed".

(** A thrown JavaScript value. *)
Inductive JsError : Type :=
| ExecaError (r : ExecaResult)
| FsError (code : string) (msg : string)
| OtherError (msg : string).

Definition error_message (e : JsError) : string :=
  match e with
  | ExecaError r => message r
  | FsError _ m => m
  | OtherError m => m
  end.

(** [error.stderr || error.message] *)
Definition stderr_or_message (e : JsError) : string :=
  match e with
  | ExecaError r => if truthy (stderr r) then stderr r else message r
  | _ => error_message e
  end.

Inductive StatOutcome : Type :=
| StatOk (isDirectory : bool)
| StatErr (code : string) (msg : string).

Inductive Stream : Type := Out | Err.

(** The answer of the [prompts] library to a selection prompt. *)
Inductive Selection : Type :=
| SelNone                               (* cancelled: [undefined] *)
| SelOne (wt : WorktreeInfo)
| SelMany (wts : list WorktreeInfo).

Inductive Event : Type :=
| EvExec (c : Cmd) (o : ExecaOutcome)
| EvStat (p : string) (o : StatOutcome)
| EvRealpath (p : string) (o : option string)
| EvRm (p : string) (o : option JsError)
| EvSelect (msg : string) (multi : bool) (choices : list WorktreeInfo) (o : Selection)
| EvConfirm (msg : string) (initial : bool) (o : option bool)
| EvWrite (s : Stream) (text : string).

Definition History : Type := list Event.

(** The collaborators: each oracle answers from the history so far.
    [path_resolve] is [path.resolve] (the process's working directory is
    fixed for a run); [url_hostname] is [new URL(u).hostname], [None] when
    the constructor throws. *)
Record Host : Type := mkHost {
  execa_oracle : History -> Cmd -> ExecaOutcome;
  stat_oracle : History -> string -> StatOutcome;
  realpath_oracle : History -> string -> option string;
  rm_oracle : History -> string -> option JsError;
  select_oracle : History -> string -> bool -> list WorktreeInfo -> Selection;
  confirm_oracle : History -> string -> bool -> option bool;
  path_resolve : list string -> string;
  url_hostname : string -> option string;
  stdin_isTTY : bool;
  shell_path : string;
  signal_number : string -> option Z
}.

(* ===================================================================== *)
(** ** The monad of handlers *)
(* ===================================================================== *)

Inductive Res (A : Type) : Type :=
| Ret (a : A)
| Throw (e : JsError)
| Exit (code : Z).

Arguments Ret {A} a.
Arguments Throw {A} e.
Arguments Exit {A} code.

Definition M (A : Type) : Type := History -> Res A * History.

Definition ret {A} (a : A) : M A := fun h => (Ret a, h).

Definition bind {A B} (m : M A) (k : A -> M B) : M B :=
  fun h =>
    match m h with
    | (Ret a, h') => k a h'
    | (Throw e, h') => (Throw e, h')
    | (Exit c, h') => (Exit c, h')
    end.

Definition throw {A} (e : JsError) : M A := fun h => (Throw e, h).

(** [process.exit(code)]: no handler catches it. *)
Definition process_exit {A} (code : Z) : M A := fun h => (Exit code, h).

(** [try { m } catch (e) { handler e }] *)
Definition try_catch {A} (m : M A) (handler : JsError -> M A) : M A :=
  fun h =>
    match m h with
    | (Throw e, h') => handler e h'
    | r => r
    end.

Definition emit (e : Event) : M unit := fun h => (Ret tt, (h ++ [e])%list).

Declare Scope js_scope.
Delimit Scope js_scope with js.
Notation "x <- m ;; k" := (bind m (fun x => k))
  (at level 61, m at next level, right associativity) : js_scope.
Notation "m ;; k" := (bind m (fun _ => k))
  (at level 61, right associativity) : js_scope.
Open Scope js_scope.

Definition run {A} (m : M A) (h : History) : Res A := fst (m h).
Definition trace {A} (m : M A) (h : History) : History := snd (m h).

Section Primitives.
Variable H : Host.

(** [await execa(...)]: with [reject] (the default) a failed child
    raises; without it the result is returned whatever the exit code. *)
Definition execa (c : Cmd) : M ExecaResult :=
  fun h =>
    let o := execa_oracle H h c in
    let h' := (h ++ [EvExec c o])%list in
    match o with
    | Completed r =>
        if failed r && opt_reject c then (Throw (ExecaError r), h')
        else (Ret r, h')
    | SpawnThrow msg => (Throw (OtherError msg), h')
    end.

(** [await stat(p)]; the result is [stats.isDirectory()]. *)
Definition stat (p : string) : M bool :=
  fun h =>
    let o := stat_oracle H h p in
    let h' := (h ++ [EvStat p o])%list in
    match o with
    | StatOk d => (Ret d, h')
    | StatErr code msg => (Throw (FsError code msg), h')
    end.

(** [await realpath(p)] *)
Definition realpath (p : string) : M string :=
  fun h =>
    let o := realpath_oracle H h p in
    let h' := (h ++ [EvRealpath p o])%list in
    match o with
    | Some q => (Ret q, h')
    | None => (Throw (FsError "ENOENT" "realpath failed"), h')
    end.

(** [await rm(p, { recursive: true, force: true })] *)
Definition rm (p : string) : M unit :=
  fun h =>
    let o := rm_oracle H h p in
    let h' := (h ++ [EvRm p o])%list in
    match o with
    | None => (Ret tt, h')
    | Some e => (Throw e, h')
    end.

Definition console_log (s : string) : M unit := emit (EvWrite Out s).
Definition console_error (s : string) : M unit := emit (EvWrite Err s).

End Primitives.

(* ===================================================================== *)
(** ** [utils/git.js]: the repository inspector *)
(* ===================================================================== *)

Module Git.

Definition LFLF : string := LF ++ LF.

(** The [info] object a block starts from ([getWorktrees], the object
    literal of the loop body). *)
Definition initInfo (isFirstWorktree : bool) : WorktreeInfo :=
  {| path := ""; head := ""; branch := None;
     detached := false; locked := false; prunable := false;
     isMain := isFirstWorktree; bare := false;
     lockReason := None; pruneReason := None |}.

Definition set_path (i : WorktreeInfo) (v : string) : WorktreeInfo :=
  {| path := v; head := head i; branch := branch i;
     detached := detached i; locked := locked i; prunable := prunable i;
     isMain := isMain i; bare := bare i;
     lockReason := lockReason i; pruneReason := pruneReason i |}.

Definition set_head (i : WorktreeInfo) (v : string) : WorktreeInfo :=
  {| path := path i; head := v; branch := branch i;
     detached := detached i; locked := locked i; prunable := prunable i;
     isMain := isMain i; bare := bare i;
     lockReason := lockReason i; pruneReason := pruneReason i |}.

Definition set_branch (i : WorktreeInfo) (v : string) : WorktreeInfo :=
  {| path := path i; head := head i; branch := Some v;
     detached := detached i; locked := locked i; prunable := prunable i;
     isMain := isMain i; bare := bare i;
     lockReason := lockReason i; pruneReason := pruneReason i |}.

Definition set_detached (i : WorktreeInfo) : WorktreeInfo :=
  {| path := path i; head := head i; branch := branch i;
     detached := true; locked := locked i; prunable := prunable i;
     isMain := isMain i; bare := bare i;
     lockReason := lockReason i; pruneReason := pruneReason i |}.

Definition set_bare (i : WorktreeInfo) : WorktreeInfo :=
  {| path := path i; head := head i; branch := branch i;
     detached := detached i; locked := locked i; prunable := prunable i;
     isMain := isMain i; bare := true;
     lockReason := lockReason i; pruneReason := pruneReason i |}.

Definition set_locked (i : WorktreeInfo) (reason : option string) : WorktreeInfo :=
  {| path := path i; head := head i; branch := branch i;
     detached := detached i; locked := true; prunable := prunable i;
     isMain := isMain i; bare := bare i;
     lockReason := match reason with Some r => Some r | None => lockReason i end;
     pruneReason := pruneReason i |}.

Definition set_prunable (i : WorktreeInfo) (reason : option string) : WorktreeInfo :=
  {| path := path i; head := head i; branch := branch i;
     detached := detached i; locked := locked i; prunable := true;
     isMain := isMain i; bare := bare i;
     lockReason := lockReason i;
     pruneReason := match reason with Some r => Some r | None => pruneReason i end |}.

(** One turn of the inner loop [for (const line of lines)]: the
    [if / else if] chain over the fixed prefixes. *)
Definition parseLine (info : WorktreeInfo) (line : string) : WorktreeInfo :=
  if startsWith line "worktree " then
    set_path info (drop (String.length "worktree ") line)
  else if startsWith line "HEAD " then
    set_head info (drop (String.length "HEAD ") line)
  else if startsWith line "branch " then
    let fullRef := drop (String.length "branch ") line in
    set_branch info (replace fullRef "refs/heads/" "")
  else if String.eqb line "detached" then set_detached info
  else if String.eqb line "bare" then set_bare info
  else if String.eqb line "locked" then set_locked info None
  else if startsWith line "locked " then
    set_locked info (Some (drop (String.length "locked ") line))
  else if String.eqb line "prunable" then set_prunable info None
  else if startsWith line "prunable " then
    set_prunable info (Some (drop (String.length "prunable ") line))
  else info.

(** The record one block yields, before the [if (info.path)] test. *)
Definition parseBlock (isFirstWorktree : bool) (block : string) : WorktreeInfo :=
  fold_left parseLine (split block LF) (initInfo isFirstWorktree).

(** The outer loop [for (const block of blocks)], threading
    [isFirstWorktree]: a block is pushed only when its path is not
    empty, and the flag is cleared after every block. *)
Fixpoint parseBlocks (isFirstWorktree : bool) (blocks : list string)
  : list WorktreeInfo :=
  match blocks with
  | [] => []
  | block :: rest =>
      let info := parseBlock isFirstWorktree block in
      if truthy (path info)
      then info :: parseBlocks false rest
      else parseBlocks false rest
  end.

(** [stdout.split('\n\n').filter(block => block.trim())] *)
Definition blocksOf (out : string) : list string :=
  filter (fun block => truthy (trim block)) (split out LFLF).

(** [getWorktrees], from the test of [stdout] to [return worktrees]. *)
Definition parseWorktreeList (out : string) : list WorktreeInfo :=
  if negb (truthy (trim out)) then []
  else parseBlocks true (blocksOf out).

Definition worktree_list_cmd (cwd : string) : Cmd :=
  git ["-C"; cwd; "worktree"; "list"; "--porcelain"].

Section WithHost.
Variable H : Host.

(** [getWorktrees(cwd = ".")] *)
Definition getWorktrees (cwd : string) : M (list WorktreeInfo) :=
  try_catch
    (r <- execa H (worktree_list_cmd cwd) ;;
     ret (parseWorktreeList (stdout r)))
    (fun error =>
       console_error ("Failed to list worktrees: " ++ stderr_or_message error) ;;
       ret []).

(** [findWorktreeByBranch(branch, cwd = ".")]:
    [worktrees.find(wt => wt.branch === branch) || null] *)
Definition findWorktreeByBranch (b : string) (cwd : string)
  : M (option WorktreeInfo) :=
  worktrees <- getWorktrees cwd ;;
  ret (find (fun wt => option_string_eqb (branch wt) (Some b)) worktrees).

(** The loop of [findWorktreeByPath]: the first record whose real
    path (or, when [realpath] throws, its resolved path) is the
    target's. *)
Fixpoint findByRealPath (resolvedTarget : string) (worktrees : list WorktreeInfo)
  : M (option WorktreeInfo) :=
  match worktrees with
  | [] => ret None
  | wt :: rest =>
      wtRealPath <- try_catch (realpath H (path wt))
                      (fun _ => ret (path_resolve H [path wt])) ;;
      if String.eqb wtRealPath resolvedTarget then ret (Some wt)
      else findByRealPath resolvedTarget rest
  end.

(** [findWorktreeByPath(targetPath, cwd = ".")] *)
Definition findWorktreeByPath (targetPath : string) (cwd : string)
  : M (option WorktreeInfo) :=
  worktrees <- getWorktrees cwd ;;
  resolvedTarget <- try_catch (realpath H (path_resolve H [targetPath]))
                      (fun _ => ret (path_resolve H [targetPath])) ;;
  findByRealPath resolvedTarget worktrees.


(** The capture of [/^([^\/]+)\//]: the code units before the first
    slash, when there is a slash and something before it. *)
Definition matchRemotePrefix (s : string) : option string :=
  let '(name, rest) := span (fun c => negb (Ascii.eqb c "/")) s in
  if truthy name && startsWith rest "/" then Some name else None.

(** [if (out && out.trim()) { const match = ...; if (match && match[1])
    return match[1]; }]: [Some] is the early return. *)
Definition trackingRemote (out : string) : option string :=
  if truthy out && truthy (trim out) then
    match matchRemotePrefix (trim out) with
    | Some m => if truthy m then Some m else None
    | None => None
    end
  else None.

Definition upstream_query (cwd b : string) : Cmd :=
  git_noreject ["-C"; cwd; "rev-parse"; "--abbrev-ref"; b ++ "@{upstream}"].

Definition remote_list_cmd (cwd : string) : Cmd := git ["-C"; cwd; "remote"].

Definition commonRemotes : list string := ["origin"; "upstream"].

(** [getUpstreamRemote(cwd = ".")].  The inner [try] returns early
    with a tracking remote ([Some]) or falls out of the block
    ([None]); its [catch] runs only when the first [execa] raises. *)
Definition getUpstreamRemote (cwd : string) : M string :=
  try_catch
    (early <- try_catch
                (r <- execa H (upstream_query cwd "main") ;;
                 ret (trackingRemote (stdout r)))
                (fun _ =>
                   try_catch
                     (r <- execa H (upstream_query cwd "master") ;;
                      ret (trackingRemote (stdout r)))
                     (fun _ => ret None)) ;;
     match early with
     | Some remote => ret remote
     | None =>
         r <- execa H (remote_list_cmd cwd) ;;
         let remotes := filter truthy (map trim (split (stdout r) LF)) in
         if Nat.eqb (List.length remotes) 0 then ret "origin"
         else
           match find (fun commonRemote => existsb (String.eqb commonRemote) remotes)
                      commonRemotes with
           | Some commonRemote => ret commonRemote
           | None => ret (nth 0 remotes "")
           end
     end)
    (fun _ => ret "origin").

(** The capture of [/^git@([^:]+):/] on a string that starts with
    [git@]. *)
Definition matchScpHost (remoteUrl : string) : option string :=
  let '(host, rest) := span (fun c => negb (Ascii.eqb c ":")) (drop 4 remoteUrl) in
  if truthy host && startsWith rest ":" then Some host else None.

Definition not_slash_colon (c : ascii) : bool :=
  negb (Ascii.eqb c "/") && negb (Ascii.eqb c ":").

(** The capture of [/^ssh:\/\/(?:[^@]+@)?([^/:]+)/] on a string that
    starts with [ssh://]: the user part is tried first, and dropped
    when no host follows it. *)
Definition matchSshHost (remoteUrl : string) : option string :=
  let body := drop 6 remoteUrl in
  let without_user :=
    let '(host, _) := span not_slash_colon body in
    if truthy host then Some host else None in
  let '(user, rest) := span (fun c => negb (Ascii.eqb c "@")) body in
  if truthy user && startsWith rest "@" then
    let '(host, _) := span not_slash_colon (drop 1 rest) in
    if truthy host then Some host else without_user
  else without_user.

(** [getRemoteHostname(remoteUrl)] *)
Definition getRemoteHostname (remoteUrl : string) : option string :=
  match (if startsWith remoteUrl "git@" then matchScpHost remoteUrl else None) with
  | Some m => Some (toLowerCase m)
  | None =>
      match (if startsWith remoteUrl "ssh://" then matchSshHost remoteUrl else None) with
      | Some m => Some (toLowerCase m)
      | None =>
          if startsWith remoteUrl "http://" || startsWith remoteUrl "https://" then
            match url_hostname H remoteUrl with
            | Some hostname => Some (toLowerCase hostname)
            | None => None          (* [new URL] threw: the [catch] *)
            end
          else None
      end
  end.

Definition is_lower_or_dot (c : ascii) : bool :=
  let n := nat_of_ascii c in
  (((97 <=? n) && (n <=? 122)) || (n =? 46))%nat.

(** [/^gitlab\.[a-z.]+$/.test(hostname)] *)
Definition gitlabPattern (hostname : string) : bool :=
  startsWith hostname "gitlab." &&
  (let rest := drop 7 hostname in truthy rest && JsString.all is_lower_or_dot rest).

(** [detectGitProvider], from [const hostname = ...] to the last
    [return null] of the [try] block. *)
Definition providerOfUrl (remoteUrl : string) : option Provider :=
  match getRemoteHostname remoteUrl with
  | None => None
  | Some hostname =>
      if negb (truthy hostname) then None
      else if String.eqb hostname "github.com" then Some gh
      else if String.eqb hostname "gitlab.com" || gitlabPattern hostname then Some glab
      else None
  end.

Definition get_url_cmd (cwd remote : string) : Cmd :=
  git ["-C"; cwd; "remote"; "get-url"; remote].

(** [detectGitProvider(cwd = ".")] *)
Definition detectGitProvider (cwd : string) : M (option Provider) :=
  try_catch
    (remote <- getUpstreamRemote cwd ;;
     r <- execa H (get_url_cmd cwd remote) ;;
     let remoteUrl := trim (stdout r) in
     ret (providerOfUrl remoteUrl))
    (fun _ => ret None).

(* ----------------------------------------------------------------- *)
(** *** The dirty-state guard *)

Definition status_cmd (cwd : string) : Cmd := git ["-C"; cwd; "status"; "--porcelain"].
Definition add_all_cmd (cwd : string) : Cmd := git ["-C"; cwd; "add"; "-A"].
Definition stash_create_cmd (cwd : string) (msg : option string) : Cmd :=
  git (["-C"; cwd] ++
       (["stash"; "create"] ++
        match msg with
        | Some m => if truthy m then [m] else []
        | None => []
        end))%list.
Definition reset_hard_cmd (cwd : string) : Cmd :=
  git ["-C"; cwd; "reset"; "--hard"; "HEAD"].
Definition clean_cmd (cwd : string) : Cmd := git ["-C"; cwd; "clean"; "-fd"].
Definition stash_apply_cmd (cwd stashHash : string) : Cmd :=
  git ["-C"; cwd; "stash"; "apply"; stashHash].
Definition stash_pop_cmd (cwd : string) : Cmd := git ["-C"; cwd; "stash"; "pop"].

(** [stashChanges(cwd = ".", message)]: [Some hash] or [null]. *)
Definition stashChanges (cwd : string) (msg : option string) : M (option string) :=
  try_catch
    (st <- execa H (status_cmd cwd) ;;
     if negb (truthy (trim (stdout st))) then ret None
     else
       execa H (add_all_cmd cwd) ;;
       r <- execa H (stash_create_cmd cwd msg) ;;
       let stashHash := trim (stdout r) in
       if negb (truthy stashHash) then ret None
       else
         execa H (reset_hard_cmd cwd) ;;
         execa H (clean_cmd cwd) ;;
         ret (Some stashHash))
    (fun error =>
       console_error ("Failed to stash changes: " ++ stderr_or_message error) ;;
       ret None).

(** [applyAndDropStash(stashHash, cwd = ".")] *)
Definition applyAndDropStash (stashHash : string) (cwd : string) : M bool :=
  try_catch
    (execa H (stash_apply_cmd cwd stashHash) ;;
     ret true)
    (fun error =>
       console_error ("Failed to apply stash: " ++ stderr_or_message error) ;;
       ret false).

(** [popStash(cwd = ".")], deprecated in favour of the above. *)
Definition popStash (cwd : string) : M bool :=
  try_catch
    (execa H (stash_pop_cmd cwd) ;;
     ret true)
    (fun error =>
       console_error ("Failed to pop stash: " ++ stderr_or_message error) ;;
       ret false).

End WithHost.

End Git.

(* ===================================================================== *)
(** ** [utils/tui.js]: the interactive collaborators *)
(* ===================================================================== *)

Module Tui.
Section WithHost.
Variable H : Host.

(** [await prompts({ type: 'autocomplete' | 'multiselect', ... })];
    the choices are shown by title, their values are the records. *)
Definition prompts_select (msg : string) (multi : bool)
           (choices : list WorktreeInfo) : M Selection :=
  fun h =>
    let o := select_oracle H h msg multi choices in
    (Ret o, (h ++ [EvSelect msg multi choices o])%list).

Definition prompts_confirm (msg : string) (initial : bool) : M (option bool) :=
  fun h =>
    let o := confirm_oracle H h msg initial in
    (Ret o, (h ++ [EvConfirm msg initial o])%list).

(** [selectWorktree({ message, excludeMain, multiSelect })] *)
Definition selectWorktree (msg : string) (excludeMain multiSelect : bool)
  : M Selection :=
  worktrees <- Git.getWorktrees H "." ;;
  if Nat.eqb (List.length worktrees) 0 then
    console_log "No worktrees found." ;;
    ret SelNone
  else
    let filteredWorktrees :=
      if excludeMain then filter (fun wt => negb (isMain wt)) worktrees
      else worktrees in
    if excludeMain && Nat.eqb (List.length filteredWorktrees) 0 then
      console_log "No worktrees to select (only main worktree exists)." ;;
      ret SelNone
    else if multiSelect then
      response <- prompts_select msg true filteredWorktrees ;;
      match response with
      | SelNone => ret SelNone
      | SelMany [] => ret SelNone
      | other => ret other
      end
    else
      prompts_select msg false filteredWorktrees.

(** [confirm(message, defaultValue = false)]:
    [response.confirmed ?? false] *)
Definition confirm (msg : string) (defaultValue : bool) : M bool :=
  response <- prompts_confirm msg defaultValue ;;
  ret (match response with Some b => b | None => false end).

End WithHost.
End Tui.

(** Modelled from the spec: [utils/spinner.js] is not among the sources.
    The progress display is one of the I/O wrappers the spec leaves out
    of scope: [withSpinner(text, action, successText)] runs the action,
    reports [successText] when it returns and lets what it throws pass. *)
Definition withSpinner {A} (text : string) (action : M A) (successText : string) : M A :=
  console_log text ;;
  a <- action ;;
  console_log successText ;;
  ret a.

(* ===================================================================== *)
(** ** [commands/remove.js] *)
(* ===================================================================== *)

Module Remove.

Record Options : Type := mkOptions { force : bool }.

(** [removeError.stderr?.includes(needle)] *)
Definition stderr_includes (e : JsError) (needle : string) : bool :=
  match e with
  | ExecaError r => includes (stderr r) needle
  | _ => false
  end.

Definition inside_work_tree_cmd : Cmd := git ["rev-parse"; "--is-inside-work-tree"].

Definition worktree_remove_cmd (forced : bool) (targetPath : string) : Cmd :=
  git (["worktree"; "remove"] ++ ((if forced then ["--force"] else []) ++ [targetPath]))%list.

Definition branch_delete_cmd (flag b : string) : Cmd := git ["branch"; flag; b].

Section WithHost.
Variable H : Host.

(** [removeWorktreeHandler], the resolution of [targetWorktree]: from
    [let targetWorktree = null] to the end of the [if / else] that
    assigns it. *)
Definition resolveTarget (pathOrBranch : string) : M WorktreeInfo :=
  if negb (truthy pathOrBranch) then
    selected <- Tui.selectWorktree H "Select a worktree to remove" true false ;;
    match selected with
    | SelOne wt => ret wt
    | _ =>
        console_log "No worktree selected." ;;
        process_exit 0
    end
  else
    byPath <- try_catch
                (isDirectory <- stat H pathOrBranch ;;
                 if isDirectory then Git.findWorktreeByPath H pathOrBranch "."
                 else ret None)
                (fun _ => ret None) ;;
    targetWorktree <- match byPath with
                      | Some wt => ret (Some wt)
                      | None => Git.findWorktreeByBranch H pathOrBranch "."
                      end ;;
    match targetWorktree with
    | Some wt => ret wt
    | None =>
        console_error ("Could not find a worktree for " ++ quoted pathOrBranch ++ ".") ;;
        console_error "Use 'wt list' to see existing worktrees, or run 'wt remove' without arguments to select interactively." ;;
        process_exit 1
    end.

(** The offer to delete the local branch, at the end of the handler. *)
Definition deleteBranchStep (b : string) : M unit :=
  deleteBranch <- Tui.confirm H ("Delete local branch " ++ quoted b ++ " as well?") true ;;
  if deleteBranch then
    try_catch
      (withSpinner ("Deleting branch: " ++ b)
         (execa H (branch_delete_cmd "-d" b) ;; ret tt)
         ("Branch " ++ quoted b ++ " deleted."))
      (fun branchError =>
         if stderr_includes branchError "not fully merged" then
           forceDelete <- Tui.confirm H
             ("Branch " ++ quoted b ++ " is not fully merged. Force delete?") false ;;
           if forceDelete then
             withSpinner ("Force deleting branch: " ++ b)
               (execa H (branch_delete_cmd "-D" b) ;; ret tt)
               ("Branch " ++ quoted b ++ " force deleted.")
           else ret tt
         else
           console_error ("Could not delete branch " ++ quoted b ++ ": "
                          ++ error_message branchError))
  else ret tt.

(** [removeWorktreeHandler], from [const targetPath = ...] to the end
    of the [try] block. *)
Definition removeResolved (targetWorktree : WorktreeInfo) (options : Options)
  : M unit :=
  let targetPath := path targetWorktree in
  (if isMain targetWorktree then
     console_error "Cannot remove the main worktree." ;;
     process_exit 1
   else ret tt) ;;
  console_log "Worktree to remove:" ;;
  (match branch targetWorktree with
   | Some b => if truthy b then console_log ("  Branch: " ++ b) else ret tt
   | None => ret tt
   end) ;;
  console_log ("  Path: " ++ targetPath) ;;
  (if locked targetWorktree then
     console_log ("  Warning: This worktree is locked" ++
                  match lockReason targetWorktree with
                  | Some r => if truthy r then ": " ++ r else ""
                  | None => ""
                  end) ;;
     if negb (force options) then
       console_error "Use --force to remove a locked worktree." ;;
       process_exit 1
     else ret tt
   else ret tt) ;;
  let isNonInteractive := negb (stdin_isTTY H) in
  (if negb (force options) && negb isNonInteractive then
     confirmed <- Tui.confirm H "Are you sure you want to remove this worktree?" false ;;
     if negb confirmed then
       console_log "Removal cancelled." ;;
       process_exit 0
     else ret tt
   else ret tt) ;;
  try_catch
    (withSpinner ("Removing worktree: " ++ targetPath)
       (execa H (worktree_remove_cmd (force options) targetPath) ;; ret tt)
       "Git worktree metadata removed.")
    (fun removeError =>
       if stderr_includes removeError "modified or untracked files"
          && negb (force options) then
         console_log "Worktree contains modified or untracked files." ;;
         forceRemove <- Tui.confirm H
           "Do you want to force remove this worktree (this may lose changes)?" false ;;
         if forceRemove then
           withSpinner ("Force removing worktree: " ++ targetPath)
             (execa H (worktree_remove_cmd true targetPath) ;; ret tt)
             "Git worktree metadata force removed."
         else
           console_log "Removal cancelled." ;;
           process_exit 0
       else throw removeError) ;;
  try_catch
    (stat H targetPath ;;
     rm H targetPath ;;
     console_log ("Deleted folder " ++ targetPath))
    (fun _ => ret tt) ;;
  console_log "Worktree removed successfully!" ;;
  match branch targetWorktree with
  | Some b =>
      if truthy b && negb isNonInteractive then deleteBranchStep b else ret tt
  | None => ret tt
  end.

(** [removeWorktreeHandler(pathOrBranch = "", options)] *)
Definition removeWorktreeHandler (pathOrBranch : string) (options : Options)
  : M unit :=
  try_catch
    (execa H inside_work_tree_cmd ;;
     targetWorktree <- resolveTarget pathOrBranch ;;
     removeResolved targetWorktree options)
    (fun error =>
       console_error ("Failed to remove worktree: " ++ error_message error) ;;
       process_exit 1).

End WithHost.
End Remove.

(* ===================================================================== *)
(** ** The [cd] command *)
(* ===================================================================== *)

Module Cd.

Record Options : Type := mkOptions { print : bool }.

(** [isEnoent(err)] *)
Definition isEnoent (err : JsError) : bool :=
  match err with
  | FsError code _ => String.eqb code "ENOENT"
  | _ => false
  end.

(** The minimal record made for a directory that carries a [.git]
    entry but is no listed worktree. *)
Definition adHocRecord (resolvedPath : string) : WorktreeInfo :=
  {| path := resolvedPath; head := ""; branch := None;
     detached := false; locked := false; prunable := false;
     isMain := false; bare := false;
     lockReason := None; pruneReason := None |}.

Definition stderr_write (s : string) : M unit := emit (EvWrite Err s).
Definition stdout_write (s : string) : M unit := emit (EvWrite Out s).

Section WithHost.
Variable H : Host.

(** [cdWorktreeHandler], the resolution of [targetWorktree]. *)
Definition resolveTarget (pathOrBranch : string) : M WorktreeInfo :=
  if negb (truthy pathOrBranch) then
    selected <- Tui.selectWorktree H "Select a worktree to cd into" false false ;;
    match selected with
    | SelOne wt => ret wt
    | _ =>
        stderr_write ("No worktree selected." ++ LF) ;;
        process_exit 0
    end
  else
    pathStats <- try_catch
                   (isDirectory <- stat H pathOrBranch ;; ret (Some isDirectory))
                   (fun err => if negb (isEnoent err) then throw err else ret None) ;;
    fromPath <- match pathStats with
                | Some true =>
                    found <- Git.findWorktreeByPath H pathOrBranch "." ;;
                    match found with
                    | Some wt => ret (Some wt)
                    | None =>
                        try_catch
                          (stat H (path_resolve H [pathOrBranch; ".git"]) ;;
                           ret (Some (adHocRecord (path_resolve H [pathOrBranch]))))
                          (fun _ =>
                             stderr_write ("The path " ++ quoted pathOrBranch
                                           ++ " exists but is not a git worktree." ++ LF) ;;
                             process_exit 1)
                    end
                | Some false =>
                    stderr_write ("The path " ++ quoted pathOrBranch
                                  ++ " is not a directory." ++ LF) ;;
                    process_exit 1
                | None => ret None
                end ;;
    match fromPath with
    | Some wt => ret wt
    | None =>
        byBranch <- Git.findWorktreeByBranch H pathOrBranch "." ;;
        match byBranch with
        | Some wt => ret wt
        | None =>
            stderr_write ("Could not find a worktree for branch " ++ quoted pathOrBranch
                          ++ "." ++ LF) ;;
            stderr_write ("Use 'wt list' to see existing worktrees, or run 'wt cd' without arguments to select interactively." ++ LF) ;;
            process_exit 1
        end
    end.

(** [cdWorktreeHandler(pathOrBranch = "", options = {})] *)
Definition cdWorktreeHandler (pathOrBranch : string) (options : Options) : M unit :=
  try_catch
    (gitCheck <- execa H (git_noreject ["rev-parse"; "--is-inside-work-tree"]) ;;
     (if match exitCode gitCheck with Some 0%Z => false | _ => true end
         || negb (String.eqb (trim (stdout gitCheck)) "true")
      then
        stderr_write ("Not inside a git work tree." ++ LF) ;;
        process_exit 1
      else ret tt) ;;
     targetWorktree <- resolveTarget pathOrBranch ;;
     let targetPath := path targetWorktree in
     try_catch
       (stat H targetPath ;; ret tt)
       (fun err =>
          if negb (isEnoent err) then throw err
          else
            stderr_write ("The worktree path " ++ quoted targetPath
                          ++ " no longer exists." ++ LF) ;;
            stderr_write ("The worktree may have been removed. Run 'git worktree prune' to clean up." ++ LF) ;;
            process_exit 1) ;;
     if print options then stdout_write (targetPath ++ LF)
     else
       stderr_write ("Entering " ++ targetPath ++ LF) ;;
       stderr_write ("(exit or ctrl+d to return)" ++ LF) ;;
       result <- execa H (mkCmd (shell_path H) [] (Some targetPath) false true) ;;
       match signal result with
       | Some sig =>
           process_exit (128 + match signal_number H sig with
                               | Some n => n
                               | None => 0
                               end)%Z
       | None =>
           match exitCode result with
           | Some code => if negb (Z.eqb code 0) then process_exit code else ret tt
           | None => ret tt
           end
       end)
    (fun error =>
       stderr_write ("Failed to resolve worktree: " ++ error_message error ++ LF) ;;
       process_exit 1).

End WithHost.
End Cd.

(* ===================================================================== *)
(** ** Concrete hosts used to run the handlers *)
(* ===================================================================== *)

Module Fixtures.

(** A host given by its subprocess answers and its file system; nobody
    answers prompts, [path.resolve] leaves absolute paths as they are. *)
Definition host_of (exec : Cmd -> ExecaOutcome)
           (st : string -> StatOutcome)
           (real : string -> option string) : Host :=
  {| execa_oracle := fun _ c => exec c;
     stat_oracle := fun _ p => st p;
     realpath_oracle := fun _ p => real p;
     rm_oracle := fun _ _ => None;
     select_oracle := fun _ _ _ _ => SelNone;
     confirm_oracle := fun _ _ _ => None;
     path_resolve := fun segs => String.concat "/" segs;
     url_hostname := fun _ => None;
     stdin_isTTY := false;
     shell_path := "/bin/sh";
     signal_number := fun _ => None |}.

Definition no_such_file : string -> StatOutcome :=
  fun _ => StatErr "ENOENT" "no such file or directory".

Definition not_a_repo : ExecaOutcome :=
  Completed (fail_result 128 "" "fatal: not a git repository").

(** Answers of [git] from a table of argument lists; every other
    command fails. *)
Fixpoint answer (table : list (list string * ExecaOutcome)) (c : Cmd) : ExecaOutcome :=
  match table with
  | [] => not_a_repo
  | (a, o) :: rest =>
      if list_eq_dec string_dec (args c) a then o else answer rest c
  end.

(** A listing whose first block has no [worktree] line. *)
Definition headless_listing : string :=
  "HEAD 1111111" ++ LF ++ LF ++
  "worktree /repo/wt" ++ LF ++ "HEAD 2222222" ++ LF ++ "branch refs/heads/feature".

Definition headless_host : Host :=
  host_of (answer [(args (Git.worktree_list_cmd "."), Completed (ok_result headless_listing))])
          no_such_file (fun _ => None).

(** The usual listing: a main worktree and one linked worktree. *)
Definition two_listing : string :=
  "worktree /repo/main" ++ LF ++ "HEAD 1111111" ++ LF ++ "branch refs/heads/main" ++ LF ++ LF ++
  "worktree /repo/wt" ++ LF ++ "HEAD 2222222" ++ LF ++ "branch refs/heads/feature" ++ LF.

Definition main_record : WorktreeInfo :=
  {| path := "/repo/main"; head := "1111111"; branch := Some "main";
     detached := false; locked := false; prunable := false;
     isMain := true; bare := false; lockReason := None; pruneReason := None |}.

Definition feature_record : WorktreeInfo :=
  {| path := "/repo/wt"; head := "2222222"; branch := Some "feature";
     detached := false; locked := false; prunable := false;
     isMain := false; bare := false; lockReason := None; pruneReason := None |}.

Definition two_host : Host :=
  host_of (answer [(args (Git.worktree_list_cmd "."), Completed (ok_result two_listing))])
          no_such_file (fun _ => None).

Definition broken_host : Host :=
  host_of (fun _ => not_a_repo) no_such_file (fun _ => None).


(** Worlds for the dirty-state guard, all in [/repo]. *)
Definition dirty_status : ExecaOutcome := Completed (ok_result " M src/index.ts").

Definition stash_world (create reset clean : ExecaOutcome) : Host :=
  host_of (answer [(args (Git.status_cmd "/repo"), dirty_status);
                   (args (Git.add_all_cmd "/repo"), Completed (ok_result ""));
                   (args (Git.stash_create_cmd "/repo" None), create);
                   (args (Git.reset_hard_cmd "/repo"), reset);
                   (args (Git.clean_cmd "/repo"), clean);
                   (args (Git.stash_apply_cmd "/repo" "0a1b2c3"), Completed (ok_result ""))])
          no_such_file (fun _ => None).

Definition succeeded : ExecaOutcome := Completed (ok_result "").

(** Everything works and the create step prints a hash. *)
Definition stash_ok_host : Host :=
  stash_world (Completed (ok_result "0a1b2c3")) succeeded succeeded.

(** The create step prints nothing although the tree is dirty. *)
Definition no_hash_host : Host := stash_world succeeded succeeded succeeded.


(** A clean tree: the status is empty. *)
Definition clean_tree_host : Host :=
  host_of (answer [(args (Git.status_cmd "/repo"), succeeded)])
          no_such_file (fun _ => None).


Definition no_upstream : ExecaOutcome :=
  Completed (fail_result 128 "" "fatal: no upstream configured for branch 'main'").

(** A fork: [main] tracks nothing, [master] tracks [upstream/master],
    and both [origin] and [upstream] are configured. *)
Definition fork_host : Host :=
  host_of (answer [(args (Git.upstream_query "." "main"), no_upstream);
                   (args (Git.upstream_query "." "master"), Completed (ok_result "upstream/master"));
                   (args (Git.remote_list_cmd "."), Completed (ok_result ("origin" ++ LF ++ "upstream")))])
          no_such_file (fun _ => None).

(** [main] tracks [upstream/main]. *)
Definition tracking_host : Host :=
  host_of (answer [(args (Git.upstream_query "." "main"), Completed (ok_result "upstream/main"));
                   (args (Git.remote_list_cmd "."), Completed (ok_result ("origin" ++ LF ++ "upstream")))])
          no_such_file (fun _ => None).

Definition selfhosted_url : string := "git@gitlab.my-company.com:team/repo.git".

(** A repository whose only remote is a self-hosted GitLab. *)
Definition selfhosted_host : Host :=
  host_of (answer [(args (Git.upstream_query "." "main"), Completed (ok_result "origin/main"));
                   (args (Git.get_url_cmd "." "origin"), Completed (ok_result selfhosted_url))])
          no_such_file (fun _ => None).

Definition github_host : Host :=
  host_of (answer [(args (Git.upstream_query "." "main"), Completed (ok_result "origin/main"));
                   (args (Git.get_url_cmd "." "origin"),
                    Completed (ok_result "git@github.com:stjuan627/worktree-cli.git"))])
          no_such_file (fun _ => None).


Definition inside : list string * ExecaOutcome :=
  (args Remove.inside_work_tree_cmd, Completed (ok_result "true")).

(** Two records at one real place: the first is listed under a
    symbolic link to the second. *)
Definition twin_listing : string :=
  "worktree /repo/main" ++ LF ++ "HEAD 1111111" ++ LF ++ "branch refs/heads/main" ++ LF ++ LF ++
  "worktree /link/wt" ++ LF ++ "HEAD 2222222" ++ LF ++ "branch refs/heads/old" ++ LF ++ LF ++
  "worktree /real/wt" ++ LF ++ "HEAD 3333333" ++ LF ++ "branch refs/heads/new" ++ LF.

Definition link_record : WorktreeInfo :=
  {| path := "/link/wt"; head := "2222222"; branch := Some "old";
     detached := false; locked := false; prunable := false;
     isMain := false; bare := false; lockReason := None; pruneReason := None |}.

Definition real_record : WorktreeInfo :=
  {| path := "/real/wt"; head := "3333333"; branch := Some "new";
     detached := false; locked := false; prunable := false;
     isMain := false; bare := false; lockReason := None; pruneReason := None |}.

Definition twin_real (p : string) : option string :=
  if String.eqb p "/link/wt" then Some "/real/wt" else Some p.

Definition twin_host : Host :=
  host_of (answer [inside;
                   (args (Git.worktree_list_cmd "."), Completed (ok_result twin_listing))])
          (fun _ => StatOk true) twin_real.

(** The usual two worktrees; [/repo/clone] is a directory with a
    [.git] entry that the listing does not name. *)
Definition clone_stat (p : string) : StatOutcome :=
  if String.eqb p "/repo/clone" || String.eqb p "/repo/clone/.git"
     || String.eqb p "/repo/main" || String.eqb p "/repo/wt"
  then StatOk true
  else StatErr "ENOENT" "no such file or directory".

Definition clone_host : Host :=
  host_of (answer [inside;
                   (args (Git.worktree_list_cmd "."), Completed (ok_result two_listing))])
          clone_stat (fun p => Some p).

End Fixtures.

(** How many records of a list are flagged as the main worktree. *)
Definition countMain (l : list WorktreeInfo) : nat :=
  List.length (filter isMain l).

(** The worktree query counts as failed when the child fails, when execa
    raises, or when the output is blank. *)
Definition query_failed (o : ExecaOutcome) : bool :=
  match o with
  | Completed r => failed r || negb (truthy (trim (stdout r)))
  | SpawnThrow _ => true
  end.

(** An event carries the answer the world gave at the history it was
    issued from. *)
Definition answered (H : Host) (h : History) (e : Event) : Prop :=
  match e with
  | EvExec c o => o = execa_oracle H h c
  | EvStat p o => o = stat_oracle H h p
  | EvRealpath p o => o = realpath_oracle H h p
  | EvRm p o => o = rm_oracle H h p
  | EvSelect msg multi choices o => o = select_oracle H h msg multi choices
  | EvConfirm msg initial o => o = confirm_oracle H h msg initial
  | EvWrite _ _ => True
  end.

(** [evs], issued one after the other from history [h], are the world's
    own answers. *)
Fixpoint faithful (H : Host) (h : History) (evs : list Event) : Prop :=
  match evs with
  | [] => True
  | e :: rest => answered H h e /\ faithful H (h ++ [e])%list rest
  end.

(** The two destructive steps of the dirty-state guard, recognised by
    the shape of the call: [git -C <dir> reset ...], [git -C <dir> clean ...]. *)
Definition destructive_cmd (c : Cmd) : bool :=
  String.eqb (file c) "git" &&
  match args c with
  | "-C" :: _ :: verb :: _ => String.eqb verb "reset" || String.eqb verb "clean"
  | _ => false
  end.

Definition destructive (e : Event) : bool :=
  match e with
  | EvExec c _ => destructive_cmd c
  | _ => false
  end.

(** A [git -C <dir> stash create ...] call that ended well and printed a
    hash. *)
Definition created_hash (e : Event) : bool :=
  match e with
  | EvExec c (Completed r) =>
      String.eqb (file c) "git" &&
      match args c with
      | "-C" :: _ :: "stash" :: "create" :: _ =>
          negb (failed r) && truthy (trim (stdout r))
      | _ => false
      end
  | _ => false
  end.

(** Every destructive event of [evs] comes after a [created_hash] event
    ([seen] tells whether one came before [evs]). *)
Fixpoint guarded (seen : bool) (evs : list Event) : bool :=
  match evs with
  | [] => true
  | e :: rest =>
      (negb (destructive e) || seen) && guarded (seen || created_hash e) rest
  end.

(** Any stash command that names a stash by its place in the stack
    ([stash@{n}]) or takes the top of the stack ([pop], or [apply] and
    [drop] without a name). *)
Definition positional_stash_cmd (c : Cmd) : bool :=
  String.eqb (file c) "git" &&
  match args c with
  | "-C" :: _ :: "stash" :: "pop" :: _ => true
  | "-C" :: _ :: "stash" :: verb :: [] =>
      String.eqb verb "apply" || String.eqb verb "drop"
  | "-C" :: _ :: "stash" :: _ :: name :: _ => startsWith name "stash@{"
  | _ => false
  end.

(** A [git -C <dir> stash drop ...] call. *)
Definition drop_cmd (c : Cmd) : bool :=
  String.eqb (file c) "git" &&
  match args c with
  | "-C" :: _ :: "stash" :: "drop" :: _ => true
  | _ => false
  end.

Definition is_exec (p : Cmd -> bool) (e : Event) : bool :=
  match e with
  | EvExec c _ => p c
  | _ => false
  end.

(** The runs of [stashChanges] by their events and result: a clean
    tree, a stash that was made, a create step without a hash, and a run
    that ended in the [catch] with its console message. *)
Inductive StashOutcome (cwd : string) (msg : option string)
  : list Event -> option string -> Prop :=
| stash_clean (r : ExecaResult) :
    failed r = false ->
    truthy (trim (stdout r)) = false ->
    StashOutcome cwd msg [EvExec (Git.status_cmd cwd) (Completed r)] None
| stash_made (r1 r2 r3 r4 r5 : ExecaResult) :
    failed r1 = false -> failed r2 = false -> failed r3 = false ->
    failed r4 = false -> failed r5 = false ->
    truthy (trim (stdout r1)) = true ->
    truthy (trim (stdout r3)) = true ->
    StashOutcome cwd msg
      [EvExec (Git.status_cmd cwd) (Completed r1);
       EvExec (Git.add_all_cmd cwd) (Completed r2);
       EvExec (Git.stash_create_cmd cwd msg) (Completed r3);
       EvExec (Git.reset_hard_cmd cwd) (Completed r4);
       EvExec (Git.clean_cmd cwd) (Completed r5)]
      (Some (trim (stdout r3)))
| stash_no_hash (r1 r2 r3 : ExecaResult) :
    failed r1 = false -> failed r2 = false -> failed r3 = false ->
    truthy (trim (stdout r1)) = true ->
    truthy (trim (stdout r3)) = false ->
    StashOutcome cwd msg
      [EvExec (Git.status_cmd cwd) (Completed r1);
       EvExec (Git.add_all_cmd cwd) (Completed r2);
       EvExec (Git.stash_create_cmd cwd msg) (Completed r3)]
      None
| stash_error (pre : list Event) (c : Cmd) (o : ExecaOutcome) (text : string) :
    match o with Completed r => failed r = true | SpawnThrow _ => True end ->
    StashOutcome cwd msg
      (pre ++ [EvExec c o; EvWrite Err ("Failed to stash changes: " ++ text)])%list
      None.

(** The remote chosen from the output of [git remote]: tiers (b), (c)
    and (d) of [getUpstreamRemote] in one expression. *)
Definition pickRemote (remotesOutput : string) : string :=
  let remotes := filter truthy (map trim (split remotesOutput LF)) in
  match remotes with
  | [] => "origin"
  | first :: _ =>
      if existsb (String.eqb "origin") remotes then "origin"
      else if existsb (String.eqb "upstream") remotes then "upstream"
      else first
  end.

Definition option_eqb {A} (eqb : A -> A -> bool) (a b : option A) : bool :=
  match a, b with
  | None, None => true
  | Some x, Some y => eqb x y
  | _, _ => false
  end.

Definition list_string_eqb (a b : list string) : bool :=
  if list_eq_dec string_dec a b then true else false.

Definition Cmd_eqb (a b : Cmd) : bool :=
  String.eqb (file a) (file b)
  && list_string_eqb (args a) (args b)
  && option_eqb String.eqb (opt_cwd a) (opt_cwd b)
  && Bool.eqb (opt_reject a) (opt_reject b)
  && Bool.eqb (opt_stdio_inherit a) (opt_stdio_inherit b).

(** Events that leave the repository and the disk as they are: the two
    queries the resolvers run ([git rev-parse --is-inside-work-tree] and
    [git -C . worktree list --porcelain]), [stat], [realpath], prompts and
    console writes.  Any other subprocess and any [rm] is excluded. *)
Definition observes_only (e : Event) : bool :=
  match e with
  | EvExec c _ =>
      Cmd_eqb c Remove.inside_work_tree_cmd || Cmd_eqb c (Git.worktree_list_cmd ".")
  | EvRm _ _ => false
  | _ => true
  end.

(** A computation all of whose events satisfy [P], in every world and
    from every history. *)
Definition emits_only (P : Event -> bool) {A} (m : M A) : Prop :=
  forall h, exists evs, snd (m h) = (h ++ evs)%list /\ forallb P evs = true.

(** The path a record or a token is compared by: its real path, or its
    resolved path when [realpath] throws.  [real] is the file system's
    answer. *)
Definition effectivePath (H : Host) (real : string -> option string) (p : string) : string :=
  match real p with
  | Some q => q
  | None => path_resolve H [p]
  end.

Definition effectiveTarget (H : Host) (real : string -> option string) (token : string) : string :=
  match real (path_resolve H [token]) with
  | Some q => q
  | None => path_resolve H [token]
  end.

(* ===================================================================== *)
(** ** [utils/git.js]: the remaining queries *)
(* ===================================================================== *)

Module GitQueries.

(** [s.endsWith(suffix)] *)
Definition endsWith (s suffix : string) : bool :=
  startsWith (JsString.rev s) (JsString.rev suffix).

(** [s.slice(0, -n)] *)
Definition dropEnd (n : nat) (s : string) : string :=
  JsString.rev (drop n (JsString.rev s)).

(** What follows the last slash of [s]; [None] when [s] has no slash. *)
Fixpoint afterLastSlash (s : string) : option string :=
  match s with
  | EmptyString => None
  | String c s' =>
      match afterLastSlash s' with
      | Some r => Some r
      | None => if Ascii.eqb c "/" then Some s' else None
      end
  end.

(** The capture of [/\/([^\/]+?)(\.git)?$/]: only the last slash can
    start a match, since nothing after it may be a slash; the lazy group
    stops as soon as the rest is [.git] or empty, and needs one code unit
    at least. *)
Definition matchRepoName (remoteUrl : string) : option string :=
  match afterLastSlash remoteUrl with
  | None => None
  | Some rest =>
      if negb (truthy rest) then None
      else if endsWith rest ".git" && Nat.ltb 4 (String.length rest)
           then Some (dropEnd 4 rest)
           else Some rest
  end.

Definition current_branch_cmd (cwd : string) : Cmd :=
  git ["-C"; cwd; "rev-parse"; "--abbrev-ref"; "HEAD"].
Definition git_dir_cmd (cwd : string) : Cmd := git ["-C"; cwd; "rev-parse"; "--git-dir"].
Definition bare_config_cmd (mainRepoDir : string) : Cmd :=
  mkCmd "git" ["config"; "--get"; "--bool"; "core.bare"] (Some mainRepoDir) true false.
Definition toplevel_cmd (cwd : string) : Cmd :=
  git ["-C"; cwd; "rev-parse"; "--show-toplevel"].
Definition branch_list_cmd (cwd : string) : Cmd :=
  git ["-C"; cwd; "branch"; "--format=%(refname:short)"].

(** [error.exitCode === 1 && error.stdout === '' && error.stderr === ''] *)
Definition config_key_missing (error : JsError) : bool :=
  match error with
  | ExecaError r =>
      match exitCode r with
      | Some code => Z.eqb code 1
      | None => false
      end
      && negb (truthy (stdout r)) && negb (truthy (stderr r))
  | _ => false
  end.

Section WithHost.
Variable H : Host.

(** [getCurrentBranch(cwd = ".")]; the error object that follows the
    message on the console is given by its message. *)
Definition getCurrentBranch (cwd : string) : M (option string) :=
  try_catch
    (r <- execa H (current_branch_cmd cwd) ;;
     ret (Some (trim (stdout r))))
    (fun error =>
       console_error ("Could not determine current branch. " ++ error_message error) ;;
       ret None).

(** [isWorktreeClean(worktreePath = ".")] *)
Definition isWorktreeClean (worktreePath : string) : M bool :=
  try_catch
    (r <- execa H (Git.status_cmd worktreePath) ;;
     if String.eqb (trim (stdout r)) "" then ret true else ret false)
    (fun error =>
       console_error ("Failed to check git status for " ++ worktreePath ++ ": "
                      ++ stderr_or_message error) ;;
       ret false).

(** [isMainRepoBare(cwd = '.')] *)
Definition isMainRepoBare (cwd : string) : M bool :=
  try_catch
    (g <- execa H (git_dir_cmd cwd) ;;
     let gitDir := stdout g in
     let mainRepoDir := if endsWith gitDir "/.git" then dropEnd 5 gitDir else gitDir in
     b <- execa H (bare_config_cmd mainRepoDir) ;;
     ret (String.eqb (trim (stdout b)) "true"))
    (fun error =>
       if config_key_missing error then ret false
       else
         emit (EvWrite Err ("Could not reliably determine if the main repository is bare. Proceeding cautiously. Error: "
                            ++ stderr_or_message error)) ;;
         ret false).

(** [getRepoRoot(cwd = ".")] *)
Definition getRepoRoot (cwd : string) : M (option string) :=
  try_catch
    (r <- execa H (toplevel_cmd cwd) ;;
     ret (Some (trim (stdout r))))
    (fun error =>
       console_error ("Could not determine repository root. " ++ error_message error) ;;
       ret None).

(** [getRepoName(cwd = ".")].  [basename] is [path.basename]; the [try]
    block returns early with the name taken from the remote URL
    ([Some]) or falls through to the directory name. *)
Definition getRepoName (basename : string -> string) (cwd : string) : M string :=
  early <- try_catch
             (remote <- Git.getUpstreamRemote H cwd ;;
              r <- execa H (Git.get_url_cmd cwd remote) ;;
              let remoteUrl := trim (stdout r) in
              match matchRepoName remoteUrl with
              | Some name => if truthy name then ret (Some name) else ret None
              | None => ret None
              end)
             (fun _ => ret None) ;;
  match early with
  | Some name => ret name
  | None =>
      repoRoot <- getRepoRoot cwd ;;
      match repoRoot with
      | Some root => if truthy root then ret (basename root) else ret "repo"
      | None => ret "repo"
      end
  end.

(** [getBranches(cwd = ".")] *)
Definition getBranches (cwd : string) : M (list string) :=
  try_catch
    (r <- execa H (branch_list_cmd cwd) ;;
     if negb (truthy (trim (stdout r))) then ret []
     else ret (filter truthy (map trim (split (stdout r) LF))))
    (fun _ => ret []).

End WithHost.

End GitQueries.

(* ===================================================================== *)
(** ** [utils/tui.js]: confirmation of commands *)
(* ===================================================================== *)

Module Prompts.
Section WithHost.
Variable H : Host.

Fixpoint showCommands (commands : list string) : M unit :=
  match commands with
  | [] => ret tt
  | cmd :: rest => console_log ("  $ " ++ cmd) ;; showCommands rest
  end.

(** [confirmCommands(commands, { title, trust })] *)
Definition confirmCommands (commands : list string) (title : option string)
           (trust : bool) : M bool :=
  if trust then ret true
  else
    console_log (match title with
                 | Some t => t
                 | None => "The following commands will be executed:"
                 end) ;;
    console_log "" ;;
    showCommands commands ;;
    console_log "" ;;
    Tui.confirm H "Execute these commands?" false.

End WithHost.
End Prompts.

(* ===================================================================== *)
(** ** [commands/completion]: dynamic completion *)
(* ===================================================================== *)

Module Completion.

Definition SUBCOMMANDS : list string :=
  ["new"; "setup"; "list"; "ls"; "remove"; "rm"; "merge"; "purge"; "pr";
   "open"; "extract"; "config"; "completion"].

Definition CONFIG_SUBCOMMANDS : list string := ["set"; "get"; "clear"; "path"].

Definition WORKTREE_BRANCH_COMMANDS : list string := ["merge"; "remove"; "rm"; "open"].
Definition GIT_BRANCH_COMMANDS : list string := ["new"; "setup"; "extract"].

(** [set.has(x)] *)
Definition has (set : list string) (x : string) : bool := existsb (String.eqb x) set.

(** [if (matches.length > 0) console.log(matches.join("\n"))] *)
Definition printMatches (matches : list string) : M unit :=
  if Nat.ltb 0 (List.length matches) then console_log (String.concat LF matches)
  else ret tt.

(** [worktrees.filter(wt => !wt.isMain && wt.branch).map(wt => wt.branch)] *)
Definition worktreeBranches (worktrees : list WorktreeInfo) : list string :=
  flat_map (fun wt =>
              match branch wt with
              | Some b => if negb (isMain wt) && truthy b then [b] else []
              | None => []
              end) worktrees.

Section WithHost.
Variable H : Host.

(** [getCompletions(words)] *)
Definition getCompletions (words : list string) : M unit :=
  try_catch
    (let current := last words "" in
     let completed := removelast words in
     match completed with
     | [] => printMatches (filter (fun cmd => startsWith cmd current) SUBCOMMANDS)
     | command :: _ =>
         if has WORKTREE_BRANCH_COMMANDS command then
           worktrees <- Git.getWorktrees H "." ;;
           let branches := worktreeBranches worktrees in
           printMatches (filter (fun b => startsWith b current) branches)
         else if has GIT_BRANCH_COMMANDS command then
           branches <- GitQueries.getBranches H "." ;;
           printMatches (filter (fun b => startsWith b current) branches)
         else if String.eqb command "config" then
           if Nat.eqb (List.length completed) 1 then
             printMatches (filter (fun cmd => startsWith cmd current) CONFIG_SUBCOMMANDS)
           else ret tt
         else ret tt
     end)
    (fun _ => ret tt).

End WithHost.
End Completion.

(* ===================================================================== *)
(** ** [commands/open.js] *)
(* ===================================================================== *)

Module Open.

(** [options.editor] is absent unless [-e] was given.  The configuration
    store ([config.js]) is not among the sources: its two functions are
    parameters, [getDefaultEditor()] as the name it returns and
    [shouldSkipEditor] as a predicate on editor names. *)
Record Options : Type := mkOptions { editor : option string }.

Record EditorConfig : Type := mkEditorConfig {
  getDefaultEditor : string;
  shouldSkipEditor : string -> bool
}.

Definition editor_cmd (editorCommand targetPath : string) : Cmd :=
  mkCmd editorCommand [targetPath] None true true.

(** [head.substring(0, 7)] *)
Fixpoint take (n : nat) (s : string) : string :=
  match n, s with
  | O, _ => EmptyString
  | S _, EmptyString => EmptyString
  | S k, String c s' => String c (take k s')
  end.

Section WithHost.
Variable H : Host.
Variable config : EditorConfig.

(** [openWorktreeHandler], the resolution of [targetWorktree]. *)
Definition resolveTarget (pathOrBranch : string) : M WorktreeInfo :=
  if negb (truthy pathOrBranch) then
    selected <- Tui.selectWorktree H "Select a worktree to open" false false ;;
    match selected with
    | SelOne wt => ret wt
    | _ =>
        Cd.stderr_write ("No worktree selected." ++ LF) ;;
        process_exit 0
    end
  else
    pathStats <- try_catch
                   (isDirectory <- stat H pathOrBranch ;; ret (Some isDirectory))
                   (fun err => if negb (Cd.isEnoent err) then throw err else ret None) ;;
    fromPath <- match pathStats with
                | Some true =>
                    found <- Git.findWorktreeByPath H pathOrBranch "." ;;
                    match found with
                    | Some wt => ret (Some wt)
                    | None =>
                        try_catch
                          (stat H (path_resolve H [pathOrBranch; ".git"]) ;;
                           ret (Some (Cd.adHocRecord (path_resolve H [pathOrBranch]))))
                          (fun _ =>
                             Cd.stderr_write ("The path " ++ quoted pathOrBranch
                                              ++ " exists but is not a git worktree." ++ LF) ;;
                             process_exit 1)
                    end
                | Some false =>
                    Cd.stderr_write ("The path " ++ quoted pathOrBranch
                                     ++ " is not a directory." ++ LF) ;;
                    process_exit 1
                | None => ret None
                end ;;
    match fromPath with
    | Some wt => ret wt
    | None =>
        byBranch <- Git.findWorktreeByBranch H pathOrBranch "." ;;
        match byBranch with
        | Some wt => ret wt
        | None =>
            Cd.stderr_write ("Could not find a worktree for branch " ++ quoted pathOrBranch
                             ++ "." ++ LF) ;;
            Cd.stderr_write ("Use 'wt list' to see existing worktrees, or run 'wt open' without arguments to select interactively." ++ LF) ;;
            process_exit 1
        end
    end.

(** The lines written before the editor starts. *)
Definition announce (targetWorktree : WorktreeInfo) (editorCommand : string) : M unit :=
  let targetPath := path targetWorktree in
  (match branch targetWorktree with
   | Some b =>
       if truthy b then console_log ("Opening worktree for branch " ++ quoted b ++ "...")
       else if detached targetWorktree then
         console_log ("Opening detached worktree at " ++ take 7 (head targetWorktree) ++ "...")
       else console_log ("Opening worktree at " ++ targetPath ++ "...")
   | None =>
       if detached targetWorktree then
         console_log ("Opening detached worktree at " ++ take 7 (head targetWorktree) ++ "...")
       else console_log ("Opening worktree at " ++ targetPath ++ "...")
   end) ;;
  (if locked targetWorktree then
     console_log ("Note: This worktree is locked" ++
                  match lockReason targetWorktree with
                  | Some r => if truthy r then ": " ++ r else ""
                  | None => ""
                  end)
   else ret tt) ;;
  (if prunable targetWorktree then
     console_log ("Warning: This worktree is marked as prunable" ++
                  match pruneReason targetWorktree with
                  | Some r => if truthy r then ": " ++ r else ""
                  | None => ""
                  end)
   else ret tt) ;;
  console_log ("Opening " ++ targetPath ++ " in " ++ editorCommand ++ "...").

(** [openWorktreeHandler(pathOrBranch = "", options)] *)
Definition openWorktreeHandler (pathOrBranch : string) (options : Options) : M unit :=
  try_catch
    (gitCheck <- execa H (git_noreject ["rev-parse"; "--is-inside-work-tree"]) ;;
     (if match exitCode gitCheck with Some 0%Z => false | _ => true end
      then
        Cd.stderr_write ("Not inside a git repository." ++ LF) ;;
        process_exit 1
      else ret tt) ;;
     targetWorktree <- resolveTarget pathOrBranch ;;
     let targetPath := path targetWorktree in
     try_catch
       (stat H targetPath ;; ret tt)
       (fun err =>
          if negb (Cd.isEnoent err) then throw err
          else
            Cd.stderr_write ("The worktree path " ++ quoted targetPath
                             ++ " no longer exists." ++ LF) ;;
            Cd.stderr_write ("The worktree may have been removed. Run 'git worktree prune' to clean up." ++ LF) ;;
            process_exit 1) ;;
     let configuredEditor := getDefaultEditor config in
     let editorCommand :=
       match editor options with
       | Some e => if truthy e then e else configuredEditor
       | None => configuredEditor
       end in
     if shouldSkipEditor config editorCommand then
       Cd.stdout_write (targetPath ++ LF)
     else
       announce targetWorktree editorCommand ;;
       try_catch
         (execa H (editor_cmd editorCommand targetPath) ;;
          console_log ("Successfully opened worktree in " ++ editorCommand ++ "."))
         (fun _ =>
            Cd.stderr_write ("Failed to open editor " ++ quoted editorCommand
                             ++ ". Please ensure it's installed and in your PATH." ++ LF) ;;
            process_exit 1))
    (fun error =>
       Cd.stderr_write ("Failed to open worktree: " ++ error_message error ++ LF) ;;
       process_exit 1).

End WithHost.
End Open.

(* ===================================================================== *)
(** ** [commands/init]: the shell wrapper *)
(* ===================================================================== *)

Module Init.

(** The wrapper functions [wt init] prints, line by line. *)
Definition BASH_ZSH_FUNCTION : string :=
  String.concat LF
    ["wt() {";
     "  if [[ " ++ DQ ++ "$1" ++ DQ ++ " == " ++ DQ ++ "cd" ++ DQ ++ " ]]; then";
     "    shift";
     "    local dir";
     "    dir=$(command wt cd --print " ++ DQ ++ "$@" ++ DQ ++ ")";
     "    if [[ $? -eq 0 && -n " ++ DQ ++ "$dir" ++ DQ ++ " ]]; then";
     "      builtin cd " ++ DQ ++ "$dir" ++ DQ;
     "    else";
     "      command wt cd " ++ DQ ++ "$@" ++ DQ;
     "    fi";
     "  else";
     "    command wt " ++ DQ ++ "$@" ++ DQ;
     "  fi";
     "}"].

Definition FISH_FUNCTION : string :=
  String.concat LF
    ["function wt";
     "  if test (count $argv) -gt 0 -a " ++ DQ ++ "$argv[1]" ++ DQ ++ " = " ++ DQ ++ "cd" ++ DQ;
     "    set -l dir (command wt cd --print $argv[2..-1])";
     "    if test $status -eq 0 -a -n " ++ DQ ++ "$dir" ++ DQ;
     "      builtin cd $dir";
     "    else";
     "      command wt cd $argv[2..-1]";
     "    end";
     "  else";
     "    command wt $argv";
     "  end";
     "end"].

Inductive Shell : Type := zsh | bash | fish.

Definition shell_name (sh : Shell) : string :=
  match sh with zsh => "zsh" | bash => "bash" | fish => "fish" end.

Definition SUPPORTED_SHELLS : list Shell := [zsh; bash; fish].

(** [SUPPORTED_SHELLS.includes(name)], with the shell it names. *)
Definition supported (name : string) : option Shell :=
  find (fun sh => String.eqb (shell_name sh) name) SUPPORTED_SHELLS.

Record Rc : Type := mkRc { rc_file : string; rc_line : string }.

Definition SHELL_RC (sh : Shell) : Rc :=
  match sh with
  | zsh => mkRc "~/.zshrc" ("eval " ++ DQ ++ "$(wt init zsh)" ++ DQ)
  | bash => mkRc "~/.bashrc" ("eval " ++ DQ ++ "$(wt init bash)" ++ DQ)
  | fish => mkRc "~/.config/fish/config.fish" "wt init fish | source"
  end.

Definition SHELL_SOURCE (sh : Shell) : string :=
  match sh with
  | zsh => "source ~/.zshrc"
  | bash => "source ~/.bashrc"
  | fish => "source ~/.config/fish/config.fish"
  end.

(** [getShellFunction(shell)] *)
Definition getShellFunction (sh : Shell) : string :=
  match sh with
  | fish => FISH_FUNCTION
  | _ => BASH_ZSH_FUNCTION
  end.

(** The process environment of [wt init]: [$SHELL], the home directory,
    [path.resolve] of two segments, and the content [readFileSync] gives
    for a path ([None] when it throws). *)
Record Env : Type := mkEnv {
  env_SHELL : option string;
  homedir : string;
  resolve2 : string -> string -> string;
  readFileSync : string -> option string
}.

Section WithEnv.
Variable E : Env.

(** [detectShell()]: the last piece of [$SHELL] after its slashes, in
    lower case. *)
Definition detectShell : option Shell :=
  let shellEnv := match env_SHELL E with
                  | Some s => if truthy s then s else ""
                  | None => ""
                  end in
  let basename := toLowerCase (last (split shellEnv "/") "") in
  supported basename.

(** [expandTilde(path)] *)
Definition expandTilde (p : string) : string :=
  if startsWith p "~/" then resolve2 E (homedir E) (drop 2 p) else p.

(** [isAlreadyInstalled(rc)] *)
Definition isAlreadyInstalled (rc : Rc) : bool :=
  match readFileSync E (expandTilde (rc_file rc)) with
  | Some content => includes content (rc_line rc)
  | None => false
  end.

(** The guidance written after the function when no shell was named. *)
Definition guidance (resolved : Shell) : M unit :=
  let rc := SHELL_RC resolved in
  if isAlreadyInstalled rc then
    Cd.stderr_write ("Already installed in " ++ rc_file rc ++ LF)
  else
    Cd.stderr_write ("# Add to " ++ rc_file rc ++ ":" ++ LF) ;;
    Cd.stderr_write ("#   " ++ rc_line rc ++ LF) ;;
    Cd.stderr_write LF ;;
    Cd.stderr_write ("# Run this to add it automatically:" ++ LF) ;;
    Cd.stderr_write ("  " ++ ("echo '" ++ rc_line rc ++ "' >> " ++ rc_file rc) ++ LF) ;;
    Cd.stderr_write LF ;;
    Cd.stderr_write ("# Then reload your shell:" ++ LF) ;;
    Cd.stderr_write ("  " ++ SHELL_SOURCE resolved ++ LF).

(** [initHandler(shell?)] *)
Definition initHandler (shell : option string) : M unit :=
  let given := match shell with
               | Some s => truthy s
               | None => false
               end in
  resolved <-
    (if given then
       let s := match shell with Some s => s | None => "" end in
       let normalized := toLowerCase s in
       match supported normalized with
       | None =>
           Cd.stderr_write ("Unsupported shell: " ++ quoted s ++ ". Supported shells: "
                            ++ String.concat ", " (map shell_name SUPPORTED_SHELLS) ++ LF) ;;
           process_exit 1
       | Some sh => ret sh
       end
     else
       match detectShell with
       | None =>
           Cd.stderr_write ("Could not detect shell from $SHELL." ++ LF) ;;
           Cd.stderr_write ("Usage: wt init <"
                            ++ String.concat "|" (map shell_name SUPPORTED_SHELLS) ++ ">" ++ LF) ;;
           process_exit 1
       | Some detected =>
           Cd.stderr_write ("Detected shell: " ++ shell_name detected ++ LF) ;;
           ret detected
       end) ;;
  Cd.stdout_write (getShellFunction resolved ++ LF) ;;
  if given then ret tt else guidance resolved.

End WithEnv.
End Init.

(* ===================================================================== *)
(** ** Predicates used by the further properties *)
(* ===================================================================== *)

(** [c] is not the code unit [x]. *)
Definition not_char (x : ascii) (c : ascii) : bool := negb (Ascii.eqb c x).

(** A name as a list function hands it out: not empty, without a line
    feed, and equal to its own [trim]. *)
Definition clean_name (s : string) : Prop :=
  truthy s = true /\ JsString.all (not_char (ascii_of_nat 10)) s = true /\ trim s = s.

(** The texts written to standard output, in order. *)
Fixpoint stdout_texts (evs : list Event) : list string :=
  match evs with
  | [] => []
  | EvWrite Out text :: rest => text :: stdout_texts rest
  | _ :: rest => stdout_texts rest
  end.

(** No prompt of any kind. *)
Definition no_prompt (e : Event) : bool :=
  match e with
  | EvSelect _ _ _ _ => false
  | EvConfirm _ _ _ => false
  | _ => true
  end.

(** No child process that takes over the terminal (an editor or a
    subshell: the calls with [stdio: "inherit"]). *)
Definition no_terminal_child (e : Event) : bool :=
  match e with
  | EvExec c _ => negb (opt_stdio_inherit c)
  | _ => true
  end.

(** Neither a terminal child nor a write to standard output. *)
Definition quiet_lookup (e : Event) : bool :=
  match e with
  | EvExec c _ => negb (opt_stdio_inherit c)
  | EvWrite Out _ => false
  | _ => true
  end.

(** A picker is shown some choices, and no main worktree when
    [excludeMain] is set. *)
Definition fair_choices (excludeMain : bool) (e : Event) : bool :=
  match e with
  | EvSelect _ _ choices _ =>
      Nat.ltb 0 (List.length choices)
      && (negb excludeMain || forallb (fun wt => negb (isMain wt)) choices)
  | _ => true
  end.

(** Only console writes. *)
Definition only_writes (e : Event) : bool :=
  match e with
  | EvWrite _ _ => true
  | _ => false
  end.

(** The path of a [git worktree remove [--force] <path>] that ended
    well: the last argument of such a call. *)
Definition removed_path (e : Event) : option string :=
  match e with
  | EvExec c (Completed r) =>
      if failed r then None
      else match List.rev (args c) with
           | p :: _ =>
               if Cmd_eqb c (Remove.worktree_remove_cmd false p)
                  || Cmd_eqb c (Remove.worktree_remove_cmd true p)
               then Some p else None
           | [] => None
           end
  | _ => None
  end.

(** Every [rm] of [evs] is of a path whose removal from the
    repository ended well before it ([removed] holds the paths removed
    before [evs]). *)
Fixpoint rm_guarded (removed : list string) (evs : list Event) : bool :=
  match evs with
  | [] => true
  | e :: rest =>
      match e with
      | EvRm p _ => existsb (String.eqb p) removed
      | _ => true
      end
      && rm_guarded (match removed_path e with
                     | Some p => p :: removed
                     | None => removed
                     end) rest
  end.

Definition no_rm (e : Event) : bool :=
  match e with
  | EvRm _ _ => false
  | _ => true
  end.

(** [m] never exits the process, and what it returns satisfies [Q]
    (it may still raise). *)
Definition outcome {A} (m : M A) (Q : A -> Prop) : Prop :=
  forall h, match fst (m h) with
            | Ret a => Q a
            | Throw _ => True
            | Exit _ => False
            end.

(** [m] returns in every world, with a value that satisfies [Q]. *)
Definition total {A} (m : M A) (Q : A -> Prop) : Prop :=
  forall h, exists a h', m h = (Ret a, h') /\ Q a.

(* ===================================================================== *)
(** ** More concrete hosts *)
(* ===================================================================== *)

Module Worlds.

(** An ordinary repository whose [.git] directory is [/repo/.git]. *)
Definition plain_repo_host : Host :=
  Fixtures.host_of
    (Fixtures.answer
       [(args (GitQueries.git_dir_cmd "."), Completed (ok_result "/repo/.git"));
        (args (GitQueries.bare_config_cmd "/repo"), Completed (ok_result "false"))])
    Fixtures.no_such_file (fun _ => None).

(** The usual two worktrees with the second one locked. *)
Definition locked_listing : string :=
  "worktree /repo/main" ++ LF ++ "HEAD 1111111" ++ LF ++ "branch refs/heads/main" ++ LF ++ LF ++
  "worktree /repo/wt" ++ LF ++ "HEAD 2222222" ++ LF ++ "branch refs/heads/feature" ++ LF
  ++ "locked in use" ++ LF.

Definition locked_record : WorktreeInfo :=
  {| path := "/repo/wt"; head := "2222222"; branch := Some "feature";
     detached := false; locked := true; prunable := false;
     isMain := false; bare := false; lockReason := Some "in use"; pruneReason := None |}.

Definition locked_host : Host :=
  Fixtures.host_of
    (Fixtures.answer
       [Fixtures.inside;
        (args (Git.worktree_list_cmd "."), Completed (ok_result locked_listing))])
    Fixtures.clone_stat (fun p => Some p).

(** The usual two worktrees, a terminal attached, and a user who gives
    no answer to any prompt. *)
Definition terminal_host : Host :=
  {| execa_oracle := execa_oracle Fixtures.clone_host;
     stat_oracle := stat_oracle Fixtures.clone_host;
     realpath_oracle := realpath_oracle Fixtures.clone_host;
     rm_oracle := rm_oracle Fixtures.clone_host;
     select_oracle := select_oracle Fixtures.clone_host;
     confirm_oracle := fun _ _ _ => None;
     path_resolve := path_resolve Fixtures.clone_host;
     url_hostname := url_hostname Fixtures.clone_host;
     stdin_isTTY := true;
     shell_path := "/bin/sh";
     signal_number := fun _ => None |}.

(** The usual two worktrees; every [git worktree remove] succeeds. *)
Definition removing_host : Host :=
  Fixtures.host_of
    (Fixtures.answer
       [Fixtures.inside;
        (args (Git.worktree_list_cmd "."), Completed (ok_result Fixtures.two_listing));
        (args (Remove.worktree_remove_cmd true "/repo/wt"), Completed (ok_result ""));
        (args (Remove.worktree_remove_cmd false "/repo/wt"), Completed (ok_result ""))])
    Fixtures.clone_stat (fun p => Some p).

End Worlds.

(** No [rm] other than of the path [p]. *)
Definition rm_of (p : string) (e : Event) : bool :=
  match e with
  | EvRm q _ => String.eqb q p
  | _ => true
  end.

(** In every world, each [rm] that [m] issues comes after the removal of
    that path from the repository ended well. *)
Definition rm_in_order {A} (m : M A) : Prop :=
  forall h, exists evs, snd (m h) = (h ++ evs)%list /\ rm_guarded [] evs = true.

(** [m] issues no [rm], and when it returns it has removed [p] from the
    repository. *)
Definition removes_then_returns {A} (p : string) (m : M A) : Prop :=
  forall h, exists res evs,
    m h = (res, (h ++ evs)%list) /\
    forallb no_rm evs = true /\
    (forall a, res = Ret a -> exists e, In e evs /\ removed_path e = Some p).

(** In every world [m] writes to standard output exactly when it
    returns, and then one line: a path that [stat] found, followed by a
    line feed. *)
Definition prints_path_on_return {A} (m : M A) : Prop :=
  forall h, exists res evs,
    m h = (res, (h ++ evs)%list) /\
    match res with
    | Ret _ => exists p d, stdout_texts evs = [(p ++ LF)%string]
                           /\ In (EvStat p (StatOk d)) evs
    | _ => stdout_texts evs = []
    end.

(** In every world, a child that takes over the terminal is the editor
    [ed] started on a path that [stat] found during the run. *)
Definition launches_verified {A} (ed : string) (m : M A) : Prop :=
  forall h, exists res evs,
    m h = (res, (h ++ evs)%list) /\
    forall c o,
      In (EvExec c o) evs -> opt_stdio_inherit c = true ->
      exists p d, c = Open.editor_cmd ed p /\ In (EvStat p (StatOk d)) evs.

Module Configs.

(** An editor configuration whose default is the skip value [none]. *)
Definition skipping : Open.EditorConfig :=
  Open.mkEditorConfig "none" (fun e => String.eqb e "none").

(** An editor configuration with [code] as default. *)
Definition code : Open.EditorConfig :=
  Open.mkEditorConfig "code" (fun e => String.eqb e "none").

End Configs.

(** The subshell [wt cd] starts in the target directory. *)
Definition subshell_cmd (H : Host) (targetPath : string) : Cmd :=
  mkCmd (shell_path H) [] (Some targetPath) false true.

Module Envs.

(** A login shell given with capitals, no home files. *)
Definition capital_zsh : Init.Env :=
  Init.mkEnv (Some "/usr/local/bin/ZSH") "/home/me"
             (fun a b => (a ++ "/" ++ b)%string) (fun _ => None).

End Envs.




(** A record whose branch name, when it has one, holds no line feed. *)
Definition branch_on_one_line (wt : WorktreeInfo) : Prop :=
  forall b, branch wt = Some b -> JsString.all (not_char (ascii_of_nat 10)) b = true.


(* ===================================================================== *)
(** * Properties *)
(* ===================================================================== *)

Example trim_ex : trim (" a b " ++ LF) = "a b".
Proof. reflexivity. Qed.

Example split_ex1 : split ("a" ++ LF ++ LF ++ "b" ++ LF ++ LF) (LF ++ LF) = ["a"; "b"; ""].
Proof. reflexivity. Qed.

Example split_ex2 : split "" LF = [""].
Proof. reflexivity. Qed.

Example split_ex3 : split ("a" ++ LF ++ LF ++ LF ++ "b") (LF ++ LF) = ["a"; LF ++ "b"].
Proof. reflexivity. Qed.

Example replace_ex : replace "refs/heads/feature/refs/heads/x" "refs/heads/" "" = "feature/refs/heads/x".
Proof. reflexivity. Qed.

Example parse_two_listing :
  Git.parseWorktreeList Fixtures.two_listing = [Fixtures.main_record; Fixtures.feature_record].
Proof. reflexivity. Qed.

Example getWorktrees_two_host :
  run (Git.getWorktrees Fixtures.two_host ".") [] = Ret [Fixtures.main_record; Fixtures.feature_record].
Proof. reflexivity. Qed.

(* --------------------------------------------------------------------- *)
(** ** Blank strings *)

Section Blank.

Lemma trimStart_blank (s : string) :
  trimStart s = "" <-> JsString.all is_space s = true.
Proof.
  induction s as [|c s IH]; simpl.
  - split; reflexivity.
  - destruct (is_space c); simpl.
    + exact IH.
    + split; discriminate.
Qed.

Lemma all_rev_onto (p : ascii -> bool) (s acc : string) :
  JsString.all p (rev_onto s acc) = JsString.all p s && JsString.all p acc.
Proof.
  revert acc; induction s as [|c s IH]; intros acc; simpl.
  - reflexivity.
  - rewrite IH. simpl. destruct (p c), (JsString.all p s); reflexivity.
Qed.

Lemma all_rev (p : ascii -> bool) (s : string) :
  JsString.all p (JsString.rev s) = JsString.all p s.
Proof.
  unfold JsString.rev. rewrite all_rev_onto. simpl. apply andb_true_r.
Qed.

Lemma trim_of_blank (s : string) :
  JsString.all is_space s = true -> trim s = "".
Proof.
  intros Hs. unfold trim, trimEnd.
  apply trimStart_blank in Hs. rewrite Hs. reflexivity.
Qed.

Lemma split_go_blank (sep s cur : string) (skip : nat) :
  JsString.all is_space s = true ->
  JsString.all is_space cur = true ->
  Forall (fun piece => JsString.all is_space piece = true) (split_go sep s cur skip).
Proof.
  revert cur skip; induction s as [|c s IH]; intros cur skip Hs Hcur;
    cbn [split_go].
  - constructor; [rewrite all_rev; exact Hcur | constructor].
  - simpl in Hs. apply andb_prop in Hs as [Hc Hs].
    destruct skip as [|k].
    + destruct (String.prefix sep (String c s)).
      * constructor; [rewrite all_rev; exact Hcur | apply IH; auto].
      * apply IH; [exact Hs | simpl; rewrite Hc; exact Hcur].
    + apply IH; auto.
Qed.

Lemma rev_onto_truthy (s acc : string) :
  truthy acc = true -> truthy (rev_onto s acc) = true.
Proof.
  revert acc; induction s as [|c s IH]; intros acc Hacc; simpl; auto.
Qed.

Lemma rev_empty (s : string) : JsString.rev s = "" -> s = "".
Proof.
  destruct s as [|c s]; [reflexivity|].
  unfold JsString.rev; simpl. intros E.
  pose proof (rev_onto_truthy s (String c "") eq_refl) as T.
  rewrite E in T. discriminate.
Qed.

Lemma trim_blank (s : string) :
  truthy (trim s) = false -> JsString.all is_space s = true.
Proof.
  unfold trim, trimEnd. intros T.
  assert (E : JsString.rev (trimStart (JsString.rev (trimStart s))) = "")
    by (destruct (JsString.rev (trimStart (JsString.rev (trimStart s)))); [reflexivity | discriminate]).
  apply rev_empty in E. apply trimStart_blank in E.
  rewrite all_rev in E.
  (* what [trimStart] leaves is blank only if it is empty *)
  clear T. induction s as [|c s IH]; simpl in *; [reflexivity|].
  destruct (is_space c) eqn:Hc; simpl.
  - apply IH, E.
  - simpl in E. rewrite Hc in E. discriminate.
Qed.

End Blank.

(* --------------------------------------------------------------------- *)
(** ** The worktree list *)

Section WorktreeList.
Import Git.

Lemma parseLine_isMain (info : WorktreeInfo) (line : string) :
  isMain (parseLine info line) = isMain info.
Proof.
  unfold parseLine.
  repeat match goal with
         | |- context [if ?b then _ else _] => destruct b
         end; reflexivity.
Qed.

Lemma fold_parseLine_isMain (lines : list string) (info : WorktreeInfo) :
  isMain (fold_left parseLine lines info) = isMain info.
Proof.
  revert info; induction lines as [|l ls IH]; intros info; simpl.
  - reflexivity.
  - rewrite IH. apply parseLine_isMain.
Qed.

Lemma parseBlock_isMain (isFirst : bool) (block : string) :
  isMain (parseBlock isFirst block) = isFirst.
Proof. unfold parseBlock. rewrite fold_parseLine_isMain. reflexivity. Qed.

(** Once the flag is cleared no later record is flagged. *)
Lemma parseBlocks_false_no_main (blocks : list string) :
  Forall (fun wt => isMain wt = false) (parseBlocks false blocks).
Proof.
  induction blocks as [|b bs IH]; simpl.
  - constructor.
  - destruct (truthy (path (parseBlock false b))).
    + constructor; [apply parseBlock_isMain | exact IH].
    + exact IH.
Qed.

Lemma countMain_no_main (l : list WorktreeInfo) :
  Forall (fun wt => isMain wt = false) l -> countMain l = 0.
Proof.
  unfold countMain. induction 1 as [|wt l Hwt _ IH]; simpl.
  - reflexivity.
  - rewrite Hwt. exact IH.
Qed.

(** The early [return []] on blank output agrees with the loop: blank
    output has no block left after the filter. *)
Lemma parseWorktreeList_blocks (out : string) :
  parseWorktreeList out = parseBlocks true (blocksOf out).
Proof.
  unfold parseWorktreeList.
  destruct (truthy (trim out)) eqn:T; simpl; [reflexivity|].
  apply trim_blank in T.
  unfold blocksOf, split.
  pose proof (split_go_blank LFLF out "" 0 T eq_refl) as F.
  induction F as [|piece l Hp _ IH]; simpl; [reflexivity|].
  rewrite (trim_of_blank _ Hp). simpl. exact IH.
Qed.

Lemma getWorktrees_run (H : Host) (cwd : string) (h : History) :
  getWorktrees H cwd h =
  let c := worktree_list_cmd cwd in
  let o := execa_oracle H h c in
  match o with
  | Completed r =>
      if failed r
      then (Ret [], (h ++ [EvExec c o] ++
                     [EvWrite Err ("Failed to list worktrees: " ++ stderr_or_message (ExecaError r))])%list)
      else (Ret (parseWorktreeList (stdout r)), (h ++ [EvExec c o])%list)
  | SpawnThrow msg =>
      (Ret [], (h ++ [EvExec c o] ++
                [EvWrite Err ("Failed to list worktrees: " ++ msg)])%list)
  end.
Proof.
  unfold getWorktrees, try_catch, bind, execa, console_error, emit, ret.
  cbv zeta.
  destruct (execa_oracle H h (worktree_list_cmd cwd)) as [r|msg].
  - simpl opt_reject. rewrite andb_true_r.
    destruct (failed r); simpl; rewrite <- ?app_assoc; reflexivity.
  - simpl; rewrite <- ?app_assoc; reflexivity.
Qed.

(** [getWorktrees] returns a list in every world: it neither raises nor
    exits. *)
Lemma getWorktrees_total (H : Host) (cwd : string) (h : History) :
  exists l, run (getWorktrees H cwd) h = Ret l.
Proof.
  unfold run. rewrite getWorktrees_run. cbv zeta.
  destruct (execa_oracle H h (worktree_list_cmd cwd)) as [r|msg].
  - destruct (failed r); eexists; reflexivity.
  - eexists; reflexivity.
Qed.

(** What [getWorktrees] returns: the parse of the query's output when
    the query succeeded, the empty list otherwise. *)
Lemma getWorktrees_returns (H : Host) (cwd : string) (h : History)
      (l : list WorktreeInfo) :
  run (getWorktrees H cwd) h = Ret l ->
  match execa_oracle H h (worktree_list_cmd cwd) with
  | Completed r => if failed r then l = [] else l = parseWorktreeList (stdout r)
  | SpawnThrow _ => l = []
  end.
Proof.
  unfold run. rewrite getWorktrees_run. cbv zeta.
  destruct (execa_oracle H h (worktree_list_cmd cwd)) as [r|msg].
  - destruct (failed r); simpl; intros [= <-]; reflexivity.
  - simpl; intros [= <-]; reflexivity.
Qed.

End WorktreeList.

Section MainWorktree.
Import Git.

(** The shape of a parsed list: nothing, or the first block's record
    (flagged) followed by unflagged records, or unflagged records only
    when the first block gave no path. *)
Lemma parseWorktreeList_shape (out : string) :
  match blocksOf out with
  | [] => parseWorktreeList out = []
  | b :: bs =>
      Forall (fun wt => isMain wt = false) (parseBlocks false bs) /\
      parseWorktreeList out =
        if truthy (path (parseBlock true b))
        then parseBlock true b :: parseBlocks false bs
        else parseBlocks false bs
  end.
Proof.
  rewrite parseWorktreeList_blocks.
  destruct (blocksOf out) as [|b bs]; simpl; [reflexivity|].
  split; [apply parseBlocks_false_no_main | reflexivity].
Qed.

Lemma no_main_not_in (l : list WorktreeInfo) (wt : WorktreeInfo) :
  Forall (fun x => isMain x = false) l -> In wt l -> isMain wt = true -> False.
Proof.
  intros F I T. rewrite Forall_forall in F. rewrite (F wt I) in T. discriminate.
Qed.

(** The same three facts for the parser alone. *)
Lemma parseWorktreeList_main (out : string) :
  let l := parseWorktreeList out in
  countMain l <= 1 /\
  (forall wt, In wt l -> isMain wt = true ->
     exists b bs rest,
       blocksOf out = b :: bs /\ wt = parseBlock true b /\
       l = wt :: rest /\ Forall (fun x => isMain x = false) rest) /\
  (forall b bs,
     blocksOf out = b :: bs ->
     truthy (path (parseBlock true b)) = true ->
     countMain l = 1 /\
     exists rest, l = parseBlock true b :: rest /\
                  Forall (fun x => isMain x = false) rest).
Proof.
  cbv zeta. pose proof (parseWorktreeList_shape out) as S.
  destruct (blocksOf out) as [|b bs] eqn:Eb.
  - rewrite S. repeat split.
    + unfold countMain; simpl; lia.
    + intros wt [].
    + discriminate.
    + discriminate.
  - destruct S as [F ->].
    destruct (truthy (path (parseBlock true b))) eqn:Tp.
    + assert (C : countMain (parseBlock true b :: parseBlocks false bs) = 1).
      { unfold countMain; simpl. rewrite parseBlock_isMain. simpl.
        f_equal. apply (countMain_no_main _ F). }
      split; [rewrite C; lia|]. split.
      * intros wt [<- | I] T.
        -- exists b, bs, (parseBlocks false bs). auto.
        -- exfalso; eapply no_main_not_in; eauto.
      * intros b' bs' [= <- <-] _. split; [exact C|].
        exists (parseBlocks false bs); auto.
    + split; [rewrite (countMain_no_main _ F); lia|]. split.
      * intros wt I T. exfalso; eapply no_main_not_in; eauto.
      * intros b' bs' [= <- <-] Tp'. rewrite Tp in Tp'. discriminate.
Qed.

(** C3, as the code has it: of the records [getWorktrees] returns at
    most one is flagged [isMain]; a flagged record is the head of the
    list and is the record of the first non-blank block of the query's
    output; and when that first block gives a non-empty path, exactly
    one record is flagged, the one parsed from that block. *)
Theorem getWorktrees_main_is_first_block
        (H : Host) (cwd : string) (h : History) (l : list WorktreeInfo) :
  run (getWorktrees H cwd) h = Ret l ->
  countMain l <= 1 /\
  (forall wt, In wt l -> isMain wt = true ->
     exists r b bs rest,
       execa_oracle H h (worktree_list_cmd cwd) = Completed r /\
       blocksOf (stdout r) = b :: bs /\
       wt = parseBlock true b /\
       l = wt :: rest /\
       Forall (fun x => isMain x = false) rest) /\
  (forall r b bs,
     execa_oracle H h (worktree_list_cmd cwd) = Completed r ->
     failed r = false ->
     blocksOf (stdout r) = b :: bs ->
     truthy (path (parseBlock true b)) = true ->
     countMain l = 1 /\
     exists rest, l = parseBlock true b :: rest /\
                  Forall (fun x => isMain x = false) rest).
Proof.
  intros R. apply getWorktrees_returns in R.
  destruct (execa_oracle H h (worktree_list_cmd cwd)) as [r|msg] eqn:Eo.
  - destruct (failed r) eqn:Fr; subst l.
    + split; [unfold countMain; simpl; lia|]. split.
      * intros wt [].
      * intros r' b bs [= <-] Fr'. congruence.
    + destruct (parseWorktreeList_main (stdout r)) as (A & B & C).
      split; [exact A|]. split.
      * intros wt I T. destruct (B wt I T) as (b & bs & rest & E1 & E2 & E3 & E4).
        exists r, b, bs, rest. auto.
      * intros r' b bs [= <-] _ Eb Tp. apply (C b bs Eb Tp).
  - subst l. split; [unfold countMain; simpl; lia|]. split.
    + intros wt [].
    + discriminate.
Qed.

(** The theorem at the usual two-worktree listing. *)
Lemma getWorktrees_main_is_first_block_witness :
  run (getWorktrees Fixtures.two_host ".") [] =
    Ret [Fixtures.main_record; Fixtures.feature_record] /\
  countMain [Fixtures.main_record; Fixtures.feature_record] = 1.
Proof.
  split; [reflexivity|].
  refine (proj1 (proj2 (proj2 (getWorktrees_main_is_first_block
                  Fixtures.two_host "." []
                  [Fixtures.main_record; Fixtures.feature_record] eq_refl))
                  (ok_result Fixtures.two_listing) _ _ eq_refl eq_refl eq_refl eq_refl)).
Defined.

(** C3 as stated fails: a listing whose first block has no [worktree]
    line yields a non-empty list in which no record is flagged. *)
Lemma getWorktrees_no_main_counterexample :
  exists l,
    run (getWorktrees Fixtures.headless_host ".") [] = Ret l /\
    l <> [] /\ countMain l <> 1.
Proof.
  eexists. split; [reflexivity|]. split; [discriminate|].
  vm_compute. discriminate.
Qed.

End MainWorktree.

Section QueryFailure.
Import Git.

(** C9: whenever the worktree query fails (the child fails, execa
    raises, or the output is blank), [getWorktrees] returns the empty
    list; it does not raise. *)
Theorem getWorktrees_failure_is_empty (H : Host) (cwd : string) (h : History) :
  query_failed (execa_oracle H h (worktree_list_cmd cwd)) = true ->
  run (getWorktrees H cwd) h = Ret [].
Proof.
  unfold run. rewrite getWorktrees_run. cbv zeta.
  destruct (execa_oracle H h (worktree_list_cmd cwd)) as [r|msg]; simpl.
  - destruct (failed r); simpl; [reflexivity|].
    intros B. unfold parseWorktreeList. rewrite B. reflexivity.
  - reflexivity.
Qed.

(** The theorem outside a repository. *)
Lemma getWorktrees_failure_is_empty_witness :
  query_failed (execa_oracle Fixtures.broken_host [] (worktree_list_cmd ".")) = true /\
  run (getWorktrees Fixtures.broken_host ".") [] = Ret [].
Proof.
  split; [reflexivity|].
  apply (getWorktrees_failure_is_empty Fixtures.broken_host "." []).
  reflexivity.
Defined.

End QueryFailure.

(* --------------------------------------------------------------------- *)
(** ** The dirty-state guard *)

Section Stash.
Import Git.


(** Case analysis on the answers the world gives along a run. *)
Ltac world_cases H :=
  repeat match goal with
         | |- context [execa_oracle H ?h ?c] =>
             let r := fresh "r" in
             let m := fresh "m" in
             let E := fresh "E" in
             destruct (execa_oracle H h c) as [r|m] eqn:E; cbn -[trim]
         | |- context [failed ?r] =>
             let F := fresh "F" in
             destruct (failed r) eqn:F; cbn -[trim]
         | |- context [truthy (trim (stdout ?r))] =>
             let T := fresh "T" in
             destruct (truthy (trim (stdout r))) eqn:T; cbn -[trim]
         end.

Ltac unfold_run :=
  unfold try_catch, bind, execa, console_error, emit, ret; cbn -[trim].

(** Every run of [stashChanges] returns, its events are the world's
    answers, and it is one of the four kinds of [StashOutcome]. *)
Lemma stashChanges_run (H : Host) (cwd : string) (msg : option string) (h : History) :
  exists evs res,
    stashChanges H cwd msg h = (Ret res, (h ++ evs)%list) /\
    faithful H h evs /\
    StashOutcome cwd msg evs res /\
    guarded false evs = true.
Proof.
  unfold stashChanges. unfold_run. world_cases H.
  all: repeat rewrite <- app_assoc; cbn -[trim].
  all: eexists; eexists; (split; [reflexivity|]).
  all: split; [cbn [faithful answered]; repeat split; symmetry; assumption|].
  all: split.
  all: try (cbn -[trim]; rewrite ?F, ?F0, ?F1, ?F2, ?F3, ?T, ?T0; reflexivity).
  all: try (econstructor; eassumption).
  all: try (match goal with
            | |- StashOutcome _ _ [?a; ?b] _ => apply (stash_error cwd msg [] _ _ _)
            | |- StashOutcome _ _ [?x; ?a; ?b] _ => apply (stash_error cwd msg [x] _ _ _)
            | |- StashOutcome _ _ [?x; ?y; ?a; ?b] _ => apply (stash_error cwd msg [x; y] _ _ _)
            | |- StashOutcome _ _ [?x; ?y; ?z; ?a; ?b] _ => apply (stash_error cwd msg [x; y; z] _ _ _)
            | |- StashOutcome _ _ [?x; ?y; ?z; ?w; ?a; ?b] _ => apply (stash_error cwd msg [x; y; z; w] _ _ _)
            end; solve [assumption | exact I]).
Qed.






(** The runs of [stashChanges] in full: it always returns; its events
    are the world's answers; and it returns the printed hash exactly in
    the run where the tree is dirty and the staging, create, reset and
    clean steps all end well.  A clean tree, a create step without a
    hash and a failing step all give [null]; only a failing step leaves
    a console message. *)
Lemma stashChanges_outcomes
        (H : Host) (cwd : string) (msg : option string) (h : History) :
  exists evs res,
    stashChanges H cwd msg h = (Ret res, (h ++ evs)%list) /\
    faithful H h evs /\
    StashOutcome cwd msg evs res.
Proof.
  destruct (stashChanges_run H cwd msg h) as (evs & res & E & Fa & O & _).
  exists evs, res. repeat split; assumption.
Qed.

(** C4: a dirty tree whose staging and create steps end well while the
    create step prints no hash.  [stashChanges] returns [null] right
    after the create step: nothing is raised and nothing is written, on
    either console.  The caller receives the very value that a clean
    tree gives, against the docstring ([null] if the working tree was
    clean) and unlike the [catch] path, which reports. *)
Theorem stashChanges_no_hash_silent_null
        (H H0 : Host) (cwd : string) (msg : option string) (h h0 : History)
        (r0 r1 r2 r3 : ExecaResult) :
  let h1 := (h ++ [EvExec (status_cmd cwd) (Completed r1)])%list in
  let h2 := (h1 ++ [EvExec (add_all_cmd cwd) (Completed r2)])%list in
  execa_oracle H h (status_cmd cwd) = Completed r1 ->
  failed r1 = false ->
  truthy (trim (stdout r1)) = true ->
  execa_oracle H h1 (add_all_cmd cwd) = Completed r2 ->
  failed r2 = false ->
  execa_oracle H h2 (stash_create_cmd cwd msg) = Completed r3 ->
  failed r3 = false ->
  truthy (trim (stdout r3)) = false ->
  execa_oracle H0 h0 (status_cmd cwd) = Completed r0 ->
  failed r0 = false ->
  truthy (trim (stdout r0)) = false ->
  stashChanges H cwd msg h =
    (Ret None, (h2 ++ [EvExec (stash_create_cmd cwd msg) (Completed r3)])%list) /\
  run (stashChanges H0 cwd msg) h0 = run (stashChanges H cwd msg) h.
Proof.
  intros h1 h2 E1 F1 T1 E2 F2 E3 F3 T3 E0 F0 T0.
  assert (R : stashChanges H cwd msg h =
              (Ret None, (h2 ++ [EvExec (stash_create_cmd cwd msg) (Completed r3)])%list)).
  { subst h1 h2. unfold stashChanges. unfold_run.
    rewrite E1. cbn -[trim]. rewrite F1. cbn -[trim]. rewrite T1. cbn -[trim].
    rewrite E2. cbn -[trim]. rewrite F2. cbn -[trim].
    rewrite E3. cbn -[trim]. rewrite F3. cbn -[trim]. rewrite T3. reflexivity. }
  split; [exact R|].
  unfold run. rewrite R. unfold stashChanges. unfold_run.
  rewrite E0. cbn -[trim]. rewrite F0. cbn -[trim]. rewrite T0. reflexivity.
Qed.

(** The two runs side by side: a clean tree and a dirty tree whose
    create step prints no hash give the same result, and the second run
    writes nothing to the console. *)
Example stashChanges_clean_and_no_hash :
  run (stashChanges Fixtures.clean_tree_host "/repo" None) [] = Ret None /\
  run (stashChanges Fixtures.no_hash_host "/repo" None) [] = Ret None /\
  execa_oracle Fixtures.no_hash_host [] (status_cmd "/repo") = Fixtures.dirty_status /\
  Forall (fun e => match e with EvWrite _ _ => False | _ => True end)
         (trace (stashChanges Fixtures.no_hash_host "/repo" None) []).
Proof.
  split; [reflexivity|]. split; [reflexivity|]. split; [reflexivity|].
  vm_compute. repeat constructor.
Qed.

Example stashChanges_ok :
  run (stashChanges Fixtures.stash_ok_host "/repo" None) [] = Ret (Some "0a1b2c3").
Proof. reflexivity. Qed.

(** A status query that fails ends the run at once. *)
Example stashChanges_status_fails :
  stashChanges Fixtures.broken_host "/repo" None [] =
  (Ret None,
   [EvExec (status_cmd "/repo") Fixtures.not_a_repo;
    EvWrite Err "Failed to stash changes: fatal: not a git repository"]).
Proof. reflexivity. Qed.

(** C1: what [applyAndDropStash] does.  It issues one command, the
    [stash apply] of the given hash, and returns whether it ended well;
    no [stash drop] is issued in any world. *)
Theorem applyAndDropStash_applies_only
        (H : Host) (stashHash cwd : string) (h : History) :
  exists evs res,
    applyAndDropStash H stashHash cwd h = (Ret res, (h ++ evs)%list) /\
    Forall (fun e => is_exec drop_cmd e = false) evs /\
    (res = true ->
     exists r, failed r = false /\
               evs = [EvExec (stash_apply_cmd cwd stashHash) (Completed r)]).
Proof.
  unfold applyAndDropStash. unfold_run. world_cases H.
  all: repeat rewrite <- app_assoc; cbn -[trim].
  all: eexists; eexists; (split; [reflexivity|]).
  all: split; [repeat constructor|].
  all: try discriminate.
  intros _. eexists; split; [eassumption | reflexivity].
Qed.

(** The part of C1 that holds: the stash is named by the hash it was
    given; unless that text is itself a stack position, no command of
    the restore addresses the stash stack by position. *)
Lemma applyAndDropStash_by_hash
      (H : Host) (stashHash cwd : string) (h : History) :
  startsWith stashHash "stash@{" = false ->
  exists evs res,
    applyAndDropStash H stashHash cwd h = (Ret res, (h ++ evs)%list) /\
    Forall (fun e => is_exec positional_stash_cmd e = false) evs.
Proof.
  intros N.
  assert (P : positional_stash_cmd (stash_apply_cmd cwd stashHash) = false)
    by (unfold positional_stash_cmd, stash_apply_cmd; cbn -[startsWith]; exact N).
  unfold applyAndDropStash. unfold_run. world_cases H.
  all: repeat rewrite <- app_assoc; cbn -[trim].
  all: eexists; eexists; (split; [reflexivity|]).
  all: repeat constructor; exact P.
Qed.

(** The handle made by [stashChanges] is applied and is not dropped. *)
Example applyAndDropStash_after_stash :
  run (stashChanges Fixtures.stash_ok_host "/repo" None) [] = Ret (Some "0a1b2c3") /\
  applyAndDropStash Fixtures.stash_ok_host "0a1b2c3" "/repo" [] =
    (Ret true, [EvExec (stash_apply_cmd "/repo" "0a1b2c3") Fixtures.succeeded]).
Proof. split; reflexivity. Qed.

End Stash.

Lemma stashChanges_no_hash_silent_null_witness :
  exists evs,
    Git.stashChanges Fixtures.no_hash_host "/repo" None [] = (Ret None, evs) /\
    Forall (fun e => only_writes e = false) evs /\
    run (Git.stashChanges Fixtures.clean_tree_host "/repo" None) [] = Ret None.
Proof.
  destruct (stashChanges_no_hash_silent_null
              Fixtures.no_hash_host Fixtures.clean_tree_host "/repo" None [] []
              (ok_result "") (ok_result " M src/index.ts") (ok_result "") (ok_result "")
              eq_refl eq_refl eq_refl eq_refl eq_refl eq_refl eq_refl eq_refl
              eq_refl eq_refl eq_refl) as [E S].
  eexists. split; [exact E|]. split; [repeat constructor|].
  rewrite S. unfold run. rewrite E. reflexivity.
Defined.

(* --------------------------------------------------------------------- *)
(** ** Upstream remote and provider *)

Section Remotes.
Import Git.

Ltac quiet_cbn :=
  cbn -[trim split trackingRemote filter map find existsb String.eqb commonRemotes].

(** When the first query runs to its end, whatever its exit code, the
    second candidate is not asked: the result is the first candidate's
    tracking remote, or the choice among the configured remotes, or
    [origin] when [git remote] fails. *)
Lemma getUpstreamRemote_first_completed
      (H : Host) (cwd : string) (h : History) (r : ExecaResult) :
  execa_oracle H h (upstream_query cwd "main") = Completed r ->
  let h1 := (h ++ [EvExec (upstream_query cwd "main") (Completed r)])%list in
  getUpstreamRemote H cwd h =
    match trackingRemote (stdout r) with
    | Some remote => (Ret remote, h1)
    | None =>
        let o := execa_oracle H h1 (remote_list_cmd cwd) in
        (Ret match o with
             | Completed r2 => if failed r2 then "origin" else pickRemote (stdout r2)
             | SpawnThrow _ => "origin"
             end,
         (h1 ++ [EvExec (remote_list_cmd cwd) o])%list)
    end.
Proof.
  intros E h1. subst h1.
  unfold getUpstreamRemote, try_catch, bind, execa, ret.
  rewrite E. quiet_cbn.
  rewrite andb_false_r. quiet_cbn.
  destruct (trackingRemote (stdout r)) as [remote|]; [reflexivity|].
  quiet_cbn.
  destruct (execa_oracle H _ (remote_list_cmd cwd)) as [r2|m2];
    quiet_cbn; [|reflexivity].
  destruct (failed r2); quiet_cbn; [reflexivity|].
  unfold pickRemote, commonRemotes.
  destruct (filter truthy (map trim (split (stdout r2) LF))) as [|first rest];
    [reflexivity|].
  cbn [List.length Nat.eqb find nth].
  destruct (existsb (String.eqb "origin") (first :: rest)); [reflexivity|].
  destruct (existsb (String.eqb "upstream") (first :: rest)); reflexivity.
Qed.

(** C6 on a fork: [main] has no upstream, [master] tracks
    [upstream/master]; the code asks about [main], then lists the
    remotes and answers [origin]; it never asks about [master]. *)
Theorem getUpstreamRemote_second_candidate_unreached :
  execa_oracle Fixtures.fork_host [] (upstream_query "." "main") = Fixtures.no_upstream /\
  trackingRemote "upstream/master" = Some "upstream" /\
  getUpstreamRemote Fixtures.fork_host "." [] =
    (Ret "origin",
     [EvExec (upstream_query "." "main") Fixtures.no_upstream;
      EvExec (remote_list_cmd ".") (Completed (ok_result ("origin" ++ LF ++ "upstream")))]).
Proof. repeat split; reflexivity. Qed.

Example getUpstreamRemote_tracking :
  run (getUpstreamRemote Fixtures.tracking_host ".") [] = Ret "upstream".
Proof. reflexivity. Qed.

Example hostname_scp H : getRemoteHostname H "git@GitHub.com:user/repo.git" = Some "github.com".
Proof. reflexivity. Qed.

Example hostname_ssh H : getRemoteHostname H "ssh://git@gitlab.com/user/repo" = Some "gitlab.com".
Proof. reflexivity. Qed.

Example hostname_ssh_no_user H : getRemoteHostname H "ssh://gitlab.example.org:2222/u/r" = Some "gitlab.example.org".
Proof. reflexivity. Qed.

Example hostname_other_user H : getRemoteHostname H "alice@github.com:user/repo.git" = None.
Proof. reflexivity. Qed.

(** The classification of a parsed host name, case by case. *)
Lemma providerOfUrl_cases (H : Host) (remoteUrl : string) :
  providerOfUrl H remoteUrl =
  match getRemoteHostname H remoteUrl with
  | None => None
  | Some hostname =>
      if String.eqb hostname "github.com" then Some gh
      else if String.eqb hostname "gitlab.com" || gitlabPattern hostname then Some glab
      else None
  end.
Proof.
  unfold providerOfUrl.
  destruct (getRemoteHostname H remoteUrl) as [hostname|]; [|reflexivity].
  destruct hostname; reflexivity.
Qed.

(** Host names that do not begin with [gitlab.] and are not
    [github.com] are unknown. *)
Lemma providerOfUrl_other (H : Host) (remoteUrl hostname : string) :
  getRemoteHostname H remoteUrl = Some hostname ->
  startsWith hostname "gitlab." = false ->
  hostname <> "github.com" ->
  providerOfUrl H remoteUrl = None.
Proof.
  intros E G N. rewrite providerOfUrl_cases, E.
  destruct (String.eqb_spec hostname "github.com") as [->|_]; [contradiction|].
  unfold gitlabPattern. rewrite G. simpl.
  destruct (String.eqb_spec hostname "gitlab.com") as [->|_]; [discriminate|reflexivity].
Qed.

(** A host name that begins with [gitlab.] and goes on with anything but
    lower-case letters and dots is unknown. *)
Lemma providerOfUrl_gitlab_other_chars (H : Host) (remoteUrl hostname : string) :
  getRemoteHostname H remoteUrl = Some hostname ->
  startsWith hostname "gitlab." = true ->
  JsString.all is_lower_or_dot (drop 7 hostname) = false ->
  providerOfUrl H remoteUrl = None.
Proof.
  intros E G N. rewrite providerOfUrl_cases, E.
  destruct (String.eqb_spec hostname "github.com") as [->|_]; [discriminate|].
  destruct (String.eqb_spec hostname "gitlab.com") as [->|_]; [discriminate|].
  unfold gitlabPattern. rewrite G, N, andb_false_r. reflexivity.
Qed.

(** C5 on a self-hosted GitLab whose host name has a hyphen: the host
    name is parsed, begins with [gitlab.], and the provider is
    unknown. *)
Theorem detectGitProvider_selfhosted_gitlab_unknown :
  getRemoteHostname Fixtures.selfhosted_host Fixtures.selfhosted_url
    = Some "gitlab.my-company.com" /\
  startsWith "gitlab.my-company.com" "gitlab." = true /\
  gitlabPattern "gitlab.my-company.com" = false /\
  run (detectGitProvider Fixtures.selfhosted_host ".") [] = Ret None.
Proof. repeat split; reflexivity. Qed.

Example detectGitProvider_github :
  run (detectGitProvider Fixtures.github_host ".") [] = Ret (Some gh).
Proof. reflexivity. Qed.

Example providerOfUrl_gitlab_sub H :
  providerOfUrl H "git@gitlab.example.org:team/repo.git" = Some glab.
Proof. reflexivity. Qed.

End Remotes.

(* --------------------------------------------------------------------- *)
(** ** What a computation emits *)

Section Emits.
Variable P : Event -> bool.

Lemma emits_ret {A} (a : A) : emits_only P (ret a).
Proof. intros h. exists []. rewrite app_nil_r. auto. Qed.

Lemma emits_throw {A} (e : JsError) : emits_only P (@throw A e).
Proof. intros h. exists []. rewrite app_nil_r. auto. Qed.

Lemma emits_exit {A} (c : Z) : emits_only P (@process_exit A c).
Proof. intros h. exists []. rewrite app_nil_r. auto. Qed.

Lemma emits_bind {A B} (m : M A) (k : A -> M B) :
  emits_only P m -> (forall a, emits_only P (k a)) -> emits_only P (bind m k).
Proof.
  intros Hm Hk h. unfold bind.
  destruct (Hm h) as (e1 & E1 & P1).
  destruct (m h) as [[a|e|c] h1]; simpl in E1; subst h1.
  - destruct (Hk a (h ++ e1)%list) as (e2 & E2 & P2).
    exists (e1 ++ e2)%list. rewrite E2, app_assoc, forallb_app, P1, P2. auto.
  - exists e1; auto.
  - exists e1; auto.
Qed.

Lemma emits_try {A} (m : M A) (handler : JsError -> M A) :
  emits_only P m -> (forall e, emits_only P (handler e)) ->
  emits_only P (try_catch m handler).
Proof.
  intros Hm Hk h. unfold try_catch.
  destruct (Hm h) as (e1 & E1 & P1).
  destruct (m h) as [[a|e|c] h1]; simpl in E1; subst h1.
  - exists e1; auto.
  - destruct (Hk e (h ++ e1)%list) as (e2 & E2 & P2).
    exists (e1 ++ e2)%list. rewrite E2, app_assoc, forallb_app, P1, P2. auto.
  - exists e1; auto.
Qed.

Lemma emits_emit (e : Event) : P e = true -> emits_only P (emit e).
Proof. intros Pe h. exists [e]. simpl. rewrite Pe. auto. Qed.

Lemma emits_execa (H : Host) (c : Cmd) :
  (forall o, P (EvExec c o) = true) -> emits_only P (execa H c).
Proof.
  intros Pc h. exists [EvExec c (execa_oracle H h c)]. split.
  - unfold execa. destruct (execa_oracle H h c) as [r|m]; [|reflexivity].
    destruct (failed r && opt_reject c); reflexivity.
  - simpl. rewrite Pc. reflexivity.
Qed.

Lemma emits_stat (H : Host) (p : string) :
  (forall o, P (EvStat p o) = true) -> emits_only P (stat H p).
Proof.
  intros Pc h. exists [EvStat p (stat_oracle H h p)]. split.
  - unfold stat. destruct (stat_oracle H h p); reflexivity.
  - simpl. rewrite Pc. reflexivity.
Qed.

Lemma emits_realpath (H : Host) (p : string) :
  (forall o, P (EvRealpath p o) = true) -> emits_only P (realpath H p).
Proof.
  intros Pc h. exists [EvRealpath p (realpath_oracle H h p)]. split.
  - unfold realpath. destruct (realpath_oracle H h p); reflexivity.
  - simpl. rewrite Pc. reflexivity.
Qed.

Lemma emits_select (H : Host) (msg : string) (multi : bool) (choices : list WorktreeInfo) :
  (forall o, P (EvSelect msg multi choices o) = true) ->
  emits_only P (Tui.prompts_select H msg multi choices).
Proof.
  intros Pc h. eexists [_]. split; [reflexivity|]. simpl. rewrite Pc. reflexivity.
Qed.

End Emits.

Section ObservingResolvers.
Variable H : Host.

Ltac emits_step :=
  match goal with
  | |- emits_only _ (if ?b then _ else _) => destruct b
  | |- emits_only _ (match ?x with _ => _ end) => destruct x
  | |- emits_only _ (bind _ _) => apply emits_bind; [|intros ?]
  | |- emits_only _ (try_catch _ _) => apply emits_try; [|intros ?]
  | |- emits_only _ (ret _) => apply emits_ret
  | |- emits_only _ (throw _) => apply emits_throw
  | |- emits_only _ (process_exit _) => apply emits_exit
  | |- emits_only _ (console_log _) => apply emits_emit; reflexivity
  | |- emits_only _ (console_error _) => apply emits_emit; reflexivity
  | |- emits_only _ (Cd.stderr_write _) => apply emits_emit; reflexivity
  | |- emits_only _ (execa _ _) => apply emits_execa; intros ?; reflexivity
  | |- emits_only _ (stat _ _) => apply emits_stat; intros ?; reflexivity
  | |- emits_only _ (realpath _ _) => apply emits_realpath; intros ?; reflexivity
  | |- emits_only _ (Tui.prompts_select _ _ _ _) => apply emits_select; intros ?; reflexivity
  end.

Lemma getWorktrees_observes : emits_only observes_only (Git.getWorktrees H ".").
Proof. unfold Git.getWorktrees. repeat emits_step. Qed.

Lemma findWorktreeByBranch_observes (b : string) :
  emits_only observes_only (Git.findWorktreeByBranch H b ".").
Proof.
  unfold Git.findWorktreeByBranch.
  apply emits_bind; [apply getWorktrees_observes | intros ?; apply emits_ret].
Qed.

Lemma findByRealPath_observes (target : string) (l : list WorktreeInfo) :
  emits_only observes_only (Git.findByRealPath H target l).
Proof.
  induction l as [|wt l IH]; simpl.
  - apply emits_ret.
  - apply emits_bind; [repeat emits_step|].
    intros p. destruct (String.eqb p target); [apply emits_ret | exact IH].
Qed.

Lemma findWorktreeByPath_observes (t : string) :
  emits_only observes_only (Git.findWorktreeByPath H t ".").
Proof.
  unfold Git.findWorktreeByPath.
  apply emits_bind; [apply getWorktrees_observes | intros l].
  apply emits_bind; [repeat emits_step | intros p].
  apply findByRealPath_observes.
Qed.

Lemma selectWorktree_observes (msg : string) (excludeMain multi : bool) :
  emits_only observes_only (Tui.selectWorktree H msg excludeMain multi).
Proof.
  unfold Tui.selectWorktree.
  apply emits_bind; [apply getWorktrees_observes | intros l].
  repeat emits_step.
Qed.

(** The resolution step of the removal handler only looks. *)
Lemma resolveTarget_observes (pathOrBranch : string) :
  emits_only observes_only (Remove.resolveTarget H pathOrBranch).
Proof.
  unfold Remove.resolveTarget.
  destruct (negb (truthy pathOrBranch)).
  - apply emits_bind; [apply selectWorktree_observes | intros s].
    repeat emits_step.
  - apply emits_bind.
    + apply emits_try; [|intros ?; apply emits_ret].
      apply emits_bind; [repeat emits_step | intros d].
      destruct d; [apply findWorktreeByPath_observes | apply emits_ret].
    + intros byPath. apply emits_bind.
      * destruct byPath; [apply emits_ret | apply findWorktreeByBranch_observes].
      * intros t. repeat emits_step.
Qed.

End ObservingResolvers.

(* --------------------------------------------------------------------- *)
(** ** Removal *)

Section Removal.
Import Remove.

(** The guard at the head of the removal: a main worktree ends the
    process with status 1 after one line on the error stream. *)
Lemma removeResolved_main (H : Host) (wt : WorktreeInfo) (options : Options) (h : History) :
  isMain wt = true ->
  removeResolved H wt options h =
    (Exit 1, (h ++ [EvWrite Err "Cannot remove the main worktree."])%list).
Proof.
  intros Hmain. unfold removeResolved. rewrite Hmain. reflexivity.
Qed.

(** C2: when the target the handler resolves is the main worktree, the
    handler ends the process with status 1 whatever the options are,
    and everything it has done by then is to look: the two queries,
    [stat], [realpath], the picker and console lines; no
    [git worktree remove], no [rm], no branch deletion. *)
Theorem removeWorktreeHandler_refuses_main
        (H : Host) (pathOrBranch : string) (options : Options)
        (h0 h2 : History) (r : ExecaResult) (wt : WorktreeInfo) :
  execa_oracle H h0 inside_work_tree_cmd = Completed r ->
  failed r = false ->
  resolveTarget H pathOrBranch
    (h0 ++ [EvExec inside_work_tree_cmd (Completed r)])%list = (Ret wt, h2) ->
  isMain wt = true ->
  run (removeWorktreeHandler H pathOrBranch options) h0 = Exit 1 /\
  exists evs,
    trace (removeWorktreeHandler H pathOrBranch options) h0 = (h0 ++ evs)%list /\
    forallb observes_only evs = true /\
    In (EvWrite Err "Cannot remove the main worktree.") evs.
Proof.
  intros Eo Fr Er Hmain.
  destruct (resolveTarget_observes H pathOrBranch
              (h0 ++ [EvExec inside_work_tree_cmd (Completed r)])%list)
    as (evs & Ev & Pv).
  rewrite Er in Ev. simpl in Ev. subst h2.
  assert (E : removeWorktreeHandler H pathOrBranch options h0 =
              (Exit 1, (h0 ++ (EvExec inside_work_tree_cmd (Completed r) :: evs)
                             ++ [EvWrite Err "Cannot remove the main worktree."])%list)).
  { unfold removeWorktreeHandler, try_catch, bind at 1.
    unfold execa at 1. rewrite Eo, Fr. cbn [andb].
    unfold bind at 1. rewrite Er.
    rewrite (removeResolved_main H wt options _ Hmain).
    rewrite <- !app_assoc. reflexivity. }
  unfold run, trace. rewrite E. split; [reflexivity|].
  eexists. split; [reflexivity|]. split.
  - rewrite forallb_app. cbn [forallb]. rewrite Pv. reflexivity.
  - apply in_or_app. right. left. reflexivity.
Qed.

Example remove_main_by_branch :
  resolveTarget Fixtures.clone_host "main"
    [EvExec inside_work_tree_cmd (Completed (ok_result "true"))]
  = (Ret Fixtures.main_record,
     [EvExec inside_work_tree_cmd (Completed (ok_result "true"));
      EvStat "main" (StatErr "ENOENT" "no such file or directory");
      EvExec (Git.worktree_list_cmd ".") (Completed (ok_result Fixtures.two_listing))]).
Proof. reflexivity. Qed.

(** The theorem at [wt remove main --force]. *)
Lemma removeWorktreeHandler_refuses_main_witness :
  run (removeWorktreeHandler Fixtures.clone_host "main" (mkOptions true)) [] = Exit 1.
Proof.
  exact (proj1 (removeWorktreeHandler_refuses_main Fixtures.clone_host "main"
                  (mkOptions true) [] _ (ok_result "true") Fixtures.main_record
                  eq_refl eq_refl remove_main_by_branch eq_refl)).
Defined.

Lemma findByRealPath_in (H : Host) (target : string) (l : list WorktreeInfo)
      (h h' : History) (wt : WorktreeInfo) :
  Git.findByRealPath H target l h = (Ret (Some wt), h') -> In wt l.
Proof.
  revert h; induction l as [|x l IH]; intros h; cbn [Git.findByRealPath].
  - unfold ret. intros [= ]. 
  - unfold bind at 1.
    destruct (try_catch (realpath H (path x)) (fun _ => ret (path_resolve H [path x])) h)
      as [[p|e|c] h1]; try discriminate.
    destruct (String.eqb p target).
    + unfold ret. intros [= <- _]. left; reflexivity.
    + intros E. right. exact (IH _ E).
Qed.

Lemma findWorktreeByPath_in (H : Host) (t cwd : string) (h h' : History) (wt : WorktreeInfo) :
  Git.findWorktreeByPath H t cwd h = (Ret (Some wt), h') ->
  exists l, run (Git.getWorktrees H cwd) h = Ret l /\ In wt l.
Proof.
  unfold Git.findWorktreeByPath, run, bind at 1.
  destruct (Git.getWorktrees H cwd h) as [[l|e|c] h1]; try discriminate.
  unfold bind at 1.
  destruct (try_catch (realpath H (path_resolve H [t])) (fun _ => ret (path_resolve H [t])) h1)
    as [[p|e|c] h2]; try discriminate.
  intros E. exists l. split; [reflexivity | exact (findByRealPath_in _ _ _ _ _ _ E)].
Qed.

Lemma findWorktreeByBranch_in (H : Host) (b cwd : string) (h h' : History) (wt : WorktreeInfo) :
  Git.findWorktreeByBranch H b cwd h = (Ret (Some wt), h') ->
  exists l, run (Git.getWorktrees H cwd) h = Ret l /\ In wt l.
Proof.
  unfold Git.findWorktreeByBranch, run, bind, ret.
  destruct (Git.getWorktrees H cwd h) as [[l|e|c] h1]; try discriminate.
  intros [= F _]. exists l. split; [reflexivity|].
  apply find_some in F. tauto.
Qed.

(** Whatever the token, the record the removal handler resolves it to is
    a record of the listing: the handler makes no record of its own. *)
Lemma resolveTarget_listed (H : Host) (pathOrBranch : string) (h h' : History)
      (wt : WorktreeInfo) :
  truthy pathOrBranch = true ->
  resolveTarget H pathOrBranch h = (Ret wt, h') ->
  exists h1 l, run (Git.getWorktrees H ".") h1 = Ret l /\ In wt l.
Proof.
  intros T. unfold resolveTarget. rewrite T. cbn [negb].
  unfold bind at 1.
  destruct (try_catch _ _ h) as [[byPath|e|c] h1] eqn:EX; try discriminate.
  destruct byPath as [wt0|].
  - unfold bind, ret. intros [= <- _].
    unfold try_catch, bind at 1 in EX.
    unfold stat in EX.
    destruct (stat_oracle H h pathOrBranch) as [d|code m]; [|discriminate].
    destruct d; [|discriminate].
    destruct (Git.findWorktreeByPath H pathOrBranch "." _) as [[o|e|c] h2] eqn:EP;
      try discriminate.
    injection EX as -> _.
    destruct (findWorktreeByPath_in _ _ _ _ _ _ EP) as (l & R & I).
    eauto.
  - unfold bind at 1.
    destruct (Git.findWorktreeByBranch H pathOrBranch "." h1) as [[o|e|c] h2] eqn:EB;
      try discriminate.
    destruct o as [wt1|].
    + unfold ret. intros [= <- _].
      destruct (findWorktreeByBranch_in _ _ _ _ _ _ EB) as (l & R & I).
      eauto.
    + unfold bind, console_error, emit, process_exit. discriminate.
Qed.

(** C8 on a directory that carries a [.git] entry and is not listed:
    the resolvers of [cd] and of [open] make an ad-hoc record for it,
    the removal handler reports that no worktree was found, with the
    token between quotation marks, and exits with 1. *)
Theorem removeWorktreeHandler_no_adhoc_record :
  stat_oracle Fixtures.clone_host [] "/repo/clone" = StatOk true /\
  stat_oracle Fixtures.clone_host [] "/repo/clone/.git" = StatOk true /\
  run (Git.findWorktreeByPath Fixtures.clone_host "/repo/clone" ".") [] = Ret None /\
  run (Cd.resolveTarget Fixtures.clone_host "/repo/clone") []
    = Ret (Cd.adHocRecord "/repo/clone") /\
  run (Open.resolveTarget Fixtures.clone_host "/repo/clone") []
    = Ret (Cd.adHocRecord "/repo/clone") /\
  run (resolveTarget Fixtures.clone_host "/repo/clone") [] = Exit 1 /\
  run (removeWorktreeHandler Fixtures.clone_host "/repo/clone" (mkOptions false)) [] = Exit 1 /\
  In (EvWrite Err ("Could not find a worktree for " ++ quoted "/repo/clone" ++ "."))
     (trace (removeWorktreeHandler Fixtures.clone_host "/repo/clone" (mkOptions false)) []).
Proof.
  repeat split; try reflexivity.
  vm_compute. tauto.
Qed.

End Removal.

(* --------------------------------------------------------------------- *)
(** ** Lookup by path *)

Section PathLookup.
Import Git.
Variable H : Host.
Variable real : string -> option string.

(** The file system stays as it is during a lookup. *)
Hypothesis stable : forall h p, realpath_oracle H h p = real p.

Let matches (target : string) (wt : WorktreeInfo) : bool :=
  String.eqb (effectivePath H real (path wt)) target.

Lemma realpath_or_resolve_record (p : string) (h : History) :
  exists h',
    try_catch (realpath H p) (fun _ => ret (path_resolve H [p])) h
    = (Ret (effectivePath H real p), h').
Proof.
  unfold try_catch, realpath, ret, effectivePath. rewrite stable.
  destruct (real p); eexists; reflexivity.
Qed.

Lemma realpath_or_resolve_target (token : string) (h : History) :
  exists h',
    try_catch (realpath H (path_resolve H [token]))
              (fun _ => ret (path_resolve H [token])) h
    = (Ret (effectiveTarget H real token), h').
Proof.
  unfold try_catch, realpath, ret, effectiveTarget. rewrite stable.
  destruct (real (path_resolve H [token])); eexists; reflexivity.
Qed.

(** The loop returns the first record that matches. *)
Lemma findByRealPath_find (target : string) (l : list WorktreeInfo) (h : History) :
  run (findByRealPath H target l) h = Ret (find (matches target) l).
Proof.
  revert h; induction l as [|wt l IH]; intros h; [reflexivity|].
  unfold run in *. cbn [findByRealPath find]. unfold bind at 1.
  destruct (realpath_or_resolve_record (path wt) h) as (h' & ->).
  unfold matches at 1.
  destruct (String.eqb (effectivePath H real (path wt)) target); [reflexivity|].
  apply IH.
Qed.

Lemma findWorktreeByPath_find (token cwd : string) (h : History) (l : list WorktreeInfo) :
  run (getWorktrees H cwd) h = Ret l ->
  run (findWorktreeByPath H token cwd) h
    = Ret (find (matches (effectiveTarget H real token)) l).
Proof.
  unfold run at 1. intros R.
  unfold run, findWorktreeByPath, bind at 1.
  destruct (getWorktrees H cwd h) as [res h1]. simpl in R. subst res.
  unfold bind at 1.
  destruct (realpath_or_resolve_target token h1) as (h2 & ->).
  apply findByRealPath_find.
Qed.

Lemma find_after_misses (target : string) (pre post : list WorktreeInfo) (wt : WorktreeInfo) :
  Forall (fun x => effectivePath H real (path x) <> target) pre ->
  find (matches target) (pre ++ wt :: post)%list =
    if matches target wt then Some wt else find (matches target) post.
Proof.
  induction 1 as [|x pre Hx _ IH]; [reflexivity|].
  cbn [app find]. unfold matches at 1.
  destruct (String.eqb_spec (effectivePath H real (path x)) target); [contradiction|].
  exact IH.
Qed.

(** C7, as the code has it: while the file system stays as it is,
    [findWorktreeByPath] returns the first record, in the order of the
    listing, whose real path (its resolved path when it has none) is
    the token's; hence a record that no earlier record shares its real
    path with is returned if and only if its real path is the token's,
    and two tokens with one real path get the same answer. *)
Theorem findWorktreeByPath_first_real_match
        (token cwd : string) (h : History) (l : list WorktreeInfo) :
  run (getWorktrees H cwd) h = Ret l ->
  let target := effectiveTarget H real token in
  let found := find (fun wt => String.eqb (effectivePath H real (path wt)) target) l in
  run (findWorktreeByPath H token cwd) h = Ret found /\
  (forall pre wt post,
     l = (pre ++ wt :: post)%list ->
     Forall (fun x => effectivePath H real (path x) <> target) pre ->
     (found = Some wt <-> effectivePath H real (path wt) = target)) /\
  (forall token',
     effectiveTarget H real token' = target ->
     run (findWorktreeByPath H token' cwd) h = Ret found).
Proof.
  intros R target found. split; [|split].
  - apply (findWorktreeByPath_find token cwd h l R).
  - intros pre wt post -> Hpre. subst found.
    change (fun wt0 => String.eqb (effectivePath H real (path wt0)) target)
      with (matches target).
    rewrite (find_after_misses target pre post wt Hpre).
    unfold matches at 1.
    destruct (String.eqb_spec (effectivePath H real (path wt)) target) as [E|N].
    + split; auto.
    + split; [|contradiction].
      intros F. apply find_some in F as [_ F]. unfold matches in F.
      apply String.eqb_eq in F. contradiction.
  - intros token' E. rewrite (findWorktreeByPath_find token' cwd h l R), E.
    reflexivity.
Qed.

End PathLookup.

Section PathLookupRuns.
Import Git.

Lemma twin_listing_parsed :
  run (getWorktrees Fixtures.twin_host ".") []
  = Ret [Fixtures.main_record; Fixtures.link_record; Fixtures.real_record].
Proof. reflexivity. Qed.

(** The theorem on a record listed under a symbolic link: the link and
    its real path name the same record. *)
Lemma findWorktreeByPath_first_real_match_witness :
  run (findWorktreeByPath Fixtures.twin_host "/real/wt" ".") [] = Ret (Some Fixtures.link_record) /\
  run (findWorktreeByPath Fixtures.twin_host "/link/wt" ".") [] = Ret (Some Fixtures.link_record).
Proof.
  pose proof (findWorktreeByPath_first_real_match Fixtures.twin_host Fixtures.twin_real
                (fun _ _ => eq_refl) "/real/wt" "." [] _ twin_listing_parsed)
    as (A & _ & C).
  split; [exact A | exact (C "/link/wt" eq_refl)].
Defined.

(** C7 as stated fails: the token [/real/wt] is an existing directory
    whose real path is the real path of the record stored at
    [/real/wt], yet the lookup answers another record, the one listed
    before it under a link to the same place. *)
Lemma findWorktreeByPath_shared_real_path_counterexample :
  In Fixtures.real_record [Fixtures.main_record; Fixtures.link_record; Fixtures.real_record] /\
  stat_oracle Fixtures.twin_host [] "/real/wt" = StatOk true /\
  realpath_oracle Fixtures.twin_host [] (path_resolve Fixtures.twin_host ["/real/wt"])
    = realpath_oracle Fixtures.twin_host [] (path Fixtures.real_record) /\
  run (findWorktreeByPath Fixtures.twin_host "/real/wt" ".") [] <> Ret (Some Fixtures.real_record).
Proof.
  split; [simpl; tauto|]. split; [reflexivity|]. split; [reflexivity|].
  vm_compute. discriminate.
Qed.

End PathLookupRuns.

(* ===================================================================== *)
(** * Further properties of the inspector *)
(* ===================================================================== *)

Section StringFacts.

Lemma rev_onto_app (s acc : string) :
  rev_onto s acc = (rev_onto s "" ++ acc)%string.
Proof.
  revert acc; induction s as [|c s IH]; intros acc; simpl; [reflexivity|].
  rewrite IH, (IH (String c "")). 
  generalize (rev_onto s ""). intros t.
  induction t as [|d t IHt]; simpl; [reflexivity | now rewrite IHt].
Qed.

Lemma string_app_nil_r (s : string) : (s ++ "")%string = s.
Proof. induction s as [|c s IH]; simpl; [reflexivity | now rewrite IH]. Qed.

Lemma string_app_assoc (a b c : string) :
  ((a ++ b) ++ c)%string = (a ++ (b ++ c))%string.
Proof. induction a as [|x a IH]; simpl; [reflexivity | now rewrite IH]. Qed.

Lemma rev_cons (c : ascii) (s : string) :
  JsString.rev (String c s) = (JsString.rev s ++ String c "")%string.
Proof. unfold JsString.rev; simpl. apply rev_onto_app. Qed.

Lemma rev_app (a b : string) :
  JsString.rev (a ++ b) = (JsString.rev b ++ JsString.rev a)%string.
Proof.
  induction a as [|c a IH]; simpl.
  - symmetry. apply string_app_nil_r.
  - rewrite !rev_cons, IH. apply string_app_assoc.
Qed.

Lemma rev_involutive (s : string) : JsString.rev (JsString.rev s) = s.
Proof.
  induction s as [|c s IH]; [reflexivity|].
  rewrite rev_cons, rev_app, IH. reflexivity.
Qed.

Lemma all_app (p : ascii -> bool) (a b : string) :
  JsString.all p (a ++ b) = JsString.all p a && JsString.all p b.
Proof.
  induction a as [|c a IH]; simpl; [reflexivity|].
  rewrite IH. apply andb_assoc.
Qed.

(** [trimStart] removes a blank prefix and nothing else. *)
Lemma trimStart_split (s : string) :
  exists pre, s = (pre ++ trimStart s)%string /\ JsString.all is_space pre = true.
Proof.
  induction s as [|c s (pre & E & B)]; simpl.
  - exists "". auto.
  - destruct (is_space c) eqn:C.
    + exists (String c pre). simpl. rewrite C, B, <- E. auto.
    + exists "". auto.
Qed.

(** What [trimStart] leaves does not begin with white space. *)
Lemma trimStart_head (s : string) (c : ascii) (t : string) :
  trimStart s = String c t -> is_space c = false.
Proof.
  induction s as [|d s IH]; simpl; [discriminate|].
  destruct (is_space d) eqn:D; [exact IH|].
  intros [= <- _]. exact D.
Qed.

Lemma trimStart_fixed (s : string) :
  match s with String c _ => is_space c = false | EmptyString => True end ->
  trimStart s = s.
Proof. destruct s as [|c s]; simpl; [reflexivity | intros ->; reflexivity]. Qed.

(** [trim] is idempotent: a trimmed string has no white space left at
    either end. *)
Lemma trim_idempotent (s : string) : trim (trim s) = trim s.
Proof.
  unfold trim, trimEnd.
  set (t := trimStart s).
  set (u := trimStart (JsString.rev t)).
  assert (Hu : trimStart (JsString.rev u) = JsString.rev u).
  { apply trimStart_fixed.
    destruct (JsString.rev u) as [|c w] eqn:R; [exact I|].
    destruct (trimStart_split (JsString.rev t)) as (pre & E & _).
    fold u in E.
    apply (f_equal JsString.rev) in E.
    rewrite rev_involutive, rev_app, R in E. simpl in E.
    apply (trimStart_head s c (w ++ JsString.rev pre)). exact E. }
  rewrite Hu, rev_involutive.
  assert (Hu2 : trimStart u = u).
  { apply trimStart_fixed. subst u.
    destruct (trimStart (JsString.rev t)) as [|c w] eqn:R; [exact I|].
    exact (trimStart_head _ _ _ R). }
  rewrite Hu2. reflexivity.
Qed.

Lemma all_trimStart (p : ascii -> bool) (s : string) :
  JsString.all p s = true -> JsString.all p (trimStart s) = true.
Proof.
  induction s as [|c s IH]; simpl; [auto|].
  intros A. apply andb_prop in A as [Pc Ps].
  destruct (is_space c); [auto | simpl; rewrite Pc, Ps; reflexivity].
Qed.

Lemma all_trim (p : ascii -> bool) (s : string) :
  JsString.all p s = true -> JsString.all p (trim s) = true.
Proof.
  intros A. unfold trim, trimEnd.
  rewrite all_rev. apply all_trimStart. rewrite all_rev. apply all_trimStart, A.
Qed.

(** Splitting at a one-unit separator leaves pieces without it. *)
Lemma split_go_single (x : ascii) (s cur : string) :
  JsString.all (not_char x) cur = true ->
  Forall (fun piece => JsString.all (not_char x) piece = true)
         (split_go (String x "") s cur 0).
Proof.
  revert cur; induction s as [|c s IH]; intros cur Hc; cbn [split_go].
  - constructor; [rewrite all_rev; exact Hc | constructor].
  - cbn [String.prefix String.length Nat.sub].
    destruct (ascii_dec x c) as [->|N].
    + destruct s; (constructor; [rewrite all_rev; exact Hc | apply IH; reflexivity]).
    + apply IH. simpl. rewrite Hc. unfold not_char.
      destruct (Ascii.eqb_spec c x) as [->|_]; [contradiction | reflexivity].
Qed.

Lemma split_single (x : ascii) (s : string) :
  Forall (fun piece => JsString.all (not_char x) piece = true)
         (split s (String x "")).
Proof. apply split_go_single. reflexivity. Qed.

End StringFacts.

Section ListingFacts.
Import Git.

Lemma parseBlocks_paths (isFirst : bool) (blocks : list string) :
  Forall (fun wt => truthy (path wt) = true) (parseBlocks isFirst blocks).
Proof.
  revert isFirst; induction blocks as [|b bs IH]; intros isFirst; simpl.
  - constructor.
  - destruct (truthy (path (parseBlock isFirst b))) eqn:T.
    + constructor; [exact T | apply IH].
    + apply IH.
Qed.

(** X1: every record [getWorktrees] returns has a non-empty path,
    whatever the query printed. *)
Theorem getWorktrees_paths_nonempty
        (H : Host) (cwd : string) (h : History) (l : list WorktreeInfo) :
  run (getWorktrees H cwd) h = Ret l ->
  Forall (fun wt => truthy (path wt) = true) l.
Proof.
  intros R. apply getWorktrees_returns in R.
  destruct (execa_oracle H h (worktree_list_cmd cwd)) as [r|m].
  - destruct (failed r); subst l; [constructor|].
    rewrite parseWorktreeList_blocks. apply parseBlocks_paths.
  - subst l. constructor.
Qed.

Lemma getWorktrees_paths_nonempty_witness :
  Forall (fun wt => truthy (path wt) = true)
         [Fixtures.main_record; Fixtures.feature_record].
Proof.
  exact (getWorktrees_paths_nonempty Fixtures.two_host "." [] _ eq_refl).
Defined.

(** The names a newline-separated list gives after [trim] and the
    removal of empty entries are clean. *)
Lemma lines_clean (out : string) :
  Forall clean_name (filter truthy (map trim (split out LF))).
Proof.
  pose proof (split_single (ascii_of_nat 10) out) as F.
  change (String (ascii_of_nat 10) "") with LF in F.
  induction F as [|piece l Hp _ IH]; simpl; [constructor|].
  destruct (truthy (trim piece)) eqn:T; [|exact IH].
  constructor; [|exact IH].
  split; [exact T|]. split; [apply all_trim, Hp | apply trim_idempotent].
Qed.

(** X2: [getBranches] never raises, and every name it returns is
    non-empty, holds no line feed and has no white space at either
    end. *)
Theorem getBranches_clean (H : Host) (cwd : string) (h : History) :
  exists l, run (GitQueries.getBranches H cwd) h = Ret l /\ Forall clean_name l.
Proof.
  unfold run, GitQueries.getBranches, try_catch, bind, execa, ret.
  destruct (execa_oracle H h (GitQueries.branch_list_cmd cwd)) as [r|m];
    cbn -[trim split]; [|eexists; split; [reflexivity | constructor]].
  rewrite andb_true_r.
  destruct (failed r); cbn -[trim split]; [eexists; split; [reflexivity | constructor]|].
  destruct (truthy (trim (stdout r))); cbn -[trim split].
  - eexists; split; [reflexivity | apply lines_clean].
  - eexists; split; [reflexivity | constructor].
Qed.

Lemma trackingRemote_truthy (out m : string) :
  trackingRemote out = Some m -> truthy m = true.
Proof.
  unfold trackingRemote.
  destruct (truthy out && truthy (trim out)); [|discriminate].
  destruct (matchRemotePrefix (trim out)) as [x|]; [|discriminate].
  destruct (truthy x) eqn:T; [|discriminate].
  intros [= <-]. exact T.
Qed.

Lemma pickRemote_cases (out : string) :
  let remotes := filter truthy (map trim (split out LF)) in
  (remotes = [] /\ pickRemote out = "origin") \/
  (In (pickRemote out) remotes /\
   (In "origin" remotes -> pickRemote out = "origin") /\
   (~ In "origin" remotes -> In "upstream" remotes -> pickRemote out = "upstream")).
Proof.
  cbv zeta. unfold pickRemote.
  destruct (filter truthy (map trim (split out LF))) as [|first rest] eqn:R;
    [left; auto | right].
  destruct (existsb (String.eqb "origin") (first :: rest)) eqn:Eo.
  - apply existsb_exists in Eo as (x & Ix & Ex). apply String.eqb_eq in Ex. subst x.
    repeat split; auto. intros N; contradiction.
  - assert (No : ~ In "origin" (first :: rest)).
    { intros I. assert (X : existsb (String.eqb "origin") (first :: rest) = true)
        by (apply existsb_exists; exists "origin"; split; [exact I | apply String.eqb_refl]).
      rewrite X in Eo. discriminate. }
    destruct (existsb (String.eqb "upstream") (first :: rest)) eqn:Eu.
    + apply existsb_exists in Eu as (x & Ix & Ex). apply String.eqb_eq in Ex. subst x.
      repeat split; auto. intros I; contradiction.
    + repeat split; [left; reflexivity | intros I; contradiction |].
      intros _ I.
      assert (X : existsb (String.eqb "upstream") (first :: rest) = true)
        by (apply existsb_exists; exists "upstream"; split; [exact I | apply String.eqb_refl]).
      rewrite X in Eu. discriminate.
Qed.

Lemma pickRemote_truthy (out : string) : truthy (pickRemote out) = true.
Proof.
  destruct (pickRemote_cases out) as [[_ ->] | [I _]]; [reflexivity|].
  apply filter_In in I. tauto.
Qed.

(** The choice among the configured remotes, as the code writes it. *)
Lemma pick_ret (out : string) :
  (if Nat.eqb (List.length (filter truthy (map trim (split out LF)))) 0
   then ret "origin"
   else match find (fun commonRemote => existsb (String.eqb commonRemote)
                                          (filter truthy (map trim (split out LF))))
                   commonRemotes with
        | Some commonRemote => ret commonRemote
        | None => ret (nth 0 (filter truthy (map trim (split out LF))) "")
        end) = ret (pickRemote out).
Proof.
  unfold pickRemote, commonRemotes.
  destruct (filter truthy (map trim (split out LF))) as [|first rest];
    [reflexivity|].
  cbn [List.length Nat.eqb find nth].
  destruct (existsb (String.eqb "origin") (first :: rest)); [reflexivity|].
  destruct (existsb (String.eqb "upstream") (first :: rest)); reflexivity.
Qed.

Lemma outcome_ret {A} (a : A) (Q : A -> Prop) : Q a -> outcome (ret a) Q.
Proof. intros q h. exact q. Qed.

Lemma outcome_bind {A B} (m : M A) (k : A -> M B) (P : A -> Prop) (Q : B -> Prop) :
  outcome m P -> (forall a, P a -> outcome (k a) Q) -> outcome (bind m k) Q.
Proof.
  intros Hm Hk h. unfold bind. specialize (Hm h).
  destruct (m h) as [[a|e|c] h1]; simpl in *; [apply (Hk a Hm) | exact I | exact Hm].
Qed.

Lemma outcome_try {A} (m : M A) (handler : JsError -> M A) (Q : A -> Prop) :
  outcome m Q -> (forall e, outcome (handler e) Q) -> outcome (try_catch m handler) Q.
Proof.
  intros Hm Hk h. unfold try_catch. specialize (Hm h).
  destruct (m h) as [[a|e|c] h1]; simpl in *; [exact Hm | apply Hk | exact Hm].
Qed.

Lemma outcome_execa (H : Host) (c : Cmd) : outcome (execa H c) (fun _ => True).
Proof.
  intros h. unfold execa.
  destruct (execa_oracle H h c) as [r|m]; [|exact I].
  destruct (failed r && opt_reject c); exact I.
Qed.

Lemma total_try {A} (m : M A) (handler : JsError -> M A) (Q : A -> Prop) :
  outcome m Q -> (forall e, total (handler e) Q) -> total (try_catch m handler) Q.
Proof.
  intros Hm Hk h. unfold try_catch. specialize (Hm h).
  destruct (m h) as [[a|e|c] h1]; simpl in *.
  - exists a, h1. auto.
  - apply Hk.
  - contradiction.
Qed.

Lemma total_ret {A} (a : A) (Q : A -> Prop) : Q a -> total (ret a) Q.
Proof. intros q h. exists a, h. auto. Qed.

(** X3: [getUpstreamRemote] returns in every world, and the remote name
    it returns is never empty. *)
Theorem getUpstreamRemote_total_nonempty (H : Host) (cwd : string) :
  total (getUpstreamRemote H cwd) (fun remote => truthy remote = true).
Proof.
  unfold getUpstreamRemote.
  apply total_try; [|intros e; apply total_ret; reflexivity].
  apply outcome_bind
    with (P := fun early => match early with
                            | Some remote => truthy remote = true
                            | None => True
                            end).
  - assert (Ask : forall b,
              outcome (r <- execa H (upstream_query cwd b) ;;
                       ret (trackingRemote (stdout r)))
                      (fun early => match early with
                                    | Some remote => truthy remote = true
                                    | None => True
                                    end)).
    { intros b. eapply outcome_bind; [apply outcome_execa|].
      intros r _. apply outcome_ret.
      destruct (trackingRemote (stdout r)) as [x|] eqn:Tr; [|exact I].
      exact (trackingRemote_truthy _ _ Tr). }
    apply outcome_try; [apply Ask | intros e].
    apply outcome_try; [apply Ask | intros e2; apply outcome_ret; exact I].
  - intros [remote|] P; [apply outcome_ret; exact P|].
    eapply outcome_bind; [apply outcome_execa|].
    intros r _. rewrite pick_ret. apply outcome_ret, pickRemote_truthy.
Qed.

(** X4: when the first candidate gives no tracking remote and
    [git remote] succeeds, the answer is [origin] if no remote is
    configured and otherwise one of the configured remotes: [origin] if
    it is among them, else [upstream] if it is, else some other one. *)
Theorem getUpstreamRemote_among_configured
        (H : Host) (cwd : string) (h : History) (r r2 : ExecaResult) :
  execa_oracle H h (upstream_query cwd "main") = Completed r ->
  trackingRemote (stdout r) = None ->
  execa_oracle H (h ++ [EvExec (upstream_query cwd "main") (Completed r)])%list
               (remote_list_cmd cwd) = Completed r2 ->
  failed r2 = false ->
  let remotes := filter truthy (map trim (split (stdout r2) LF)) in
  exists x,
    run (getUpstreamRemote H cwd) h = Ret x /\
    ((remotes = [] /\ x = "origin") \/
     (In x remotes /\
      (In "origin" remotes -> x = "origin") /\
      (~ In "origin" remotes -> In "upstream" remotes -> x = "upstream"))).
Proof.
  intros E Tr E2 F2 remotes.
  exists (pickRemote (stdout r2)). split.
  - unfold run. rewrite (getUpstreamRemote_first_completed H cwd h r E). cbv zeta.
    rewrite Tr, E2, F2. reflexivity.
  - apply pickRemote_cases.
Qed.

(** The theorem on a fork with [origin] and [upstream]. *)
Lemma getUpstreamRemote_among_configured_witness :
  exists x, run (getUpstreamRemote Fixtures.fork_host ".") [] = Ret x /\ x = "origin".
Proof.
  destruct (getUpstreamRemote_among_configured Fixtures.fork_host "." []
              (fail_result 128 "" "fatal: no upstream configured for branch 'main'")
              (ok_result ("origin" ++ LF ++ "upstream"))
              eq_refl eq_refl eq_refl eq_refl)
    as (x & R & [[_ E] | (_ & O & _)]).
  - exists x. split; [exact R | exact E].
  - exists x. split; [exact R | apply O; simpl; tauto].
Defined.

End ListingFacts.

Section RemoteUrls.
Import Git.

Lemma span_stop (p : ascii -> bool) (a : string) (c : ascii) (rest : string) :
  JsString.all p a = true -> p c = false ->
  span p (a ++ String c rest) = (a, String c rest).
Proof.
  intros A C. induction a as [|x a IH]; simpl.
  - rewrite C. reflexivity.
  - simpl in A. apply andb_prop in A as [Px Pa]. rewrite Px, (IH Pa). reflexivity.
Qed.

Lemma prefix_empty (s : string) : String.prefix "" s = true.
Proof. destruct s; reflexivity. Qed.

Lemma startsWith_app (p s : string) : startsWith (p ++ s) p = true.
Proof.
  unfold startsWith. induction p as [|a p IH]; simpl.
  - apply prefix_empty.
  - destruct (ascii_dec a a) as [_|N]; [exact IH | contradiction].
Qed.

(** X5: an SCP-style URL [git@<host>:<path>] whose host is not empty and
    holds no colon parses to that host in lower case, whatever the
    path; so [github.com] is recognised in any letter case. *)
Theorem getRemoteHostname_scp (H : Host) (host rest : string) :
  truthy host = true ->
  JsString.all (not_char ":") host = true ->
  getRemoteHostname H ("git@" ++ host ++ ":" ++ rest) = Some (toLowerCase host) /\
  (toLowerCase host = "github.com" ->
   providerOfUrl H ("git@" ++ host ++ ":" ++ rest) = Some gh).
Proof.
  intros T A.
  assert (E : getRemoteHostname H ("git@" ++ host ++ ":" ++ rest) = Some (toLowerCase host)).
  { unfold getRemoteHostname.
    rewrite (startsWith_app "git@" (host ++ ":" ++ rest)).
    unfold matchScpHost.
    change (drop 4 ("git@" ++ host ++ ":" ++ rest)) with (host ++ String ":" rest)%string.
    rewrite (span_stop (fun c => negb (Ascii.eqb c ":")) host ":" rest A eq_refl).
    rewrite T. pose proof (startsWith_app ":" rest) as S. simpl append in S.
    rewrite S. reflexivity. }
  split; [exact E|].
  intros G. rewrite providerOfUrl_cases, E, G. reflexivity.
Qed.

Lemma getRemoteHostname_scp_witness :
  getRemoteHostname Fixtures.github_host "git@GitHub.COM:user/repo.git" = Some "github.com".
Proof.
  exact (proj1 (getRemoteHostname_scp Fixtures.github_host "GitHub.COM" "user/repo.git"
                  eq_refl eq_refl)).
Defined.

(** X6: an [ssh://<user>@<host>] URL, followed by a slash or a colon,
    parses to its host in lower case when the user part is not empty and
    holds no [@] and the host is not empty and holds no slash or
    colon. *)
Theorem getRemoteHostname_ssh (H : Host) (user host rest : string) (sep : ascii) :
  truthy user = true ->
  JsString.all (not_char "@") user = true ->
  truthy host = true ->
  JsString.all not_slash_colon host = true ->
  not_slash_colon sep = false ->
  getRemoteHostname H ("ssh://" ++ user ++ "@" ++ host ++ String sep rest)
  = Some (toLowerCase host).
Proof.
  intros Tu Au Th Ah S.
  unfold getRemoteHostname.
  change (startsWith ("ssh://" ++ user ++ "@" ++ host ++ String sep rest) "git@") with false.
  cbn iota.
  rewrite (startsWith_app "ssh://" (user ++ "@" ++ host ++ String sep rest)).
  unfold matchSshHost.
  change (drop 6 ("ssh://" ++ user ++ "@" ++ host ++ String sep rest))
    with (user ++ String "@" (host ++ String sep rest))%string.
  rewrite (span_stop (fun c => negb (Ascii.eqb c "@")) user "@" _ Au eq_refl).
  rewrite Tu. pose proof (startsWith_app "@" (host ++ String sep rest)) as P.
  simpl append in P. rewrite P. cbn [andb drop].
  rewrite (span_stop not_slash_colon host sep rest Ah S).
  rewrite Th.
  destruct (span not_slash_colon (user ++ String "@" (host ++ String sep rest))).
  reflexivity.
Qed.

Lemma getRemoteHostname_ssh_witness :
  getRemoteHostname Fixtures.github_host "ssh://git@GitLab.com/user/repo" = Some "gitlab.com".
Proof.
  exact (getRemoteHostname_ssh Fixtures.github_host "git" "GitLab.com" "user/repo" "/"
           eq_refl eq_refl eq_refl eq_refl eq_refl).
Defined.

Lemma lower_char_idempotent (c : ascii) : lower_char (lower_char c) = lower_char c.
Proof.
  destruct c as [[] [] [] [] [] [] [] []]; reflexivity.
Qed.

Lemma toLowerCase_idempotent (s : string) : toLowerCase (toLowerCase s) = toLowerCase s.
Proof.
  induction s as [|c s IH]; simpl; [reflexivity|].
  rewrite lower_char_idempotent, IH. reflexivity.
Qed.

(** X7: a host name that [getRemoteHostname] returns is in lower case,
    for every URL and every answer of the URL parser. *)
Theorem getRemoteHostname_lower_case (H : Host) (remoteUrl hostname : string) :
  getRemoteHostname H remoteUrl = Some hostname ->
  toLowerCase hostname = hostname.
Proof.
  unfold getRemoteHostname.
  destruct (if startsWith remoteUrl "git@" then matchScpHost remoteUrl else None) as [m|].
  - intros [= <-]. apply toLowerCase_idempotent.
  - destruct (if startsWith remoteUrl "ssh://" then matchSshHost remoteUrl else None) as [m|].
    + intros [= <-]. apply toLowerCase_idempotent.
    + destruct (startsWith remoteUrl "http://" || startsWith remoteUrl "https://");
        [|discriminate].
      destruct (url_hostname H remoteUrl) as [m|]; [|discriminate].
      intros [= <-]. apply toLowerCase_idempotent.
Qed.

Lemma getRemoteHostname_lower_case_witness :
  toLowerCase "github.com" = "github.com".
Proof.
  exact (getRemoteHostname_lower_case Fixtures.github_host
           "git@GitHub.COM:user/repo.git" "github.com" eq_refl).
Defined.

End RemoteUrls.

Section RepoName.
Import Git GitQueries.

Lemma afterLastSlash_none (name : string) :
  JsString.all (not_char "/") name = true -> afterLastSlash name = None.
Proof.
  induction name as [|c s IH]; simpl; [reflexivity|].
  intros A. apply andb_prop in A as [C S]. rewrite (IH S).
  unfold not_char in C. destruct (Ascii.eqb c "/"); [discriminate | reflexivity].
Qed.

Lemma afterLastSlash_app (pre name : string) :
  JsString.all (not_char "/") name = true ->
  afterLastSlash (pre ++ String "/" name) = Some name.
Proof.
  intros A. induction pre as [|c p IH]; simpl.
  - rewrite (afterLastSlash_none name A). reflexivity.
  - rewrite IH. reflexivity.
Qed.

Lemma length_app (a b : string) :
  String.length (a ++ b) = String.length a + String.length b.
Proof. induction a as [|c a IH]; simpl; [reflexivity | now rewrite IH]. Qed.

Lemma strip_git_suffix (name : string) :
  truthy name = true ->
  endsWith (name ++ ".git") ".git" = true /\
  Nat.ltb 4 (String.length (name ++ ".git")) = true /\
  dropEnd 4 (name ++ ".git") = name.
Proof.
  intros T. unfold endsWith, dropEnd. rewrite rev_app.
  change (JsString.rev ".git") with "tig.".
  split; [apply startsWith_app|]. split.
  - rewrite length_app. destruct name; [discriminate|]. simpl. apply Nat.ltb_lt. lia.
  - change (drop 4 ("tig." ++ JsString.rev name)) with (JsString.rev name).
    apply rev_involutive.
Qed.

(** The name the pattern takes from a URL: the last path segment,
    without one trailing [.git]. *)
Lemma matchRepoName_segment (pre name : string) :
  truthy name = true ->
  JsString.all (not_char "/") name = true ->
  matchRepoName (pre ++ "/" ++ name ++ ".git") = Some name /\
  (endsWith name ".git" = false -> matchRepoName (pre ++ "/" ++ name) = Some name).
Proof.
  intros T A. unfold matchRepoName. split.
  - change (pre ++ "/" ++ name ++ ".git")%string with (pre ++ String "/" (name ++ ".git"))%string.
    rewrite afterLastSlash_app by (rewrite all_app, A; reflexivity).
    destruct (strip_git_suffix name T) as (E & L & D).
    rewrite E, L, D. destruct name; [discriminate | reflexivity].
  - intros N.
    change (pre ++ "/" ++ name)%string with (pre ++ String "/" name)%string.
    rewrite (afterLastSlash_app pre name A), T, N. reflexivity.
Qed.

(** X8: when the upstream remote's URL ends in [/<name>.git], or in
    [/<name>] with a name that does not itself end in [.git], and the
    name is not empty and holds no slash, [getRepoName] returns that
    name; the repository root is not consulted. *)
Theorem getRepoName_from_url
        (H : Host) (basename : string -> string) (cwd : string) (h h1 : History)
        (remote pre name : string) (r : ExecaResult) :
  getUpstreamRemote H cwd h = (Ret remote, h1) ->
  execa_oracle H h1 (get_url_cmd cwd remote) = Completed r ->
  failed r = false ->
  truthy name = true ->
  JsString.all (not_char "/") name = true ->
  trim (stdout r) = (pre ++ "/" ++ name ++ ".git")%string \/
  (trim (stdout r) = (pre ++ "/" ++ name)%string /\ endsWith name ".git" = false) ->
  getRepoName H basename cwd h =
    (Ret name, (h1 ++ [EvExec (get_url_cmd cwd remote) (Completed r)])%list).
Proof.
  intros U E F T A S.
  assert (M : matchRepoName (trim (stdout r)) = Some name).
  { destruct (matchRepoName_segment pre name T A) as [M1 M2].
    destruct S as [-> | [-> N]]; [exact M1 | exact (M2 N)]. }
  unfold getRepoName, bind at 1, try_catch, bind at 1. rewrite U.
  unfold bind at 1, execa. rewrite E, F. cbn [andb].
  rewrite M, T. reflexivity.
Qed.

Lemma getRepoName_from_url_witness :
  run (getRepoName Fixtures.github_host (fun p => p) ".") [] = Ret "worktree-cli".
Proof.
  unfold run.
  rewrite (getRepoName_from_url Fixtures.github_host (fun p => p) "." []
             [EvExec (upstream_query "." "main") (Completed (ok_result "origin/main"))]
             "origin" "git@github.com:stjuan627" "worktree-cli"
             (ok_result "git@github.com:stjuan627/worktree-cli.git")
             eq_refl eq_refl eq_refl eq_refl eq_refl (or_introl eq_refl)).
  reflexivity.
Defined.

End RepoName.

Section CleanTree.
Import Git GitQueries.

(** X9: on a tree that [isWorktreeClean] reports clean, [stashChanges]
    started from the same state returns [null] after the status query
    alone: nothing is staged, reset or removed. *)
Theorem stashChanges_noop_when_clean
        (H : Host) (cwd : string) (msg : option string) (h : History) :
  run (isWorktreeClean H cwd) h = Ret true ->
  exists r,
    stashChanges H cwd msg h =
      (Ret None, (h ++ [EvExec (status_cmd cwd) (Completed r)])%list).
Proof.
  unfold run, isWorktreeClean, stashChanges, try_catch, bind, execa, console_error, emit, ret.
  destruct (execa_oracle H h (status_cmd cwd)) as [r|m]; cbn -[trim]; [|discriminate].
  rewrite andb_true_r.
  destruct (failed r); cbn -[trim]; [discriminate|].
  destruct (String.eqb_spec (trim (stdout r)) "") as [E|N]; cbn -[trim]; [|discriminate].
  intros _. rewrite E. cbn. exists r. reflexivity.
Qed.

Lemma stashChanges_noop_when_clean_witness :
  exists r,
    stashChanges Fixtures.clean_tree_host "/repo" None [] =
      (Ret None, [EvExec (status_cmd "/repo") (Completed r)]).
Proof.
  exact (stashChanges_noop_when_clean Fixtures.clean_tree_host "/repo" None [] eq_refl).
Defined.

(** [isWorktreeClean] never raises, and a status query that fails
    counts as not clean. *)
Lemma isWorktreeClean_failure (H : Host) (cwd : string) (h : History) :
  match execa_oracle H h (status_cmd cwd) with
  | Completed r => failed r = true
  | SpawnThrow _ => True
  end ->
  run (isWorktreeClean H cwd) h = Ret false.
Proof.
  unfold run, isWorktreeClean, try_catch, bind, execa, console_error, emit, ret.
  destruct (execa_oracle H h (status_cmd cwd)) as [r|m]; cbn -[trim].
  - intros ->. reflexivity.
  - reflexivity.
Qed.

Lemma endsWith_app (a suffix : string) : endsWith (a ++ suffix) suffix = true.
Proof. unfold endsWith. rewrite rev_app. apply startsWith_app. Qed.

Lemma dropEnd_app (a suffix : string) :
  dropEnd (String.length suffix) (a ++ suffix) = a.
Proof.
  unfold dropEnd. rewrite rev_app.
  assert (D : forall x y, drop (String.length x) (x ++ y) = y)
    by (intros x y; induction x as [|c x IH]; simpl; [destruct y; reflexivity | exact IH]).
  assert (L : String.length (JsString.rev suffix) = String.length suffix).
  { induction suffix as [|c s IH]; [reflexivity|].
    rewrite rev_cons, length_app, IH. simpl. lia. }
  rewrite <- L, D. apply rev_involutive.
Qed.

(** X10: when [git rev-parse --git-dir] prints [<dir>/.git], the
    [core.bare] setting is read in [<dir>]; [isMainRepoBare] answers
    [true] exactly when that query ends well and prints [true], and it
    answers [false], without raising, when the query fails. *)
Theorem isMainRepoBare_reads_parent
        (H : Host) (cwd dir : string) (h : History) (g : ExecaResult) :
  execa_oracle H h (git_dir_cmd cwd) = Completed g ->
  failed g = false ->
  stdout g = (dir ++ "/.git")%string ->
  let h1 := (h ++ [EvExec (git_dir_cmd cwd) (Completed g)])%list in
  let o := execa_oracle H h1 (bare_config_cmd dir) in
  exists evs,
    isMainRepoBare H cwd h =
      (Ret match o with
           | Completed b => negb (failed b) && String.eqb (trim (stdout b)) "true"
           | SpawnThrow _ => false
           end,
       (h1 ++ EvExec (bare_config_cmd dir) o :: evs)%list) /\
    forallb only_writes evs = true.
Proof.
  intros E F S h1 o. subst h1 o.
  unfold isMainRepoBare, try_catch, bind, execa, emit, ret.
  rewrite E, F. cbn [andb]. cbv zeta.
  rewrite S, endsWith_app.
  change 5 with (String.length "/.git"). rewrite dropEnd_app.
  destruct (execa_oracle H _ (bare_config_cmd dir)) as [b|m];
    cbn -[trim config_key_missing stderr_or_message].
  - destruct (failed b); cbn -[trim config_key_missing stderr_or_message].
    + destruct (config_key_missing (ExecaError b)).
      * exists []. split; reflexivity.
      * eexists [_]. rewrite <- app_assoc. split; reflexivity.
    + exists []. split; reflexivity.
  - change (config_key_missing (OtherError m)) with false. cbn iota.
    eexists [_]. rewrite <- app_assoc. split; reflexivity.
Qed.

End CleanTree.

Lemma isMainRepoBare_reads_parent_witness :
  run (GitQueries.isMainRepoBare Worlds.plain_repo_host ".") [] = Ret false.
Proof.
  destruct (isMainRepoBare_reads_parent Worlds.plain_repo_host "." "/repo" []
              (ok_result "/repo/.git") eq_refl eq_refl eq_refl) as (evs & E & _).
  unfold run. rewrite E. reflexivity.
Defined.

(* ===================================================================== *)
(** * Properties of the prompts *)
(* ===================================================================== *)

(** What the lookups emit, for any predicate that admits the worktree
    query, [stat], [realpath] and lines on the error stream. *)
Section LookupsEmit.
Variable H : Host.
Variable P : Event -> bool.
Hypothesis P_query : forall cwd o, P (EvExec (Git.worktree_list_cmd cwd) o) = true.
Hypothesis P_err : forall text, P (EvWrite Err text) = true.
Hypothesis P_stat : forall p o, P (EvStat p o) = true.
Hypothesis P_realpath : forall p o, P (EvRealpath p o) = true.

Ltac lookup_step :=
  match goal with
  | |- emits_only _ (if ?b then _ else _) => destruct b
  | |- emits_only _ (match ?x with _ => _ end) => destruct x
  | |- emits_only _ (bind _ _) => apply emits_bind; [|intros ?]
  | |- emits_only _ (try_catch _ _) => apply emits_try; [|intros ?]
  | |- emits_only _ (ret _) => apply emits_ret
  | |- emits_only _ (throw _) => apply emits_throw
  | |- emits_only _ (process_exit _) => apply emits_exit
  | |- emits_only _ (console_error _) => apply emits_emit; apply P_err
  | |- emits_only _ (Cd.stderr_write _) => apply emits_emit; apply P_err
  | |- emits_only _ (execa _ (Git.worktree_list_cmd _)) =>
      apply emits_execa; intros ?; apply P_query
  | |- emits_only _ (stat _ _) => apply emits_stat; intros ?; apply P_stat
  | |- emits_only _ (realpath _ _) => apply emits_realpath; intros ?; apply P_realpath
  end.

Lemma getWorktrees_emits (cwd : string) : emits_only P (Git.getWorktrees H cwd).
Proof. unfold Git.getWorktrees. repeat lookup_step. Qed.

Lemma findWorktreeByBranch_emits (b cwd : string) :
  emits_only P (Git.findWorktreeByBranch H b cwd).
Proof.
  unfold Git.findWorktreeByBranch.
  apply emits_bind; [apply getWorktrees_emits | intros ?; apply emits_ret].
Qed.

Lemma findByRealPath_emits (target : string) (l : list WorktreeInfo) :
  emits_only P (Git.findByRealPath H target l).
Proof.
  induction l as [|wt l IH]; simpl.
  - apply emits_ret.
  - apply emits_bind; [repeat lookup_step|].
    intros p. destruct (String.eqb p target); [apply emits_ret | exact IH].
Qed.

Lemma findWorktreeByPath_emits (t cwd : string) :
  emits_only P (Git.findWorktreeByPath H t cwd).
Proof.
  unfold Git.findWorktreeByPath.
  apply emits_bind; [apply getWorktrees_emits | intros l].
  apply emits_bind; [repeat lookup_step | intros p].
  apply findByRealPath_emits.
Qed.

(** The three resolvers on a token that is not empty. *)
Lemma remove_resolveTarget_emits (t : string) :
  truthy t = true -> emits_only P (Remove.resolveTarget H t).
Proof.
  intros T. unfold Remove.resolveTarget. rewrite T. cbn [negb].
  apply emits_bind.
  - apply emits_try; [|intros ?; apply emits_ret].
    apply emits_bind; [repeat lookup_step | intros d].
    destruct d; [apply findWorktreeByPath_emits | apply emits_ret].
  - intros byPath. apply emits_bind.
    + destruct byPath; [apply emits_ret | apply findWorktreeByBranch_emits].
    + intros x. repeat lookup_step.
Qed.

Lemma cd_resolveTarget_emits (t : string) :
  truthy t = true -> emits_only P (Cd.resolveTarget H t).
Proof.
  intros T. unfold Cd.resolveTarget. rewrite T. cbn [negb].
  apply emits_bind; [repeat lookup_step | intros pathStats].
  apply emits_bind.
  - destruct pathStats as [[|]|]; [| repeat lookup_step | apply emits_ret].
    apply emits_bind; [apply findWorktreeByPath_emits | intros found].
    repeat lookup_step.
  - intros fromPath. destruct fromPath; [apply emits_ret|].
    apply emits_bind; [apply findWorktreeByBranch_emits | intros x].
    repeat lookup_step.
Qed.

Lemma open_resolveTarget_emits (t : string) :
  truthy t = true -> emits_only P (Open.resolveTarget H t).
Proof.
  intros T. unfold Open.resolveTarget. rewrite T. cbn [negb].
  apply emits_bind; [repeat lookup_step | intros pathStats].
  apply emits_bind.
  - destruct pathStats as [[|]|]; [| repeat lookup_step | apply emits_ret].
    apply emits_bind; [apply findWorktreeByPath_emits | intros found].
    repeat lookup_step.
  - intros fromPath. destruct fromPath; [apply emits_ret|].
    apply emits_bind; [apply findWorktreeByBranch_emits | intros x].
    repeat lookup_step.
Qed.

End LookupsEmit.

Section PromptFacts.

Lemma forallb_filter_not_main (l : list WorktreeInfo) :
  forallb (fun wt => negb (isMain wt)) (filter (fun wt => negb (isMain wt)) l) = true.
Proof.
  induction l as [|wt l IH]; simpl; [reflexivity|].
  destruct (negb (isMain wt)) eqn:N; [simpl; rewrite N; exact IH | exact IH].
Qed.

(** X11: whenever [selectWorktree] shows the picker, the list it shows
    is not empty, and with [excludeMain] it holds no main worktree; with
    nothing to choose from no picker is shown. *)
Theorem selectWorktree_fair_choices
        (H : Host) (msg : string) (excludeMain multiSelect : bool) :
  emits_only (fair_choices excludeMain)
             (Tui.selectWorktree H msg excludeMain multiSelect).
Proof.
  unfold Tui.selectWorktree.
  apply emits_bind;
    [apply getWorktrees_emits; intros; reflexivity | intros worktrees].
  destruct (Nat.eqb (List.length worktrees) 0) eqn:L0.
  - apply emits_bind; [apply emits_emit; reflexivity | intros ?; apply emits_ret].
  - cbv zeta.
    set (choices := if excludeMain then filter (fun wt => negb (isMain wt)) worktrees
                    else worktrees).
    destruct (excludeMain && Nat.eqb (List.length choices) 0) eqn:L1.
    + apply emits_bind; [apply emits_emit; reflexivity | intros ?; apply emits_ret].
    + assert (Fair : forall multi o, fair_choices excludeMain (EvSelect msg multi choices o) = true).
      { intros multi o. unfold fair_choices. apply andb_true_intro. split.
        - apply Nat.ltb_lt. subst choices. destruct excludeMain.
          + simpl in L1. apply Nat.eqb_neq in L1. lia.
          + apply Nat.eqb_neq in L0. lia.
        - subst choices. destruct excludeMain; [|reflexivity].
          apply forallb_filter_not_main. }
      destruct multiSelect.
      * apply emits_bind; [apply emits_select; intros o; apply Fair | intros response].
        destruct response as [|wt|[|x l]]; apply emits_ret.
      * apply emits_select. intros o. apply Fair.
Qed.

Lemma showCommands_run (commands : list string) (h : History) :
  Prompts.showCommands commands h =
    (Ret tt, (h ++ map (fun cmd => EvWrite Out ("  $ " ++ cmd)) commands)%list).
Proof.
  revert h; induction commands as [|c l IH]; intros h; simpl.
  - unfold ret. rewrite app_nil_r. reflexivity.
  - unfold bind, console_log, emit. rewrite IH, <- app_assoc. reflexivity.
Qed.

(** X12: with [trust], [confirmCommands] answers [true] without showing
    anything or asking; without it every command is shown, in order,
    before the one question, and the answer is [true] only if the user
    says yes (a cancelled prompt counts as no). *)
Theorem confirmCommands_asks_unless_trusted
        (H : Host) (commands : list string) (title : option string) (h : History) :
  Prompts.confirmCommands H commands title true h = (Ret true, h) /\
  exists o,
    Prompts.confirmCommands H commands title false h =
      (Ret match o with Some b => b | None => false end,
       (h ++ [EvWrite Out match title with
                          | Some t => t
                          | None => "The following commands will be executed:"
                          end;
              EvWrite Out ""]
          ++ map (fun cmd => EvWrite Out ("  $ " ++ cmd)) commands
          ++ [EvWrite Out ""; EvConfirm "Execute these commands?" false o])%list).
Proof.
  split; [reflexivity|].
  unfold Prompts.confirmCommands.
  unfold bind at 1, console_log at 1, emit.
  unfold bind at 1, console_log at 1, emit.
  unfold bind at 1. rewrite showCommands_run.
  unfold bind at 1, console_log at 1, emit.
  unfold Tui.confirm, bind, Tui.prompts_confirm, ret.
  eexists. rewrite <- !app_assoc. cbn [app]. reflexivity.
Qed.

End PromptFacts.

(* ===================================================================== *)
(** * Further properties of the removal *)
(* ===================================================================== *)

Section RemovalGates.
Import Remove.

Lemma emits_rm (P : Event -> bool) (H : Host) (p : string) :
  (forall o, P (EvRm p o) = true) -> emits_only P (rm H p).
Proof.
  intros Pc h. exists [EvRm p (rm_oracle H h p)]. split.
  - unfold rm. destruct (rm_oracle H h p); reflexivity.
  - simpl. rewrite Pc. reflexivity.
Qed.

Lemma emits_confirm (P : Event -> bool) (H : Host) (msg : string) (initial : bool) :
  (forall o, P (EvConfirm msg initial o) = true) -> emits_only P (Tui.confirm H msg initial).
Proof.
  intros Pc. unfold Tui.confirm. apply emits_bind; [|intros ?; apply emits_ret].
  intros h. eexists [_]. split; [reflexivity|]. simpl. rewrite Pc. reflexivity.
Qed.

(** Once the target is resolved, an exit of the rest of the handler is
    the exit of the handler. *)
Lemma handler_exit_after_resolve
      (H : Host) (pathOrBranch : string) (options : Options)
      (h0 h2 h3 : History) (r : ExecaResult) (wt : WorktreeInfo) (code : Z) :
  execa_oracle H h0 inside_work_tree_cmd = Completed r ->
  failed r = false ->
  resolveTarget H pathOrBranch
    (h0 ++ [EvExec inside_work_tree_cmd (Completed r)])%list = (Ret wt, h2) ->
  removeResolved H wt options h2 = (Exit code, h3) ->
  removeWorktreeHandler H pathOrBranch options h0 = (Exit code, h3).
Proof.
  intros Eo Fr Er Ex.
  unfold removeWorktreeHandler, try_catch, bind at 1.
  unfold execa at 1. rewrite Eo, Fr. cbn [andb].
  unfold bind at 1. rewrite Er, Ex. reflexivity.
Qed.

Lemma removeResolved_locked (H : Host) (wt : WorktreeInfo) (h : History) :
  isMain wt = false ->
  locked wt = true ->
  exists evs,
    removeResolved H wt (mkOptions false) h = (Exit 1, (h ++ evs)%list) /\
    forallb only_writes evs = true /\
    In (EvWrite Err "Use --force to remove a locked worktree.") evs.
Proof.
  intros M L. unfold removeResolved. rewrite M, L.
  unfold bind, console_log, console_error, emit, ret, process_exit.
  cbn [force negb].
  destruct (branch wt) as [b|]; [destruct (truthy b)|];
    (eexists; rewrite <- !app_assoc; cbn [app]; split; [reflexivity|];
     split; [reflexivity | simpl; tauto]).
Qed.

(** X13: a locked worktree is not removed without [--force]: when the
    resolved target is locked (and is not the main worktree) and the
    flag is absent, the handler exits with 1 after saying so, having
    run nothing but its look-ups. *)
Theorem removeWorktreeHandler_locked_needs_force
        (H : Host) (pathOrBranch : string)
        (h0 h2 : History) (r : ExecaResult) (wt : WorktreeInfo) :
  execa_oracle H h0 inside_work_tree_cmd = Completed r ->
  failed r = false ->
  resolveTarget H pathOrBranch
    (h0 ++ [EvExec inside_work_tree_cmd (Completed r)])%list = (Ret wt, h2) ->
  isMain wt = false ->
  locked wt = true ->
  exists evs,
    removeWorktreeHandler H pathOrBranch (mkOptions false) h0 = (Exit 1, (h0 ++ evs)%list) /\
    forallb observes_only evs = true /\
    In (EvWrite Err "Use --force to remove a locked worktree.") evs.
Proof.
  intros Eo Fr Er M L.
  destruct (resolveTarget_observes H pathOrBranch
              (h0 ++ [EvExec inside_work_tree_cmd (Completed r)])%list)
    as (ev1 & E1 & P1).
  rewrite Er in E1. simpl in E1. subst h2.
  destruct (removeResolved_locked H wt
              ((h0 ++ [EvExec inside_work_tree_cmd (Completed r)]) ++ ev1)%list M L)
    as (ev2 & E2 & P2 & I2).
  exists (EvExec inside_work_tree_cmd (Completed r) :: ev1 ++ ev2)%list.
  split; [|split].
  - rewrite (handler_exit_after_resolve H pathOrBranch (mkOptions false)
               h0 _ _ r wt 1 Eo Fr Er E2).
    rewrite <- !app_assoc. reflexivity.
  - cbn [forallb]. rewrite forallb_app, P1. cbn [andb observes_only].
    change (Cmd_eqb inside_work_tree_cmd inside_work_tree_cmd) with true. cbn [orb andb].
    apply forallb_forall. intros e Ie.
    rewrite forallb_forall in P2. specialize (P2 e Ie).
    destruct e; try discriminate. reflexivity.
  - right. apply in_or_app. right. exact I2.
Qed.

Example remove_locked_by_branch :
  resolveTarget Worlds.locked_host "feature"
    [EvExec inside_work_tree_cmd (Completed (ok_result "true"))]
  = (Ret Worlds.locked_record,
     [EvExec inside_work_tree_cmd (Completed (ok_result "true"));
      EvStat "feature" (StatErr "ENOENT" "no such file or directory");
      EvExec (Git.worktree_list_cmd ".") (Completed (ok_result Worlds.locked_listing))]).
Proof. reflexivity. Qed.

Lemma removeWorktreeHandler_locked_needs_force_witness :
  run (removeWorktreeHandler Worlds.locked_host "feature" (mkOptions false)) [] = Exit 1.
Proof.
  destruct (removeWorktreeHandler_locked_needs_force Worlds.locked_host "feature"
              [] _ (ok_result "true") Worlds.locked_record
              eq_refl eq_refl remove_locked_by_branch eq_refl eq_refl)
    as (evs & E & _).
  unfold run. rewrite E. reflexivity.
Defined.

Lemma removeResolved_declined (H : Host) (wt : WorktreeInfo) (h : History) :
  isMain wt = false ->
  locked wt = false ->
  stdin_isTTY H = true ->
  (forall hist, confirm_oracle H hist "Are you sure you want to remove this worktree?" false
                <> Some true) ->
  exists evs,
    removeResolved H wt (mkOptions false) h = (Exit 0, (h ++ evs)%list) /\
    forallb observes_only evs = true /\
    In (EvWrite Out "Removal cancelled.") evs.
Proof.
  intros M L T D. unfold removeResolved. rewrite M, L, T.
  unfold Tui.confirm, Tui.prompts_confirm.
  unfold bind, console_log, console_error, emit, ret, process_exit.
  cbn [force negb andb].
  destruct (branch wt) as [b|]; [destruct (truthy b)|];
    match goal with
    | |- context [confirm_oracle H ?hh ?m ?i] =>
        pose proof (D hh) as Dh;
        destruct (confirm_oracle H hh m i) as [[|]|]; [contradiction| |]
    end;
    (cbn [negb]; eexists; rewrite <- !app_assoc; cbn [app]; split; [reflexivity|];
     split; [reflexivity | simpl; tauto]).
Qed.

(** X14: with a terminal attached and no [--force], a user who does not
    say yes to the question (a cancelled prompt included) ends the
    handler with status 0, and nothing has been removed: only the
    look-ups, the question and console lines have happened. *)
Theorem removeWorktreeHandler_declined
        (H : Host) (pathOrBranch : string)
        (h0 h2 : History) (r : ExecaResult) (wt : WorktreeInfo) :
  execa_oracle H h0 inside_work_tree_cmd = Completed r ->
  failed r = false ->
  resolveTarget H pathOrBranch
    (h0 ++ [EvExec inside_work_tree_cmd (Completed r)])%list = (Ret wt, h2) ->
  isMain wt = false ->
  locked wt = false ->
  stdin_isTTY H = true ->
  (forall hist, confirm_oracle H hist "Are you sure you want to remove this worktree?" false
                <> Some true) ->
  exists evs,
    removeWorktreeHandler H pathOrBranch (mkOptions false) h0 = (Exit 0, (h0 ++ evs)%list) /\
    forallb observes_only evs = true /\
    In (EvWrite Out "Removal cancelled.") evs.
Proof.
  intros Eo Fr Er M L T D.
  destruct (resolveTarget_observes H pathOrBranch
              (h0 ++ [EvExec inside_work_tree_cmd (Completed r)])%list)
    as (ev1 & E1 & P1).
  rewrite Er in E1. simpl in E1. subst h2.
  destruct (removeResolved_declined H wt
              ((h0 ++ [EvExec inside_work_tree_cmd (Completed r)]) ++ ev1)%list M L T D)
    as (ev2 & E2 & P2 & I2).
  exists (EvExec inside_work_tree_cmd (Completed r) :: ev1 ++ ev2)%list.
  split; [|split].
  - rewrite (handler_exit_after_resolve H pathOrBranch (mkOptions false)
               h0 _ _ r wt 0 Eo Fr Er E2).
    rewrite <- !app_assoc. reflexivity.
  - cbn [forallb]. rewrite forallb_app, P1, P2. reflexivity.
  - right. apply in_or_app. right. exact I2.
Qed.

Example remove_feature_by_branch :
  resolveTarget Worlds.terminal_host "feature"
    [EvExec inside_work_tree_cmd (Completed (ok_result "true"))]
  = (Ret Fixtures.feature_record,
     [EvExec inside_work_tree_cmd (Completed (ok_result "true"));
      EvStat "feature" (StatErr "ENOENT" "no such file or directory");
      EvExec (Git.worktree_list_cmd ".") (Completed (ok_result Fixtures.two_listing))]).
Proof. reflexivity. Qed.

Lemma removeWorktreeHandler_declined_witness :
  run (removeWorktreeHandler Worlds.terminal_host "feature" (mkOptions false)) [] = Exit 0.
Proof.
  destruct (removeWorktreeHandler_declined Worlds.terminal_host "feature"
              [] _ (ok_result "true") Fixtures.feature_record
              eq_refl eq_refl remove_feature_by_branch eq_refl eq_refl eq_refl
              (fun _ => ltac:(discriminate)))
    as (evs & E & _).
  unfold run. rewrite E. reflexivity.
Defined.

Lemma findWorktreeByBranch_listed (H : Host) (b cwd : string) (h h' : History)
      (wt : WorktreeInfo) :
  Git.findWorktreeByBranch H b cwd h = (Ret (Some wt), h') ->
  exists r,
    execa_oracle H h (Git.worktree_list_cmd cwd) = Completed r /\
    failed r = false /\
    In wt (Git.parseWorktreeList (stdout r)) /\
    h' = (h ++ [EvExec (Git.worktree_list_cmd cwd) (Completed r)])%list.
Proof.
  unfold Git.findWorktreeByBranch, bind. rewrite getWorktrees_run. cbv zeta.
  destruct (execa_oracle H h (Git.worktree_list_cmd cwd)) as [r|m];
    [destruct (failed r) eqn:F|]; unfold ret; try discriminate.
  intros [= Fd <-]. exists r.
  split; [reflexivity|]. split; [exact F|]. split; [|reflexivity].
  apply find_some in Fd. tauto.
Qed.

Lemma findWorktreeByPath_listed (H : Host) (t cwd : string) (h h' : History)
      (wt : WorktreeInfo) :
  Git.findWorktreeByPath H t cwd h = (Ret (Some wt), h') ->
  exists r post,
    execa_oracle H h (Git.worktree_list_cmd cwd) = Completed r /\
    failed r = false /\
    In wt (Git.parseWorktreeList (stdout r)) /\
    h' = (h ++ EvExec (Git.worktree_list_cmd cwd) (Completed r) :: post)%list.
Proof.
  unfold Git.findWorktreeByPath, bind at 1. rewrite getWorktrees_run. cbv zeta.
  destruct (execa_oracle H h (Git.worktree_list_cmd cwd)) as [r|m];
    [destruct (failed r) eqn:F|].
  - unfold bind, try_catch, realpath, ret.
    destruct (realpath_oracle H _ _); cbn; discriminate.
  - intros E. exists r.
    assert (Em : emits_only (fun _ => true)
                   (bind (try_catch (realpath H (path_resolve H [t]))
                            (fun _ => ret (path_resolve H [t])))
                         (fun p => Git.findByRealPath H p (Git.parseWorktreeList (stdout r))))).
    { apply emits_bind.
      - apply emits_try; [apply emits_realpath; reflexivity | intros ?; apply emits_ret].
      - intros p. apply findByRealPath_emits; reflexivity. }
    destruct (Em (h ++ [EvExec (Git.worktree_list_cmd cwd) (Completed r)])%list)
      as (post & Ep & _).
    unfold bind at 1 in E.
    destruct (try_catch _ _ _) as [[p|e|c] h2] eqn:ER in E; try discriminate.
    exists post. split; [reflexivity|]. split; [exact F|]. split.
    + exact (findByRealPath_in _ _ _ _ _ _ E).
    + unfold bind at 1 in Ep. rewrite ER in Ep. rewrite E in Ep. simpl in Ep.
      rewrite Ep, <- app_assoc. reflexivity.
  - unfold bind, try_catch, realpath, ret.
    destruct (realpath_oracle H _ _); cbn; discriminate.
Qed.

(** X17: for a token that is not empty, the record the removal handler
    resolves comes from the listing: during the resolution itself a
    [git worktree list] query ended well, and the record is one of those
    parsed from its output.  So the record has a path that is not
    empty. *)
Theorem resolveTarget_path_nonempty
        (H : Host) (pathOrBranch : string) (h h' : History) (wt : WorktreeInfo) :
  truthy pathOrBranch = true ->
  resolveTarget H pathOrBranch h = (Ret wt, h') ->
  (exists pre r post,
     h' = (h ++ pre ++ EvExec (Git.worktree_list_cmd ".") (Completed r) :: post)%list /\
     execa_oracle H (h ++ pre)%list (Git.worktree_list_cmd ".") = Completed r /\
     failed r = false /\
     In wt (Git.parseWorktreeList (stdout r))) /\
  truthy (path wt) = true.
Proof.
  intros T R.
  assert (L : exists pre r post,
             h' = (h ++ pre ++ EvExec (Git.worktree_list_cmd ".") (Completed r) :: post)%list /\
             execa_oracle H (h ++ pre)%list (Git.worktree_list_cmd ".") = Completed r /\
             failed r = false /\
             In wt (Git.parseWorktreeList (stdout r))).
  { revert R. unfold resolveTarget. rewrite T. cbn [negb].
    unfold bind at 1.
    assert (Em : emits_only (fun _ => true)
                   (try_catch
                      (bind (stat H pathOrBranch)
                         (fun isDirectory =>
                            if isDirectory then Git.findWorktreeByPath H pathOrBranch "."
                            else ret None))
                      (fun _ => ret None))).
    { apply emits_try; [|intros ?; apply emits_ret].
      apply emits_bind; [apply emits_stat; reflexivity|].
      intros d. destruct d; [apply findWorktreeByPath_emits; reflexivity | apply emits_ret]. }
    destruct (Em h) as (pre & Epre & _).
    destruct (try_catch _ _ h) as [[byPath|e|c] h1] eqn:EX; try discriminate.
    simpl in Epre. subst h1.
    destruct byPath as [wt0|].
    - unfold bind, ret. intros [= <- <-].
      unfold try_catch, bind at 1 in EX.
      unfold stat in EX.
      destruct (stat_oracle H h pathOrBranch) as [d|code m]; [|discriminate].
      destruct d; [|discriminate].
      destruct (Git.findWorktreeByPath H pathOrBranch "." _) as [[o|e|c] h2] eqn:EP;
        try discriminate.
      injection EX as -> Eh.
      destruct (findWorktreeByPath_listed _ _ _ _ _ _ EP) as (r & post & Eo & F & I & Eh2).
      exists [EvStat pathOrBranch (StatOk true)], r, post.
      split; [|split; [exact Eo | split; assumption]].
      rewrite <- Eh, Eh2, <- app_assoc. reflexivity.
    - unfold bind at 1.
      destruct (Git.findWorktreeByBranch H pathOrBranch "." (h ++ pre)%list)
        as [[o|e|c] h2] eqn:EB; try discriminate.
      destruct o as [wt1|].
      + unfold ret. intros [= <- <-].
        destruct (findWorktreeByBranch_listed _ _ _ _ _ _ EB) as (r & Eo & F & I & Eh2).
        exists pre, r, []. split; [|split; [exact Eo | split; assumption]].
        rewrite Eh2, <- app_assoc. reflexivity.
      + unfold bind, console_error, emit, process_exit. discriminate. }
  split; [exact L|].
  destruct L as (pre & r & post & _ & _ & _ & I).
  unfold Git.parseWorktreeList in I.
  destruct (negb (truthy (trim (stdout r)))); [destruct I|].
  pose proof (parseBlocks_paths true (Git.blocksOf (stdout r))) as F.
  rewrite Forall_forall in F. exact (F wt I).
Qed.

Lemma resolveTarget_path_nonempty_witness :
  In Fixtures.feature_record (Git.parseWorktreeList Fixtures.two_listing) /\
  truthy (path Fixtures.feature_record) = true.
Proof.
  split; [simpl; tauto|].
  exact (proj2 (resolveTarget_path_nonempty Worlds.terminal_host "feature" _ _ _
                  eq_refl remove_feature_by_branch)).
Defined.

End RemovalGates.

Section RemovalEffects.
Import Remove.
Variable H : Host.

Ltac effect_step :=
  match goal with
  | |- emits_only _ (if _ && false then _ else _) => rewrite andb_false_r
  | |- emits_only _ (if ?b then _ else _) => destruct b
  | |- emits_only _ (match ?x with _ => _ end) => destruct x
  | |- emits_only _ (bind _ _) => apply emits_bind; [|intros ?]
  | |- emits_only _ (try_catch _ _) => apply emits_try; [|intros ?]
  | |- emits_only _ (ret _) => apply emits_ret
  | |- emits_only _ (throw _) => apply emits_throw
  | |- emits_only _ (process_exit _) => apply emits_exit
  | |- emits_only _ (console_log _) => apply emits_emit; reflexivity
  | |- emits_only _ (console_error _) => apply emits_emit; reflexivity
  | |- emits_only _ (withSpinner _ _ _) => unfold withSpinner
  | |- emits_only _ (execa _ _) => apply emits_execa; intros ?; reflexivity
  | |- emits_only _ (stat _ _) => apply emits_stat; intros ?; reflexivity
  | |- emits_only _ (rm _ _) => apply emits_rm; intros ?; reflexivity
  | |- emits_only _ (Tui.confirm _ _ _) => apply emits_confirm; intros ?; reflexivity
  end.

Lemma removeResolved_forced_unattended (wt : WorktreeInfo) :
  stdin_isTTY H = false ->
  emits_only no_prompt (removeResolved H wt (mkOptions true)).
Proof.
  intros T. unfold removeResolved. rewrite T. cbn [force negb andb].
  repeat effect_step.
Qed.

(** X15: [wt remove <token> --force] without a terminal never asks
    anything: no picker and no question is shown in any world, whatever
    the token resolves to and however the removal goes. *)
Theorem removeWorktreeHandler_forced_unattended_never_prompts (pathOrBranch : string) :
  truthy pathOrBranch = true ->
  stdin_isTTY H = false ->
  emits_only no_prompt (removeWorktreeHandler H pathOrBranch (mkOptions true)).
Proof.
  intros Tk T. unfold removeWorktreeHandler.
  apply emits_try; [|intros e; repeat effect_step].
  apply emits_bind; [repeat effect_step | intros _].
  apply emits_bind.
  - apply remove_resolveTarget_emits; try (intros; reflexivity). exact Tk.
  - intros wt. apply removeResolved_forced_unattended. exact T.
Qed.

End RemovalEffects.

Lemma removeWorktreeHandler_forced_unattended_never_prompts_witness :
  emits_only no_prompt
    (Remove.removeWorktreeHandler Worlds.removing_host "feature" (Remove.mkOptions true)).
Proof.
  exact (removeWorktreeHandler_forced_unattended_never_prompts
           Worlds.removing_host "feature" eq_refl eq_refl).
Defined.

Example remove_feature_forced :
  Remove.removeWorktreeHandler Worlds.removing_host "feature" (Remove.mkOptions true) [] =
  (Ret tt,
   [EvExec Remove.inside_work_tree_cmd (Completed (ok_result "true"));
    EvStat "feature" (StatErr "ENOENT" "no such file or directory");
    EvExec (Git.worktree_list_cmd ".") (Completed (ok_result Fixtures.two_listing));
    EvWrite Out "Worktree to remove:";
    EvWrite Out "  Branch: feature";
    EvWrite Out "  Path: /repo/wt";
    EvWrite Out "Removing worktree: /repo/wt";
    EvExec (Remove.worktree_remove_cmd true "/repo/wt") (Completed (ok_result ""));
    EvWrite Out "Git worktree metadata removed.";
    EvStat "/repo/wt" (StatOk true);
    EvRm "/repo/wt" None;
    EvWrite Out "Deleted folder /repo/wt";
    EvWrite Out "Worktree removed successfully!"]).
Proof. reflexivity. Qed.

Section RemovalOrder.
Import Remove.

Lemma list_string_eqb_eq (a b : list string) : list_string_eqb a b = true -> a = b.
Proof. unfold list_string_eqb. destruct (list_eq_dec string_dec a b); [auto | discriminate]. Qed.

Lemma list_string_eqb_refl (a : list string) : list_string_eqb a a = true.
Proof. unfold list_string_eqb. destruct (list_eq_dec string_dec a a); [auto | contradiction]. Qed.

Lemma Cmd_eqb_eq (a b : Cmd) : Cmd_eqb a b = true -> a = b.
Proof.
  unfold Cmd_eqb. destruct a as [f1 a1 c1 r1 s1], b as [f2 a2 c2 r2 s2]; simpl.
  intros E.
  apply andb_prop in E as [E Es]. apply andb_prop in E as [E Er].
  apply andb_prop in E as [E Ec]. apply andb_prop in E as [Ef Ea].
  apply String.eqb_eq in Ef. apply list_string_eqb_eq in Ea.
  apply Bool.eqb_prop in Er. apply Bool.eqb_prop in Es.
  assert (c1 = c2).
  { destruct c1, c2; simpl in Ec; try discriminate; [|reflexivity].
    apply String.eqb_eq in Ec. congruence. }
  congruence.
Qed.

Lemma Cmd_eqb_refl (a : Cmd) : Cmd_eqb a a = true.
Proof.
  unfold Cmd_eqb. rewrite String.eqb_refl, list_string_eqb_refl, !Bool.eqb_reflx.
  destruct (opt_cwd a); simpl; [rewrite String.eqb_refl|]; reflexivity.
Qed.

Lemma removed_path_sound (e : Event) (p : string) :
  removed_path e = Some p ->
  exists forced r, e = EvExec (worktree_remove_cmd forced p) (Completed r) /\ failed r = false.
Proof.
  destruct e as [c [r|m]| | | | | |]; try discriminate.
  unfold removed_path. destruct (failed r) eqn:F; [discriminate|].
  destruct (List.rev (args c)) as [|q l]; [discriminate|].
  destruct (Cmd_eqb c (worktree_remove_cmd false q)) eqn:E1.
  - intros [= <-]. apply Cmd_eqb_eq in E1. subst c. exists false, r. auto.
  - destruct (Cmd_eqb c (worktree_remove_cmd true q)) eqn:E2; [|discriminate].
    intros [= <-]. apply Cmd_eqb_eq in E2. subst c. exists true, r. auto.
Qed.

Lemma removed_path_complete (forced : bool) (p : string) (r : ExecaResult) :
  failed r = false ->
  removed_path (EvExec (worktree_remove_cmd forced p) (Completed r)) = Some p.
Proof.
  intros F. unfold removed_path. rewrite F.
  destruct forced; cbn [worktree_remove_cmd git args app List.rev].
  - rewrite (Cmd_eqb_refl (worktree_remove_cmd true p)), orb_true_r. reflexivity.
  - rewrite (Cmd_eqb_refl (worktree_remove_cmd false p)). reflexivity.
Qed.

Lemma existsb_incl (p : string) (a b : list string) :
  (forall x, In x a -> In x b) ->
  existsb (String.eqb p) a = true -> existsb (String.eqb p) b = true.
Proof.
  intros I E. apply existsb_exists in E as (x & Ix & Ex).
  apply existsb_exists. exists x. auto.
Qed.

Lemma rm_guarded_mono (evs : list Event) (a b : list string) :
  (forall x, In x a -> In x b) ->
  rm_guarded a evs = true -> rm_guarded b evs = true.
Proof.
  revert a b; induction evs as [|e evs IH]; intros a b I G; [reflexivity|].
  cbn [rm_guarded] in *. apply andb_prop in G as [G1 G2].
  apply andb_true_intro. split.
  - destruct e; auto. eapply existsb_incl; eauto.
  - eapply IH; [|exact G2].
    destruct (removed_path e); [|exact I].
    intros x [<-|Ix]; [left; reflexivity | right; auto].
Qed.

(** With [p] among the removed paths, events that [rm] nothing but [p]
    are in order. *)
Lemma rm_guarded_of (p : string) (evs : list Event) (removed : list string) :
  In p removed ->
  forallb (rm_of p) evs = true ->
  rm_guarded removed evs = true.
Proof.
  revert removed; induction evs as [|e evs IH]; intros removed I F; [reflexivity|].
  cbn [forallb] in F. apply andb_prop in F as [Fe F].
  cbn [rm_guarded]. apply andb_true_intro. split.
  - destruct e; auto. simpl in Fe. apply String.eqb_eq in Fe. subst.
    apply existsb_exists. exists p. split; [exact I | apply String.eqb_refl].
  - apply IH; [|exact F]. destruct (removed_path e); [right|]; exact I.
Qed.

Lemma no_rm_rm_of (p : string) (evs : list Event) :
  forallb no_rm evs = true -> forallb (rm_of p) evs = true.
Proof.
  intros F. apply forallb_forall. intros e Ie.
  rewrite forallb_forall in F. specialize (F e Ie). destruct e; auto; discriminate.
Qed.

(** Events without [rm] keep the order, whatever follows in order. *)
Lemma rm_guarded_app (e1 e2 : list Event) (removed : list string) :
  forallb no_rm e1 = true ->
  rm_guarded removed e2 = true ->
  rm_guarded removed (e1 ++ e2) = true.
Proof.
  revert removed; induction e1 as [|e l IH]; intros removed F G; [exact G|].
  cbn [forallb] in F. apply andb_prop in F as [Fe F].
  cbn [app rm_guarded]. apply andb_true_intro. split.
  - destruct e; auto; discriminate.
  - apply IH; [exact F|]. eapply rm_guarded_mono; [|exact G].
    destruct (removed_path e); [intros x Ix; right; exact Ix | auto].
Qed.

(** Events without [rm] among which [p] was removed, followed by events
    that [rm] nothing but [p], are in order. *)
Lemma rm_guarded_after (p : string) (e1 e2 : list Event) (removed : list string) :
  forallb no_rm e1 = true ->
  (exists e, In e e1 /\ removed_path e = Some p) ->
  forallb (rm_of p) e2 = true ->
  rm_guarded removed (e1 ++ e2) = true.
Proof.
  revert removed; induction e1 as [|e l IH]; intros removed F (x & Ix & Rx) F2.
  - destruct Ix.
  - cbn [forallb] in F. apply andb_prop in F as [Fe F].
    cbn [app rm_guarded]. apply andb_true_intro. split.
    + destruct e; auto; discriminate.
    + destruct Ix as [<-|Ix].
      * rewrite Rx. apply (rm_guarded_of p); [left; reflexivity|].
        rewrite forallb_app, (no_rm_rm_of p l F), F2. reflexivity.
      * apply IH; eauto.
Qed.

Lemma rm_guarded_sound (evs : list Event) (removed : list string) :
  rm_guarded removed evs = true ->
  forall pre p o post,
    evs = (pre ++ EvRm p o :: post)%list ->
    In p removed \/ exists e, In e pre /\ removed_path e = Some p.
Proof.
  revert removed; induction evs as [|x evs IH]; intros removed G pre p o post E.
  - destruct pre; discriminate.
  - cbn [rm_guarded] in G. apply andb_prop in G as [G1 G2].
    destruct pre as [|y pre]; simpl in E; injection E as -> ->.
    + left. apply existsb_exists in G1 as (q & Iq & Eq).
      apply String.eqb_eq in Eq. subst q. exact Iq.
    + destruct (IH _ G2 pre p o post eq_refl) as [I | (e & Ie & Re)].
      * destruct (removed_path y) eqn:Ry.
        -- destruct I as [<-|I]; [right; exists y; split; [left; reflexivity | exact Ry] | left; exact I].
        -- left; exact I.
      * right. exists e. split; [right; exact Ie | exact Re].
Qed.

End RemovalOrder.

Section RemovalOrderMain.
Import Remove.
Variable H : Host.

Lemma order_bind_neutral {A B} (m : M A) (k : A -> M B) :
  emits_only no_rm m -> (forall a, rm_in_order (k a)) -> rm_in_order (bind m k).
Proof.
  intros Hm Hk h. unfold bind.
  destruct (Hm h) as (e1 & E1 & P1).
  destruct (m h) as [[a|e|c] h1]; simpl in E1; subst h1.
  - destruct (Hk a (h ++ e1)%list) as (e2 & E2 & P2).
    exists (e1 ++ e2)%list. rewrite E2, app_assoc. split; [reflexivity|].
    apply rm_guarded_app; assumption.
  - exists e1. split; [reflexivity|].
    rewrite <- (app_nil_r e1). apply rm_guarded_app; auto.
  - exists e1. split; [reflexivity|].
    rewrite <- (app_nil_r e1). apply rm_guarded_app; auto.
Qed.

Lemma order_bind_removal {A B} (p : string) (m : M A) (k : A -> M B) :
  removes_then_returns p m ->
  (forall a, emits_only (rm_of p) (k a)) ->
  rm_in_order (bind m k).
Proof.
  intros Hm Hk h. unfold bind.
  destruct (Hm h) as (res & e1 & E1 & P1 & R1). rewrite E1.
  destruct res as [a|e|c].
  - destruct (Hk a (h ++ e1)%list) as (e2 & E2 & P2).
    exists (e1 ++ e2)%list. rewrite E2, app_assoc. split; [reflexivity|].
    apply (rm_guarded_after p); auto. apply (R1 a eq_refl).
  - exists e1. split; [reflexivity|].
    rewrite <- (app_nil_r e1). apply rm_guarded_app; auto.
  - exists e1. split; [reflexivity|].
    rewrite <- (app_nil_r e1). apply rm_guarded_app; auto.
Qed.

Ltac removal_cases :=
  repeat match goal with
         | |- context [execa_oracle H ?h ?c] =>
             let r := fresh "r" in
             let m := fresh "m" in
             destruct (execa_oracle H h c) as [r|m]; cbn -[stderr_includes removed_path]
         | |- context [failed ?r] =>
             let F := fresh "F" in
             destruct (failed r) eqn:F; cbn -[stderr_includes removed_path]
         | |- context [stderr_includes ?e ?s] =>
             destruct (stderr_includes e s); cbn -[stderr_includes removed_path]
         | |- context [confirm_oracle H ?h ?m ?i] =>
             destruct (confirm_oracle H h m i) as [[|]|]; cbn -[stderr_includes removed_path]
         end.

(** The removal step of the handler, with its forced second attempt. *)
Lemma removal_phase (p : string) (forced : bool) :
  removes_then_returns p
    (try_catch
       (withSpinner ("Removing worktree: " ++ p)
          (execa H (worktree_remove_cmd forced p) ;; ret tt)
          "Git worktree metadata removed.")
       (fun removeError =>
          if stderr_includes removeError "modified or untracked files" && negb forced then
            console_log "Worktree contains modified or untracked files." ;;
            forceRemove <- Tui.confirm H
              "Do you want to force remove this worktree (this may lose changes)?" false ;;
            if forceRemove then
              withSpinner ("Force removing worktree: " ++ p)
                (execa H (worktree_remove_cmd true p) ;; ret tt)
                "Git worktree metadata force removed."
            else
              console_log "Removal cancelled." ;;
              process_exit 0
          else throw removeError)).
Proof.
  intros h.
  unfold try_catch, withSpinner, Tui.confirm, Tui.prompts_confirm.
  unfold bind, execa, console_log, emit, ret, process_exit, throw.
  destruct forced; cbn -[stderr_includes removed_path]; removal_cases.
  all: eexists; eexists; (split; [rewrite <- ?app_assoc; cbn [app]; reflexivity|]).
  all: split; [reflexivity|].
  all: intros a Ea; try discriminate.
  all: match goal with
       | Fr : failed ?r = false |- _ =>
           (exists (EvExec (worktree_remove_cmd true p) (Completed r));
            split; [simpl; tauto | apply removed_path_complete; exact Fr])
           || (exists (EvExec (worktree_remove_cmd false p) (Completed r));
               split; [simpl; tauto | apply removed_path_complete; exact Fr])
       end.
Qed.

Ltac order_step :=
  match goal with
  | |- emits_only _ (if ?b then _ else _) => destruct b
  | |- emits_only _ (match ?x with _ => _ end) => destruct x
  | |- emits_only _ (bind _ _) => apply emits_bind; [|intros ?]
  | |- emits_only _ (try_catch _ _) => apply emits_try; [|intros ?]
  | |- emits_only _ (ret _) => apply emits_ret
  | |- emits_only _ (throw _) => apply emits_throw
  | |- emits_only _ (process_exit _) => apply emits_exit
  | |- emits_only _ (console_log _) => apply emits_emit; reflexivity
  | |- emits_only _ (console_error _) => apply emits_emit; reflexivity
  | |- emits_only _ (withSpinner _ _ _) => unfold withSpinner
  | |- emits_only _ (deleteBranchStep _ _) => unfold deleteBranchStep
  | |- emits_only _ (execa _ _) => apply emits_execa; intros ?; reflexivity
  | |- emits_only _ (stat _ _) => apply emits_stat; intros ?; reflexivity
  | |- emits_only _ (rm _ _) => apply emits_rm; intros ?; apply String.eqb_refl
  | |- emits_only _ (Tui.confirm _ _ _) => apply emits_confirm; intros ?; reflexivity
  end.

Lemma removeResolved_rm_in_order (wt : WorktreeInfo) (options : Options) :
  rm_in_order (removeResolved H wt options).
Proof.
  unfold removeResolved. cbv zeta.
  apply order_bind_neutral; [repeat order_step | intros _].
  apply order_bind_neutral; [repeat order_step | intros _].
  apply order_bind_neutral; [repeat order_step | intros _].
  apply order_bind_neutral; [repeat order_step | intros _].
  apply order_bind_neutral; [repeat order_step | intros _].
  apply order_bind_neutral; [repeat order_step | intros _].
  apply (order_bind_removal (path wt)); [apply removal_phase | intros _].
  repeat order_step.
Qed.

(** X16: the handler deletes a directory only after the removal of that
    very path from the repository ended well: before every [rm] of a
    path in its events stands a [git worktree remove] of the same path,
    forced or not, that did not fail. *)
Theorem removeWorktreeHandler_rm_after_removal
        (pathOrBranch : string) (options : Options) (h : History) :
  exists evs,
    trace (removeWorktreeHandler H pathOrBranch options) h = (h ++ evs)%list /\
    forall pre p o post,
      evs = (pre ++ EvRm p o :: post)%list ->
      exists forced r,
        In (EvExec (worktree_remove_cmd forced p) (Completed r)) pre /\ failed r = false.
Proof.
  assert (G : rm_in_order (removeWorktreeHandler H pathOrBranch options)).
  { unfold removeWorktreeHandler. intros h0. unfold try_catch.
    assert (B : rm_in_order (execa H inside_work_tree_cmd ;;
                             targetWorktree <- resolveTarget H pathOrBranch ;;
                             removeResolved H targetWorktree options)).
    { apply order_bind_neutral; [repeat order_step | intros _].
      apply order_bind_neutral; [|intros wt; apply removeResolved_rm_in_order].
      intros hh. destruct (resolveTarget_observes H pathOrBranch hh) as (evs & E & P).
      exists evs. split; [exact E|].
      apply forallb_forall. intros e Ie. rewrite forallb_forall in P.
      specialize (P e Ie). destruct e; auto; discriminate. }
    destruct (B h0) as (e1 & E1 & G1).
    destruct ((execa H inside_work_tree_cmd ;;
               targetWorktree <- resolveTarget H pathOrBranch ;;
               removeResolved H targetWorktree options) h0) as [[a|e|c] h1];
      simpl in E1; subst h1.
    - exists e1. auto.
    - unfold bind, console_error, emit, process_exit.
      exists (e1 ++ [EvWrite Err ("Failed to remove worktree: " ++ error_message e)])%list.
      cbn [snd]. rewrite app_assoc. split; [reflexivity|].
      clear - G1. revert G1. generalize (@nil string).
      induction e1 as [|x l IH]; intros removed G; [reflexivity|].
      cbn [app rm_guarded] in *. apply andb_prop in G as [G1 G2].
      rewrite G1. apply IH. exact G2.
    - exists e1. auto. }
  destruct (G h) as (evs & E & Gd).
  exists evs. split; [exact E|].
  intros pre p o post Ev.
  destruct (rm_guarded_sound evs [] Gd pre p o post Ev) as [[] | (e & Ie & Re)].
  destruct (removed_path_sound e p Re) as (forced & r & -> & F).
  exists forced, r. auto.
Qed.

End RemovalOrderMain.

(* ===================================================================== *)
(** * Properties of [cd] and [open] *)
(* ===================================================================== *)

Section PathPrinting.
Variable H : Host.

Lemma stdout_texts_app (a b : list Event) :
  stdout_texts (a ++ b) = (stdout_texts a ++ stdout_texts b)%list.
Proof.
  induction a as [|e a IH]; [reflexivity|].
  destruct e as [| | | | | |[|] t]; simpl; rewrite ?IH; reflexivity.
Qed.

Lemma quiet_no_stdout (evs : list Event) :
  forallb quiet_lookup evs = true -> stdout_texts evs = [].
Proof.
  induction evs as [|e evs IH]; [reflexivity|].
  cbn [forallb]. intros F. apply andb_prop in F as [Fe F].
  destruct e as [| | | | | |[|] t]; simpl; auto. discriminate.
Qed.

Lemma prints_bind_quiet {A B} (m : M A) (k : A -> M B) :
  emits_only quiet_lookup m ->
  (forall a, prints_path_on_return (k a)) ->
  prints_path_on_return (bind m k).
Proof.
  intros Hm Hk h. unfold bind.
  destruct (Hm h) as (e1 & E1 & P1).
  destruct (m h) as [[a|e|c] h1]; simpl in E1; subst h1.
  - destruct (Hk a (h ++ e1)%list) as (res & e2 & E2 & Q).
    exists res, (e1 ++ e2)%list. rewrite E2, app_assoc. split; [reflexivity|].
    rewrite stdout_texts_app, (quiet_no_stdout _ P1). cbn [app].
    destruct res; auto.
    destruct Q as (p & d & S & I). exists p, d. split; [exact S|].
    apply in_or_app. right. exact I.
  - exists (Throw e), e1. split; [reflexivity | apply quiet_no_stdout, P1].
  - exists (Exit c), e1. split; [reflexivity | apply quiet_no_stdout, P1].
Qed.

Lemma prints_try {A} (m : M A) (handler : JsError -> M A) :
  prints_path_on_return m ->
  (forall e h, exists c text, handler e h = (Exit c, (h ++ [EvWrite Err text])%list)) ->
  prints_path_on_return (try_catch m handler).
Proof.
  intros Hm Hk h. unfold try_catch.
  destruct (Hm h) as (res & e1 & E1 & Q). rewrite E1.
  destruct res as [a|e|c].
  - exists (Ret a), e1. auto.
  - destruct (Hk e (h ++ e1)%list) as (c & text & ->).
    exists (Exit c), (e1 ++ [EvWrite Err text])%list. rewrite app_assoc.
    split; [reflexivity|]. rewrite stdout_texts_app, Q. reflexivity.
  - exists (Exit c), e1. auto.
Qed.

(** The check that the resolved path still exists, followed by the
    line on standard output. *)
Lemma verify_then_print (targetPath : string) :
  prints_path_on_return
    (try_catch
       (stat H targetPath ;; ret tt)
       (fun err =>
          if negb (Cd.isEnoent err) then throw err
          else
            Cd.stderr_write ("The worktree path " ++ quoted targetPath
                             ++ " no longer exists." ++ LF) ;;
            Cd.stderr_write ("The worktree may have been removed. Run 'git worktree prune' to clean up." ++ LF) ;;
            process_exit 1) ;;
     Cd.stdout_write (targetPath ++ LF)).
Proof.
  intros h.
  unfold try_catch, bind, stat, Cd.stderr_write, Cd.stdout_write, emit, ret,
    process_exit, throw.
  destruct (stat_oracle H h targetPath) as [d|code msg]; cbn -[String.eqb].
  - eexists; eexists. rewrite <- app_assoc. split; [reflexivity|].
    exists targetPath, d. split; [reflexivity | simpl; tauto].
  - destruct (String.eqb code "ENOENT"); cbn -[String.eqb].
    + eexists; eexists. rewrite <- !app_assoc. split; reflexivity.
    + eexists; eexists. split; reflexivity.
Qed.

Ltac quiet_step :=
  match goal with
  | |- emits_only _ (if ?b then _ else _) => destruct b
  | |- emits_only _ (match ?x with _ => _ end) => destruct x
  | |- emits_only _ (bind _ _) => apply emits_bind; [|intros ?]
  | |- emits_only _ (try_catch _ _) => apply emits_try; [|intros ?]
  | |- emits_only _ (ret _) => apply emits_ret
  | |- emits_only _ (throw _) => apply emits_throw
  | |- emits_only _ (process_exit _) => apply emits_exit
  | |- emits_only _ (console_log _) => apply emits_emit; reflexivity
  | |- emits_only _ (console_error _) => apply emits_emit; reflexivity
  | |- emits_only _ (Cd.stderr_write _) => apply emits_emit; reflexivity
  | |- emits_only _ (Cd.stdout_write _) => apply emits_emit; reflexivity
  | |- emits_only _ (execa _ _) => apply emits_execa; intros ?; reflexivity
  | |- emits_only _ (stat _ _) => apply emits_stat; intros ?; reflexivity
  | |- emits_only _ (realpath _ _) => apply emits_realpath; intros ?; reflexivity
  | |- emits_only _ (Tui.prompts_select _ _ _ _) => apply emits_select; intros ?; reflexivity
  | |- emits_only _ (Tui.selectWorktree _ _ _ _) => unfold Tui.selectWorktree
  | |- emits_only _ (Git.getWorktrees _ _) =>
      apply getWorktrees_emits; intros; reflexivity
  | |- emits_only _ (Git.findWorktreeByPath _ _ _) =>
      apply findWorktreeByPath_emits; intros; reflexivity
  | |- emits_only _ (Git.findWorktreeByBranch _ _ _) =>
      apply findWorktreeByBranch_emits; intros; reflexivity
  end.

Lemma cd_resolveTarget_no_child (t : string) :
  emits_only no_terminal_child (Cd.resolveTarget H t).
Proof. unfold Cd.resolveTarget. repeat quiet_step. Qed.

Lemma open_resolveTarget_no_child (t : string) :
  emits_only no_terminal_child (Open.resolveTarget H t).
Proof. unfold Open.resolveTarget. repeat quiet_step. Qed.

(** X18: [wt cd --print] never starts a subshell, whatever the token;
    and for a token that is not empty, standard output carries one line,
    the path that was found to exist, exactly when the handler returns,
    and nothing at all when it exits. *)
Theorem cdWorktreeHandler_print (pathOrBranch : string) :
  emits_only no_terminal_child (Cd.cdWorktreeHandler H pathOrBranch (Cd.mkOptions true)) /\
  (truthy pathOrBranch = true ->
   prints_path_on_return (Cd.cdWorktreeHandler H pathOrBranch (Cd.mkOptions true))).
Proof.
  split.
  - unfold Cd.cdWorktreeHandler. cbn [Cd.print].
    apply emits_try; [|intros e; repeat quiet_step].
    apply emits_bind; [repeat quiet_step | intros gitCheck].
    apply emits_bind; [repeat quiet_step | intros _].
    apply emits_bind; [apply cd_resolveTarget_no_child | intros wt].
    repeat quiet_step.
  - intros T. unfold Cd.cdWorktreeHandler. cbn [Cd.print].
    apply prints_try.
    + apply prints_bind_quiet; [repeat quiet_step | intros gitCheck].
      apply prints_bind_quiet; [repeat quiet_step | intros _].
      apply prints_bind_quiet;
        [apply cd_resolveTarget_emits; try (intros; reflexivity); exact T | intros wt].
      apply verify_then_print.
    + intros e h. eexists; eexists. reflexivity.
Qed.

Section OpenSkipping.
Variable config : Open.EditorConfig.

(** X22: when the configured editor is one to skip and no [-e] is
    given, [wt open] starts no editor, whatever the token; and for a
    token that is not empty, standard output carries one line, the path
    that was found to exist, exactly when the handler returns. *)
Theorem openWorktreeHandler_skip_editor (pathOrBranch : string) :
  Open.shouldSkipEditor config (Open.getDefaultEditor config) = true ->
  emits_only no_terminal_child
    (Open.openWorktreeHandler H config pathOrBranch (Open.mkOptions None)) /\
  (truthy pathOrBranch = true ->
   prints_path_on_return
     (Open.openWorktreeHandler H config pathOrBranch (Open.mkOptions None))).
Proof.
  intros S. split.
  - unfold Open.openWorktreeHandler. cbn [Open.editor]. cbv zeta. rewrite S.
    apply emits_try; [|intros e; repeat quiet_step].
    apply emits_bind; [repeat quiet_step | intros gitCheck].
    apply emits_bind; [repeat quiet_step | intros _].
    apply emits_bind; [apply open_resolveTarget_no_child | intros wt].
    repeat quiet_step.
  - intros T. unfold Open.openWorktreeHandler. cbn [Open.editor]. cbv zeta. rewrite S.
    apply prints_try.
    + apply prints_bind_quiet; [repeat quiet_step | intros gitCheck].
      apply prints_bind_quiet; [repeat quiet_step | intros _].
      apply prints_bind_quiet;
        [apply open_resolveTarget_emits; try (intros; reflexivity); exact T | intros wt].
      apply verify_then_print.
    + intros e h. eexists; eexists. reflexivity.
Qed.

End OpenSkipping.

End PathPrinting.

Section PathPrintingRuns.

Lemma cdWorktreeHandler_print_witness :
  prints_path_on_return
    (Cd.cdWorktreeHandler Fixtures.clone_host "feature" (Cd.mkOptions true)).
Proof.
  exact (proj2 (cdWorktreeHandler_print Fixtures.clone_host "feature") eq_refl).
Defined.

Example cd_print_feature :
  Cd.cdWorktreeHandler Fixtures.clone_host "feature" (Cd.mkOptions true) [] =
  (Ret tt,
   [EvExec (git_noreject ["rev-parse"; "--is-inside-work-tree"]) (Completed (ok_result "true"));
    EvStat "feature" (StatErr "ENOENT" "no such file or directory");
    EvExec (Git.worktree_list_cmd ".") (Completed (ok_result Fixtures.two_listing));
    EvStat "/repo/wt" (StatOk true);
    EvWrite Out ("/repo/wt" ++ LF)]).
Proof. reflexivity. Qed.

Lemma openWorktreeHandler_skip_editor_witness :
  prints_path_on_return
    (Open.openWorktreeHandler Fixtures.clone_host Configs.skipping "feature"
       (Open.mkOptions None)).
Proof.
  exact (proj2 (openWorktreeHandler_skip_editor Fixtures.clone_host Configs.skipping
                  "feature" eq_refl) eq_refl).
Defined.

End PathPrintingRuns.

Section Resolvers.
Variable H : Host.

Ltac resolver_cases :=
  repeat match goal with
         | |- context [stat_oracle H ?h ?p] =>
             destruct (stat_oracle H h p) as [[|]|? ?]; cbn -[String.eqb]
         | |- context [String.eqb ?c "ENOENT"] =>
             destruct (String.eqb c "ENOENT"); cbn -[String.eqb]
         | |- context [Git.findWorktreeByPath H ?t ?c ?h] =>
             destruct (Git.findWorktreeByPath H t c h) as [[[?|]|?|?] ?]; cbn -[String.eqb]
         | |- context [Git.findWorktreeByBranch H ?t ?c ?h] =>
             destruct (Git.findWorktreeByBranch H t c h) as [[[?|]|?|?] ?]; cbn -[String.eqb]
         end.

(** X20: on a token that is not empty, the resolvers of [open] and of
    [cd] give the same answer in every world: the same record, the same
    exit status or the same error. *)
Theorem open_cd_resolve_alike (pathOrBranch : string) (h : History) :
  truthy pathOrBranch = true ->
  run (Open.resolveTarget H pathOrBranch) h = run (Cd.resolveTarget H pathOrBranch) h.
Proof.
  intros T. unfold run, Open.resolveTarget, Cd.resolveTarget. rewrite T. cbn [negb].
  unfold bind, try_catch, stat, ret, throw, process_exit, Cd.stderr_write, emit.
  resolver_cases; reflexivity.
Qed.

Lemma getWorktrees_returns_always (cwd : string) (h : History) :
  exists l h', Git.getWorktrees H cwd h = (Ret l, h').
Proof.
  rewrite getWorktrees_run. cbv zeta.
  destruct (execa_oracle H h (Git.worktree_list_cmd cwd)) as [r|m];
    [destruct (failed r)|]; eexists; eexists; reflexivity.
Qed.

Lemma findByRealPath_returns_always (target : string) (l : list WorktreeInfo) (h : History) :
  exists o h', Git.findByRealPath H target l h = (Ret o, h').
Proof.
  revert h; induction l as [|wt l IH]; intros h; cbn [Git.findByRealPath].
  - eexists; eexists; reflexivity.
  - unfold bind at 1, try_catch, realpath, ret.
    destruct (realpath_oracle H h (path wt)) as [q|].
    + destruct (String.eqb q target); [eexists; eexists; reflexivity | apply IH].
    + destruct (String.eqb (path_resolve H [path wt]) target);
        [eexists; eexists; reflexivity | apply IH].
Qed.

(** [findWorktreeByPath] neither raises nor exits. *)
Lemma findWorktreeByPath_returns_always (t cwd : string) (h : History) :
  exists o h', Git.findWorktreeByPath H t cwd h = (Ret o, h').
Proof.
  unfold Git.findWorktreeByPath, bind at 1.
  destruct (getWorktrees_returns_always cwd h) as (l & h1 & ->).
  unfold bind at 1, try_catch, realpath, ret.
  destruct (realpath_oracle H h1 (path_resolve H [t])); apply findByRealPath_returns_always.
Qed.

(** X19: a token that names an existing path is never tried as a branch
    name by [cd].  For a directory the run is the path look-up and, when
    that finds nothing, one [stat] of [<token>/.git]: the answer is the
    record the look-up found; or the ad-hoc record, exactly when that
    [stat] succeeds; or exit status 1 after a line on standard error,
    when it fails.  A path that is not a directory gives exit status 1
    at once.  No other event takes place. *)
Theorem cd_existing_path_not_a_branch
        (pathOrBranch : string) (h : History) (d : bool) :
  truthy pathOrBranch = true ->
  stat_oracle H h pathOrBranch = StatOk d ->
  let h1 := (h ++ [EvStat pathOrBranch (StatOk d)])%list in
  let gitEntry := path_resolve H [pathOrBranch; ".git"] in
  if d then
    exists found h2,
      Git.findWorktreeByPath H pathOrBranch "." h1 = (Ret found, h2) /\
      Cd.resolveTarget H pathOrBranch h =
        match found with
        | Some wt => (Ret wt, h2)
        | None =>
            match stat_oracle H h2 gitEntry with
            | StatOk d2 =>
                (Ret (Cd.adHocRecord (path_resolve H [pathOrBranch])),
                 (h2 ++ [EvStat gitEntry (StatOk d2)])%list)
            | StatErr code msg =>
                (Exit 1,
                 (h2 ++ [EvStat gitEntry (StatErr code msg);
                         EvWrite Err ("The path " ++ quoted pathOrBranch
                                      ++ " exists but is not a git worktree." ++ LF)])%list)
            end
        end
  else
    Cd.resolveTarget H pathOrBranch h =
      (Exit 1,
       (h1 ++ [EvWrite Err ("The path " ++ quoted pathOrBranch
                            ++ " is not a directory." ++ LF)])%list).
Proof.
  intros T S h1 gitEntry. subst h1 gitEntry. destruct d.
  - destruct (findWorktreeByPath_returns_always pathOrBranch "."
                (h ++ [EvStat pathOrBranch (StatOk true)])%list) as (o & h2 & E).
    exists o, h2. split; [exact E|].
    unfold Cd.resolveTarget. rewrite T. cbn [negb].
    unfold bind at 1, try_catch at 1, bind at 1, stat at 1. rewrite S.
    unfold ret at 1. cbv beta iota. unfold bind at 1. unfold bind at 1. rewrite E.
    destruct o as [wt|]; [reflexivity|].
    unfold try_catch, bind, stat, ret, process_exit, Cd.stderr_write, emit.
    destruct (stat_oracle H h2 (path_resolve H [pathOrBranch; ".git"]));
      [reflexivity | rewrite <- app_assoc; reflexivity].
  - unfold Cd.resolveTarget. rewrite T. cbn [negb].
    unfold bind at 1, try_catch at 1, bind at 1, stat at 1. rewrite S. reflexivity.
Qed.

End Resolvers.

Lemma cd_existing_path_not_a_branch_witness :
  run (Cd.resolveTarget Fixtures.clone_host "/repo/clone") [] =
    Ret (Cd.adHocRecord "/repo/clone").
Proof.
  destruct (cd_existing_path_not_a_branch Fixtures.clone_host "/repo/clone" [] true
              eq_refl eq_refl) as (found & h2 & E & R).
  vm_compute in E. injection E as <- <-.
  unfold run. rewrite R. reflexivity.
Defined.

Lemma open_cd_resolve_alike_witness :
  run (Open.resolveTarget Fixtures.clone_host "/repo/clone") [] =
    Ret (Cd.adHocRecord "/repo/clone").
Proof.
  rewrite (open_cd_resolve_alike Fixtures.clone_host "/repo/clone" [] eq_refl).
  reflexivity.
Defined.

Section EditorLaunch.
Variable H : Host.
Variable config : Open.EditorConfig.

Lemma launches_bind_neutral {A B} (ed : string) (m : M A) (k : A -> M B) :
  emits_only no_terminal_child m ->
  (forall a, launches_verified ed (k a)) ->
  launches_verified ed (bind m k).
Proof.
  intros Hm Hk h. unfold bind.
  destruct (Hm h) as (e1 & E1 & P1).
  assert (N : forall c o, In (EvExec c o) e1 -> opt_stdio_inherit c = true -> False).
  { intros c o I S. rewrite forallb_forall in P1. specialize (P1 _ I).
    simpl in P1. rewrite S in P1. discriminate. }
  destruct (m h) as [[a|e|c] h1]; simpl in E1; subst h1.
  - destruct (Hk a (h ++ e1)%list) as (res & e2 & E2 & Q).
    exists res, (e1 ++ e2)%list. rewrite E2, app_assoc. split; [reflexivity|].
    intros c o I S. apply in_app_or in I as [I|I]; [destruct (N c o I S)|].
    destruct (Q c o I S) as (p & d & Ec & Is).
    exists p, d. split; [exact Ec | apply in_or_app; right; exact Is].
  - exists (Throw e), e1. split; [reflexivity|].
    intros c o I S. destruct (N c o I S).
  - exists (Exit c), e1. split; [reflexivity|].
    intros c0 o I S. destruct (N c0 o I S).
Qed.

Lemma launches_try {A} (ed : string) (m : M A) (handler : JsError -> M A) :
  launches_verified ed m ->
  (forall e h, exists c text, handler e h = (Exit c, (h ++ [EvWrite Err text])%list)) ->
  launches_verified ed (try_catch m handler).
Proof.
  intros Hm Hk h. unfold try_catch.
  destruct (Hm h) as (res & e1 & E1 & Q). rewrite E1.
  destruct res as [a|e|c].
  - exists (Ret a), e1. auto.
  - destruct (Hk e (h ++ e1)%list) as (c & text & ->).
    exists (Exit c), (e1 ++ [EvWrite Err text])%list. rewrite app_assoc.
    split; [reflexivity|].
    intros c0 o I S. apply in_app_or in I as [I|[I|[]]]; [|discriminate].
    destruct (Q c0 o I S) as (p & d & Ec & Is).
    exists p, d. split; [exact Ec | apply in_or_app; left; exact Is].
  - exists (Exit c), e1. auto.
Qed.

Ltac write_step :=
  match goal with
  | |- emits_only _ (if ?b then _ else _) => destruct b
  | |- emits_only _ (match ?x with _ => _ end) => destruct x
  | |- emits_only _ (bind _ _) => apply emits_bind; [|intros ?]
  | |- emits_only _ (ret _) => apply emits_ret
  | |- emits_only _ (console_log _) => apply emits_emit; reflexivity
  end.

Lemma announce_writes (wt : WorktreeInfo) (ed : string) (h : History) :
  exists evs,
    Open.announce wt ed h = (Ret tt, (h ++ evs)%list) /\ forallb only_writes evs = true.
Proof.
  assert (E : emits_only only_writes (Open.announce wt ed))
    by (unfold Open.announce; repeat write_step).
  assert (R : forall hh, fst (Open.announce wt ed hh) = Ret tt).
  { intros hh. unfold Open.announce, bind, console_log, emit, ret.
    destruct (branch wt) as [b|]; [destruct (truthy b)|];
      destruct (detached wt), (locked wt), (prunable wt); reflexivity. }
  destruct (E h) as (evs & Es & P). exists evs. split; [|exact P].
  specialize (R h). destruct (Open.announce wt ed h) as [res h']. simpl in *.
  subst. reflexivity.
Qed.

(** From the check of the resolved path to the end of the handler. *)
Lemma verify_then_launch (wt : WorktreeInfo) (ed : string) :
  launches_verified ed
    (try_catch
       (stat H (path wt) ;; ret tt)
       (fun err =>
          if negb (Cd.isEnoent err) then throw err
          else
            Cd.stderr_write ("The worktree path " ++ quoted (path wt)
                             ++ " no longer exists." ++ LF) ;;
            Cd.stderr_write ("The worktree may have been removed. Run 'git worktree prune' to clean up." ++ LF) ;;
            process_exit 1) ;;
     if Open.shouldSkipEditor config ed then
       Cd.stdout_write (path wt ++ LF)
     else
       Open.announce wt ed ;;
       try_catch
         (execa H (Open.editor_cmd ed (path wt)) ;;
          console_log ("Successfully opened worktree in " ++ ed ++ "."))
         (fun _ =>
            Cd.stderr_write ("Failed to open editor " ++ quoted ed
                             ++ ". Please ensure it's installed and in your PATH." ++ LF) ;;
            process_exit 1)).
Proof.
  intros h.
  unfold bind at 1, try_catch at 1, bind at 1, stat.
  destruct (stat_oracle H h (path wt)) as [d|code msg].
  - cbn [ret]. destruct (Open.shouldSkipEditor config ed).
    + unfold Cd.stdout_write, emit. eexists; eexists. rewrite <- app_assoc.
      split; [reflexivity|].
      intros c o [I|[I|[]]]; discriminate.
    + unfold bind at 1.
      destruct (announce_writes wt ed (h ++ [EvStat (path wt) (StatOk d)])%list)
        as (ann & -> & Pa).
      assert (Na : forall c o, ~ In (EvExec c o) ann).
      { intros c o I. rewrite forallb_forall in Pa. specialize (Pa _ I). discriminate. }
      unfold try_catch, bind, execa, console_log, Cd.stderr_write, emit, process_exit.
      set (hh := ((h ++ [EvStat (path wt) (StatOk d)]) ++ ann)%list).
      destruct (execa_oracle H hh (Open.editor_cmd ed (path wt))) as [r|m] eqn:Eo;
        [destruct (failed r && opt_reject (Open.editor_cmd ed (path wt)))|];
        subst hh;
        (eexists; eexists ((EvStat (path wt) (StatOk d) :: ann) ++ [_; _])%list;
         split; [rewrite <- !app_assoc; cbn [app]; reflexivity|];
         intros c o I S;
         apply in_app_or in I as [[I|I]|[I|[I|[]]]];
         [ discriminate
         | destruct (Na c o I)
         | injection I as <- <-; exists (path wt), d; split; [reflexivity | left; reflexivity]
         | discriminate ]).
  - unfold Cd.isEnoent, throw, bind, Cd.stderr_write, emit, process_exit.
    destruct (String.eqb code "ENOENT"); cbn [negb].
    + eexists; eexists. rewrite <- !app_assoc. split; [reflexivity|].
      intros c o [I|[I|[I|[]]]]; discriminate.
    + eexists; eexists. split; [reflexivity|].
      intros c o [I|[]]; discriminate.
Qed.

(** The editor the handler uses: [-e] when given, else the configured
    one. *)
Let chosen (options : Open.Options) : string :=
  match Open.editor options with
  | Some e => if truthy e then e else Open.getDefaultEditor config
  | None => Open.getDefaultEditor config
  end.

(** X23: whatever the token and the options, the only child [wt open]
    lets take over the terminal is the chosen editor, started on a path
    that [stat] found to exist during the run. *)
Theorem openWorktreeHandler_launches_verified
        (pathOrBranch : string) (options : Open.Options) :
  launches_verified (chosen options)
    (Open.openWorktreeHandler H config pathOrBranch options).
Proof.
  unfold Open.openWorktreeHandler. cbv zeta.
  apply launches_try.
  - apply launches_bind_neutral;
      [apply emits_execa; intros; reflexivity | intros gitCheck].
    apply launches_bind_neutral.
    { destruct (match exitCode gitCheck with Some 0%Z => false | _ => true end).
      - apply emits_bind; [apply emits_emit; reflexivity | intros; apply emits_exit].
      - apply emits_ret. }
    intros _.
    apply launches_bind_neutral; [apply open_resolveTarget_no_child | intros wt].
    apply verify_then_launch.
  - intros e h. eexists; eexists. reflexivity.
Qed.

End EditorLaunch.

Example open_feature_in_code :
  Open.openWorktreeHandler Fixtures.clone_host Configs.code "feature" (Open.mkOptions None) [] =
  (Exit 1,
   [EvExec (git_noreject ["rev-parse"; "--is-inside-work-tree"]) (Completed (ok_result "true"));
    EvStat "feature" (StatErr "ENOENT" "no such file or directory");
    EvExec (Git.worktree_list_cmd ".") (Completed (ok_result Fixtures.two_listing));
    EvStat "/repo/wt" (StatOk true);
    EvWrite Out ("Opening worktree for branch " ++ quoted "feature" ++ "...");
    EvWrite Out "Opening /repo/wt in code...";
    EvExec (Open.editor_cmd "code" "/repo/wt") Fixtures.not_a_repo;
    EvWrite Err ("Failed to open editor " ++ quoted "code"
                 ++ ". Please ensure it's installed and in your PATH." ++ LF)]).
Proof. reflexivity. Qed.

Section SubshellStatus.
Variable H : Host.

(** X21: without [--print], once the target is resolved and found to
    exist, the subshell decides the status of [wt cd]: a subshell killed
    by a signal gives 128 plus the signal's number (128 when the number
    is unknown), one that ends with a status other than 0 gives that
    status, and otherwise the handler returns. *)
Theorem cdWorktreeHandler_subshell_status
        (pathOrBranch : string) (h0 h2 : History)
        (g s : ExecaResult) (wt : WorktreeInfo) (d : bool) :
  let check := git_noreject ["rev-parse"; "--is-inside-work-tree"] in
  let h1 := (h0 ++ [EvExec check (Completed g)])%list in
  let h3 := (h2 ++ [EvStat (path wt) (StatOk d);
                    EvWrite Err ("Entering " ++ path wt ++ LF);
                    EvWrite Err ("(exit or ctrl+d to return)" ++ LF)])%list in
  execa_oracle H h0 check = Completed g ->
  exitCode g = Some 0%Z ->
  trim (stdout g) = "true" ->
  Cd.resolveTarget H pathOrBranch h1 = (Ret wt, h2) ->
  stat_oracle H h2 (path wt) = StatOk d ->
  execa_oracle H h3 (subshell_cmd H (path wt)) = Completed s ->
  run (Cd.cdWorktreeHandler H pathOrBranch (Cd.mkOptions false)) h0 =
    match signal s with
    | Some sig => Exit (128 + match signal_number H sig with Some n => n | None => 0 end)
    | None =>
        match exitCode s with
        | Some code => if Z.eqb code 0 then Ret tt else Exit code
        | None => Ret tt
        end
    end.
Proof.
  intros check h1 h3 Eg Xg Tg Er Es Esh. subst check h1 h3.
  unfold run, Cd.cdWorktreeHandler, try_catch at 1, bind at 1.
  unfold execa at 1. rewrite Eg. rewrite andb_false_r.
  unfold bind at 1. rewrite Xg, Tg, String.eqb_refl. cbn [negb orb ret].
  unfold bind at 1. rewrite Er.
  unfold bind at 1, try_catch at 1, bind at 1, stat at 1. rewrite Es. cbn [ret Cd.print].
  unfold bind at 1, Cd.stderr_write at 1, emit at 1.
  unfold bind at 1, Cd.stderr_write at 1, emit at 1.
  unfold bind at 1, execa at 1.
  rewrite <- !app_assoc. cbn [app].
  fold (subshell_cmd H (path wt)). rewrite Esh. rewrite andb_false_r.
  destruct (signal s) as [sig|]; [reflexivity|].
  destruct (exitCode s) as [code|]; [|reflexivity].
  destruct (Z.eqb code 0); reflexivity.
Qed.

End SubshellStatus.

Lemma cdWorktreeHandler_subshell_status_witness :
  run (Cd.cdWorktreeHandler Fixtures.clone_host "feature" (Cd.mkOptions false)) [] = Exit 128.
Proof.
  exact (cdWorktreeHandler_subshell_status Fixtures.clone_host "feature" [] _
           (ok_result "true") (fail_result 128 "" "fatal: not a git repository")
           Fixtures.feature_record true
           eq_refl eq_refl eq_refl eq_refl eq_refl eq_refl).
Defined.

(* ===================================================================== *)
(** * Properties of the completion and of [wt init] *)
(* ===================================================================== *)

Section LineFacts.
Import Git.

Lemma split_go_plain (x : ascii) (s cur : string) :
  JsString.all (not_char x) s = true ->
  split_go (String x "") s cur 0 = [(JsString.rev cur ++ s)%string].
Proof.
  revert cur; induction s as [|c s IH]; intros cur A; cbn [split_go].
  - rewrite string_app_nil_r. reflexivity.
  - simpl in A. apply andb_prop in A as [Nc As].
    cbn [String.prefix].
    destruct (ascii_dec x c) as [->|N].
    + unfold not_char in Nc. rewrite Ascii.eqb_refl in Nc. discriminate.
    + rewrite (IH (String c cur) As), rev_cons, string_app_assoc. reflexivity.
Qed.

Lemma split_go_piece (x : ascii) (m s cur : string) :
  JsString.all (not_char x) m = true ->
  split_go (String x "") (m ++ String x s) cur 0
  = (JsString.rev cur ++ m)%string :: split_go (String x "") s "" 0.
Proof.
  revert cur; induction m as [|c m IH]; intros cur A.
  - cbn [String.append split_go String.prefix String.length Nat.sub].
    destruct (ascii_dec x x) as [_|N]; [|contradiction].
    rewrite prefix_empty, string_app_nil_r. reflexivity.
  - simpl in A. apply andb_prop in A as [Nc Am].
    cbn [String.append split_go String.prefix].
    destruct (ascii_dec x c) as [->|N].
    + unfold not_char in Nc. rewrite Ascii.eqb_refl in Nc. discriminate.
    + rewrite (IH (String c cur) Am), rev_cons, string_app_assoc. reflexivity.
Qed.

(** Joining names that hold no separator and splitting the text at the
    separators gives the names back. *)
Lemma split_concat_lines (x : ascii) (ms : list string) :
  ms <> [] ->
  Forall (fun m => JsString.all (not_char x) m = true) ms ->
  split (String.concat (String x "") ms) (String x "") = ms.
Proof.
  intros N F. unfold split. induction F as [|m ms Hm F IH]; [contradiction|].
  destruct ms as [|m2 ms].
  - cbn [String.concat]. rewrite (split_go_plain x m "" Hm). reflexivity.
  - change (String.concat (String x "") (m :: m2 :: ms))
      with (m ++ String x (String.concat (String x "") (m2 :: ms)))%string.
    rewrite (split_go_piece x m _ "" Hm). cbn [JsString.rev rev_onto String.append].
    rewrite IH by discriminate. reflexivity.
Qed.

Lemma all_drop (p : ascii -> bool) (n : nat) (s : string) :
  JsString.all p s = true -> JsString.all p (drop n s) = true.
Proof.
  revert s; induction n as [|n IH]; intros s A; [exact A|].
  destruct s as [|c s]; [reflexivity|].
  simpl in A. apply andb_prop in A as [_ As]. simpl. apply IH, As.
Qed.

Lemma all_replace_erase (p : ascii -> bool) (s pat : string) :
  JsString.all p s = true -> JsString.all p (replace s pat "") = true.
Proof.
  induction s as [|c s IH]; intros A.
  - cbn [replace]. destruct (String.prefix pat ""); [|reflexivity].
    cbn [String.append]. apply all_drop. reflexivity.
  - cbn [replace]. destruct (String.prefix pat (String c s)).
    + cbn [String.append]. apply all_drop, A.
    + simpl in A. apply andb_prop in A as [Pc As].
      simpl. rewrite Pc. apply IH, As.
Qed.

Lemma parseLine_branch (info : WorktreeInfo) (line : string) :
  JsString.all (not_char (ascii_of_nat 10)) line = true ->
  branch_on_one_line info -> branch_on_one_line (parseLine info line).
Proof.
  intros A I. unfold parseLine.
  repeat match goal with
         | |- context [if ?b then _ else _] => destruct b
         end; try exact I.
  intros b Eb. unfold set_branch in Eb. cbn [branch] in Eb. injection Eb as <-.
  apply all_replace_erase.
  exact (all_drop _ (String.length "branch ") line A).
Qed.

Lemma fold_parseLine_branch (lines : list string) (info : WorktreeInfo) :
  Forall (fun line => JsString.all (not_char (ascii_of_nat 10)) line = true) lines ->
  branch_on_one_line info -> branch_on_one_line (fold_left parseLine lines info).
Proof.
  intros F. revert info; induction F as [|l ls Hl F IH]; intros info I; simpl.
  - exact I.
  - apply IH, parseLine_branch; assumption.
Qed.

Lemma parseBlocks_branch (isFirst : bool) (blocks : list string) :
  Forall branch_on_one_line (parseBlocks isFirst blocks).
Proof.
  revert isFirst; induction blocks as [|b bs IH]; intros isFirst; simpl.
  - constructor.
  - assert (B : branch_on_one_line (parseBlock isFirst b)).
    { unfold parseBlock. apply fold_parseLine_branch.
      - apply (split_single (ascii_of_nat 10)).
      - intros x. discriminate. }
    destruct (truthy (path (parseBlock isFirst b))); [constructor; [exact B|] |]; apply IH.
Qed.

(** The branch names of a parsed listing hold no line feed. *)
Lemma parseWorktreeList_branch (out : string) :
  Forall branch_on_one_line (parseWorktreeList out).
Proof.
  unfold parseWorktreeList.
  destruct (negb (truthy (trim out))); [constructor | apply parseBlocks_branch].
Qed.

End LineFacts.

Section CompletionFacts.
Import Completion.
Variable H : Host.

Lemma printMatches_run (matches : list string) (h : History) :
  exists evs,
    printMatches matches h = (Ret tt, (h ++ evs)%list) /\
    stdout_texts evs = match matches with
                       | [] => []
                       | _ => [String.concat LF matches]
                       end.
Proof.
  unfold printMatches, console_log, emit, ret.
  destruct matches as [|m l]; cbn [List.length Nat.ltb Nat.leb].
  - exists []. rewrite app_nil_r. auto.
  - eexists [_]. split; reflexivity.
Qed.

Lemma getWorktrees_quiet (h : History) :
  exists l evs,
    Git.getWorktrees H "." h = (Ret l, (h ++ evs)%list) /\ stdout_texts evs = [] /\
    run (Git.getWorktrees H ".") h = Ret l.
Proof.
  unfold run. rewrite getWorktrees_run. cbv zeta.
  destruct (execa_oracle H h (Git.worktree_list_cmd ".")) as [r|m];
    [destruct (failed r)|]; eexists; eexists; repeat split; reflexivity.
Qed.

Lemma worktreeBranches_in (l : list WorktreeInfo) (b : string) :
  In b (worktreeBranches l) ->
  exists wt, In wt l /\ isMain wt = false /\ branch wt = Some b /\ truthy b = true.
Proof.
  unfold worktreeBranches. intros I. apply in_flat_map in I as (wt & Iw & Ib).
  exists wt. split; [exact Iw|].
  destruct (branch wt) as [x|]; [|destruct Ib].
  destruct (isMain wt); [destruct Ib|]. simpl in Ib.
  destruct (truthy x) eqn:T; [|destruct Ib].
  destruct Ib as [<-|[]]. auto.
Qed.

Lemma try_catch_ret {A} (m : M A) (handler : JsError -> M A) (h h' : History) (a : A) :
  m h = (Ret a, h') -> try_catch m handler h = (Ret a, h').
Proof. intros E. unfold try_catch. rewrite E. reflexivity. Qed.

Lemma bind_ret_step {A B} (m : M A) (k : A -> M B) (h h1 : History) (a : A) :
  m h = (Ret a, h1) -> bind m k h = k a h1.
Proof. intros E. unfold bind. rewrite E. reflexivity. Qed.

Lemma filter_candidates (current : string) (l : list string) :
  Forall (fun m => truthy m = true /\ JsString.all (not_char (ascii_of_nat 10)) m = true) l ->
  Forall (fun m => truthy m = true /\
                   JsString.all (not_char (ascii_of_nat 10)) m = true /\
                   startsWith m current = true)
         (filter (fun m => startsWith m current) l).
Proof.
  intros F. apply Forall_forall. intros m I. apply filter_In in I as [I P].
  rewrite Forall_forall in F. destruct (F m I) as [T A]. repeat split; assumption.
Qed.

Lemma getWorktrees_listing (h : History) :
  exists l evs,
    Git.getWorktrees H "." h = (Ret l, (h ++ evs)%list) /\ stdout_texts evs = [] /\
    Forall branch_on_one_line l.
Proof.
  rewrite getWorktrees_run. cbv zeta.
  destruct (execa_oracle H h (Git.worktree_list_cmd ".")) as [r|m];
    [destruct (failed r)|]; eexists; eexists;
    (split; [reflexivity|]); (split; [reflexivity|]);
    try constructor.
  apply parseWorktreeList_branch.
Qed.

Lemma getBranches_listing (h : History) :
  exists l evs,
    GitQueries.getBranches H "." h = (Ret l, (h ++ evs)%list) /\ stdout_texts evs = [] /\
    Forall clean_name l.
Proof.
  unfold GitQueries.getBranches, try_catch, bind, execa, ret.
  destruct (execa_oracle H h (GitQueries.branch_list_cmd ".")) as [r|m];
    cbn -[trim split];
    [|eexists; eexists; split; [reflexivity | split; [reflexivity | constructor]]].
  rewrite andb_true_r.
  destruct (failed r); cbn -[trim split];
    [eexists; eexists; split; [reflexivity | split; [reflexivity | constructor]]|].
  destruct (truthy (trim (stdout r))); eexists; eexists;
    (split; [reflexivity|]); (split; [reflexivity|]);
    [apply lines_clean | constructor].
Qed.

Lemma worktreeBranches_candidates (l : list WorktreeInfo) :
  Forall branch_on_one_line l ->
  Forall (fun m => truthy m = true /\ JsString.all (not_char (ascii_of_nat 10)) m = true)
         (worktreeBranches l).
Proof.
  intros F. apply Forall_forall. intros b I.
  destruct (worktreeBranches_in l b I) as (wt & Iw & _ & B & T).
  rewrite Forall_forall in F. split; [exact T | exact (F wt Iw b B)].
Qed.

(** X24: [getCompletions] returns in every world, and writes to
    standard output at most once.  The text it writes is a list of
    candidates joined by line feeds; the list is not empty; cutting the
    text at its line feeds gives the candidates back, so that each line
    is one candidate; and every candidate is a non-empty name that
    begins with the word being typed (the last word, or the empty word
    when there is none). *)
Theorem getCompletions_candidates (words : list string) (h : History) :
  exists evs,
    getCompletions H words h = (Ret tt, (h ++ evs)%list) /\
    (stdout_texts evs = [] \/
     exists matches,
       matches <> [] /\
       stdout_texts evs = [String.concat LF matches] /\
       split (String.concat LF matches) LF = matches /\
       Forall (fun m => truthy m = true /\ startsWith m (last words "") = true) matches).
Proof.
  assert (Pm : forall l hh pre,
             Forall (fun m => truthy m = true /\
                              JsString.all (not_char (ascii_of_nat 10)) m = true) l ->
             stdout_texts pre = [] ->
             exists evs,
               printMatches (filter (fun m => startsWith m (last words "")) l)
                            (hh ++ pre)%list = (Ret tt, (hh ++ evs)%list) /\
               (stdout_texts evs = [] \/
                exists matches,
                  matches <> [] /\
                  stdout_texts evs = [String.concat LF matches] /\
                  split (String.concat LF matches) LF = matches /\
                  Forall (fun m => truthy m = true /\ startsWith m (last words "") = true)
                         matches)).
  { intros l hh pre Fl Q.
    destruct (printMatches_run (filter (fun m => startsWith m (last words "")) l)
                               (hh ++ pre)%list) as (evs & -> & S).
    exists (pre ++ evs)%list. rewrite app_assoc. split; [reflexivity|].
    rewrite stdout_texts_app, Q, S. cbn [app].
    pose proof (filter_candidates (last words "") l Fl) as Fc.
    destruct (filter (fun m => startsWith m (last words "")) l) as [|m ms] eqn:F;
      [left; reflexivity | right].
    exists (m :: ms). split; [discriminate|]. split; [reflexivity|]. split.
    - apply (split_concat_lines (ascii_of_nat 10)); [discriminate|].
      apply Forall_forall. intros x Ix. rewrite Forall_forall in Fc.
      destruct (Fc x Ix) as (_ & A & _). exact A.
    - apply Forall_forall. intros x Ix. rewrite Forall_forall in Fc.
      destruct (Fc x Ix) as (T & _ & P). split; assumption. }
  unfold getCompletions. cbv zeta.
  destruct (removelast words) as [|command more] eqn:C.
  - destruct (Pm SUBCOMMANDS h []) as (evs & E & Q);
      [repeat constructor | reflexivity |].
    rewrite app_nil_r in E. exists evs.
    split; [apply try_catch_ret; exact E | exact Q].
  - destruct (has WORKTREE_BRANCH_COMMANDS command).
    + destruct (getWorktrees_listing h) as (l & pre & El & Q & Fb).
      destruct (Pm (worktreeBranches l) h pre (worktreeBranches_candidates l Fb) Q)
        as (evs & E & Q').
      exists evs. split; [|exact Q'].
      apply try_catch_ret. rewrite (bind_ret_step _ _ _ _ _ El). exact E.
    + destruct (has GIT_BRANCH_COMMANDS command).
      * destruct (getBranches_listing h) as (l & pre & El & Q & Fc).
        assert (Fl : Forall (fun m => truthy m = true /\
                               JsString.all (not_char (ascii_of_nat 10)) m = true) l).
        { apply Forall_forall. intros x Ix. rewrite Forall_forall in Fc.
          destruct (Fc x Ix) as (T & A & _). split; assumption. }
        destruct (Pm l h pre Fl Q) as (evs & E & Q').
        exists evs. split; [|exact Q'].
        apply try_catch_ret. rewrite (bind_ret_step _ _ _ _ _ El). exact E.
      * destruct (String.eqb command "config").
        -- destruct (Nat.eqb (List.length (command :: more)) 1).
           ++ destruct (Pm CONFIG_SUBCOMMANDS h []) as (evs & E & Q);
                [repeat constructor | reflexivity |].
              rewrite app_nil_r in E. exists evs.
              split; [apply try_catch_ret; exact E | exact Q].
           ++ exists []. rewrite app_nil_r. split; [reflexivity | left; reflexivity].
        -- exists []. rewrite app_nil_r. split; [reflexivity | left; reflexivity].
Qed.

(** X25: after [merge], [remove], [rm] or [open], every candidate is
    the branch of a listed worktree that is not the main one. *)
Theorem getCompletions_worktree_branches
        (words more : list string) (command : string) (h : History)
        (l : list WorktreeInfo) :
  removelast words = command :: more ->
  has WORKTREE_BRANCH_COMMANDS command = true ->
  run (Git.getWorktrees H ".") h = Ret l ->
  exists evs matches,
    getCompletions H words h = (Ret tt, (h ++ evs)%list) /\
    stdout_texts evs = match matches with
                       | [] => []
                       | _ => [String.concat LF matches]
                       end /\
    Forall (fun b => startsWith b (last words "") = true /\
                     exists wt, In wt l /\ isMain wt = false /\ branch wt = Some b)
           matches.
Proof.
  intros C W R.
  unfold getCompletions. cbv zeta. rewrite C, W.
  destruct (getWorktrees_quiet h) as (l' & pre & E & Q & R').
  rewrite R in R'. injection R' as <-.
  destruct (printMatches_run
              (filter (fun b => startsWith b (last words "")) (worktreeBranches l))
              (h ++ pre)%list) as (evs & Ep & S).
  exists (pre ++ evs)%list,
         (filter (fun b => startsWith b (last words "")) (worktreeBranches l)).
  split; [|split].
  - apply try_catch_ret. rewrite (bind_ret_step _ _ _ _ _ E), Ep, app_assoc. reflexivity.
  - rewrite stdout_texts_app, Q, S. reflexivity.
  - apply Forall_forall. intros b I. apply filter_In in I as [I P].
    split; [exact P|].
    destruct (worktreeBranches_in l b I) as (wt & Iw & M & B & _). eauto.
Qed.

(** X26: for every other first word ([pr], [purge], [list], an unknown
    one), and after the first argument of [config], nothing is offered
    and nothing is run: the handler returns at once. *)
Theorem getCompletions_nothing_else
        (words more : list string) (command : string) (h : History) :
  removelast words = command :: more ->
  has WORKTREE_BRANCH_COMMANDS command = false ->
  has GIT_BRANCH_COMMANDS command = false ->
  (command = "config" -> more <> []) ->
  getCompletions H words h = (Ret tt, h).
Proof.
  intros C W G K.
  unfold getCompletions, try_catch. cbv zeta. rewrite C, W, G.
  destruct (String.eqb_spec command "config") as [E|N]; [|reflexivity].
  destruct more as [|x more']; [destruct (K E eq_refl)|]. reflexivity.
Qed.

End CompletionFacts.

Lemma getCompletions_worktree_branches_witness :
  exists evs,
    Completion.getCompletions Fixtures.two_host ["rm"; "fe"] [] = (Ret tt, evs) /\
    stdout_texts evs = ["feature"].
Proof.
  destruct (getCompletions_worktree_branches Fixtures.two_host ["rm"; "fe"] [] "rm" []
              [Fixtures.main_record; Fixtures.feature_record] eq_refl eq_refl eq_refl)
    as (evs & matches & E & S & _).
  exists evs. split; [exact E|].
  vm_compute in E. injection E as <-. reflexivity.
Defined.

Lemma getCompletions_nothing_else_witness :
  Completion.getCompletions Fixtures.two_host ["config"; "set"; ""] [] = (Ret tt, []).
Proof.
  apply (getCompletions_nothing_else Fixtures.two_host ["config"; "set"; ""] ["set"] "config" []);
    [reflexivity | reflexivity | reflexivity | discriminate].
Defined.


Section InitFacts.
Import Init.

Lemma split_go_nonempty (sep s cur : string) (skip : nat) :
  split_go sep s cur skip <> [].
Proof.
  revert cur skip; induction s as [|c s IH]; intros cur skip; cbn [split_go].
  - discriminate.
  - destruct skip; [|apply IH].
    destruct (String.prefix sep (String c s)); [discriminate | apply IH].
Qed.

Lemma last_cons_nonempty {A} (a d : A) (l : list A) :
  l <> [] -> last (a :: l) d = last l d.
Proof. destruct l; [contradiction | reflexivity]. Qed.

Lemma split_go_last (x : ascii) (dir base cur : string) :
  JsString.all (not_char x) base = true ->
  last (split_go (String x "") (dir ++ String x base) cur 0) "" = base.
Proof.
  intros A. revert cur; induction dir as [|c dir IH]; intros cur.
  - cbn [String.append split_go String.prefix String.length Nat.sub].
    destruct (ascii_dec x x) as [_|N]; [|contradiction].
    assert (P : String.prefix "" base = true) by (destruct base; reflexivity).
    rewrite P, last_cons_nonempty by apply split_go_nonempty.
    rewrite (split_go_plain x base "" A). reflexivity.
  - cbn [String.append split_go String.prefix String.length Nat.sub].
    destruct (ascii_dec x c) as [->|N]; [|apply IH].
    assert (P : String.prefix "" (dir ++ String c base) = true)
      by (destruct dir; reflexivity).
    rewrite P, last_cons_nonempty by apply split_go_nonempty.
    apply IH.
Qed.

(** X27: [detectShell] looks at nothing but what follows the last slash
    of [$SHELL], and compares it without regard to case: the directory
    the shell is installed in plays no part. *)
Theorem detectShell_last_segment (E : Env) (dir base : string) :
  env_SHELL E = Some (dir ++ "/" ++ base) ->
  JsString.all (not_char "/") base = true ->
  detectShell E = supported (toLowerCase base).
Proof.
  intros S A. unfold detectShell. rewrite S. cbv zeta.
  assert (T : truthy (dir ++ "/" ++ base) = true) by (destruct dir; reflexivity).
  rewrite T. unfold split.
  change ("/" ++ base)%string with (String "/" base).
  rewrite (split_go_last "/" dir base "" A). reflexivity.
Qed.

Lemma supported_truthy (name : string) (sh : Shell) :
  supported (toLowerCase name) = Some sh -> truthy name = true.
Proof. destruct name; [discriminate | reflexivity]. Qed.

Lemma guidance_run (E : Env) (sh : Shell) (h : History) :
  exists evs,
    guidance E sh h = (Ret tt, (h ++ evs)%list) /\
    stdout_texts evs = [] /\ Forall (fun e => only_writes e = true) evs.
Proof.
  unfold guidance. cbv zeta.
  destruct (isAlreadyInstalled E (SHELL_RC sh)).
  - eexists. split; [reflexivity|]. split; [reflexivity | repeat constructor].
  - unfold bind, Cd.stderr_write, emit. repeat rewrite <- app_assoc. cbn [app].
    eexists. split; [reflexivity|]. split; [reflexivity | repeat constructor].
Qed.

(** X28: what [wt init] leaves on standard output, whatever its
    argument and its environment.  Either it returns, and standard
    output carries one text, the wrapper function of a supported shell
    followed by a line feed; or it exits with status 1 and standard
    output carries nothing.  All the rest goes to standard error. *)
Theorem initHandler_stdout_is_function (E : Env) (shell : option string) (h : History) :
  exists evs,
    Forall (fun e => only_writes e = true) evs /\
    ((initHandler E shell h = (Exit 1, (h ++ evs)%list) /\ stdout_texts evs = []) \/
     (exists sh,
        initHandler E shell h = (Ret tt, (h ++ evs)%list) /\
        stdout_texts evs = [getShellFunction sh ++ LF])).
Proof.
  pose proof (guidance_run E) as G.
  unfold initHandler. cbv zeta.
  destruct shell as [s|]; [destruct (truthy s) eqn:T|].
  - destruct (supported (toLowerCase s)) as [sh|] eqn:S.
    + exists [EvWrite Out (getShellFunction sh ++ LF)].
      split; [repeat constructor|]. right. exists sh. split; reflexivity.
    + eexists. split; [|left; split; [unfold bind, Cd.stderr_write, emit, process_exit;
                                      reflexivity | reflexivity]].
      repeat constructor.
  - destruct (detectShell E) as [sh|] eqn:D.
    + unfold bind, Cd.stderr_write, Cd.stdout_write, emit, ret. cbv beta iota.
      destruct (G sh ((h ++ [EvWrite Err ("Detected shell: " ++ shell_name sh ++ LF)])
                        ++ [EvWrite Out (getShellFunction sh ++ LF)])%list)
        as (evs & Eg & Sg & Fg).
      exists ([EvWrite Err ("Detected shell: " ++ shell_name sh ++ LF);
               EvWrite Out (getShellFunction sh ++ LF)] ++ evs)%list.
      split; [repeat constructor; exact Fg|].
      right. exists sh. split.
      * rewrite Eg. repeat rewrite <- app_assoc. reflexivity.
      * cbn [app stdout_texts]. rewrite Sg. reflexivity.
    + eexists. split; [|left; split; [unfold bind, Cd.stderr_write, emit, process_exit;
                                      repeat rewrite <- app_assoc; reflexivity
                                     | reflexivity]].
      repeat constructor.
  - destruct (detectShell E) as [sh|] eqn:D.
    + unfold bind, Cd.stderr_write, Cd.stdout_write, emit, ret. cbv beta iota.
      destruct (G sh ((h ++ [EvWrite Err ("Detected shell: " ++ shell_name sh ++ LF)])
                        ++ [EvWrite Out (getShellFunction sh ++ LF)])%list)
        as (evs & Eg & Sg & Fg).
      exists ([EvWrite Err ("Detected shell: " ++ shell_name sh ++ LF);
               EvWrite Out (getShellFunction sh ++ LF)] ++ evs)%list.
      split; [repeat constructor; exact Fg|].
      right. exists sh. split.
      * rewrite Eg. repeat rewrite <- app_assoc. reflexivity.
      * cbn [app stdout_texts]. rewrite Sg. reflexivity.
    + eexists. split; [|left; split; [unfold bind, Cd.stderr_write, emit, process_exit;
                                      repeat rewrite <- app_assoc; reflexivity
                                     | reflexivity]].
      repeat constructor.
Qed.

(** X29: with a shell named on the command line, in any mix of upper
    and lower case, [wt init] writes the wrapper function to standard
    output and nothing else anywhere: no guidance, no detection line,
    and neither [$SHELL] nor the start-up file is consulted, so that
    two environments give the same run. *)
Theorem initHandler_explicit_shell
        (E E' : Env) (s : string) (sh : Shell) (h : History) :
  supported (toLowerCase s) = Some sh ->
  initHandler E (Some s) h
    = (Ret tt, (h ++ [EvWrite Out (getShellFunction sh ++ LF)])%list) /\
  initHandler E' (Some s) h = initHandler E (Some s) h.
Proof.
  intros S. pose proof (supported_truthy s sh S) as T.
  unfold initHandler. cbv zeta. rewrite T, S. split; reflexivity.
Qed.

End InitFacts.

Lemma detectShell_last_segment_witness :
  Init.detectShell Envs.capital_zsh = Some Init.zsh.
Proof.
  exact (detectShell_last_segment Envs.capital_zsh "/usr/local/bin" "ZSH" eq_refl eq_refl).
Defined.

Lemma initHandler_explicit_shell_witness :
  run (Init.initHandler Envs.capital_zsh (Some "Fish")) [] = Ret tt.
Proof.
  destruct (initHandler_explicit_shell Envs.capital_zsh Envs.capital_zsh "Fish" Init.fish []
              eq_refl) as [E _].
  unfold run. rewrite E. reflexivity.
Defined.

Section QueryFacts.
Import Git GitQueries.
Variable H : Host.

Lemma trimmed_answer (c : Cmd) :
  outcome (r <- execa H c ;; ret (Some (trim (stdout r))))%js
          (fun a => forall b, a = Some b -> trim b = b).
Proof.
  apply outcome_bind with (P := fun _ => True); [apply outcome_execa|].
  intros r _. apply outcome_ret. intros b [= <-]. apply trim_idempotent.
Qed.

(** X30: [getCurrentBranch] and [getRepoRoot] answer in every world:
    they neither raise nor end the process when git fails.  A name they
    give has no blank at either end; the other answer is [null]. *)
Theorem branch_and_root_answers (cwd : string) :
  total (getCurrentBranch H cwd) (fun a => forall b, a = Some b -> trim b = b) /\
  total (getRepoRoot H cwd) (fun a => forall b, a = Some b -> trim b = b).
Proof.
  split.
  - unfold getCurrentBranch. apply total_try; [apply trimmed_answer|].
    intros e h. unfold bind, console_error, emit, ret.
    eexists _, _. split; [reflexivity | discriminate].
  - unfold getRepoRoot. apply total_try; [apply trimmed_answer|].
    intros e h. unfold bind, console_error, emit, ret.
    eexists _, _. split; [reflexivity | discriminate].
Qed.

End QueryFacts.
